(** * NodeHelpers: parameter resolution, display conditions, issues, webhook paths

    A shallow embedding of [packages/workflow/src/NodeHelpers.ts] and the
    properties its specification states about it.

    JavaScript values are embedded as the inductive type [Value]; objects
    keep their properties as an association list in enumeration order
    (the order [Object.keys] reports).  Thrown exceptions are results of
    the [Result] type.  The two lodash functions the module imports,
    [get] and [isEqual], are parameters of the development, and so is
    what the runtime decides: the members that values other than plain
    objects inherit, and the lower-casing of characters outside ASCII. *)

From Stdlib Require Import ZArith Ascii String List Bool Lia DecimalString.
From stdpp Require Import base option list strings gmap.
Import ListNotations.

Set Warnings "-register-all".

Local Open Scope Z_scope.
Local Open Scope nat_scope.

(** ** JavaScript values *)

(** [NodeParameterValue | INodeParameters | NodeParameterValue[] | INodeParameters[]]
    and everything a cast or a property read can put in their place.
    Numbers are the integers: only their equality and their truthiness
    are ever used.  [VBuiltin] is a built-in object of the runtime, as a
    property read finds it on a prototype chain: a function such as
    [Object.prototype.toString] when it is [callable], an object such
    as [Object.prototype] itself when it is not.  Two built-ins are the
    same object when they have the same [id]. *)
Inductive Value : Type :=
| VUndefined
| VNull
| VBool (b : bool)
| VNum (n : Z)
| VStr (s : string)
| VArr (items : list Value)
| VObj (props : list (string * Value))
| VBuiltin (callable : bool) (id : string).

(** What a call can end in: a value, a thrown exception, or the recursion
    budget of the embedding running out. *)
Inductive Error : Type :=
| TypeError                  (* property read on null/undefined, non-iterable, ... *)
| SyntaxError                (* JSON.parse(undefined) *)
| JsError (message : string) (* throw new Error(message) *).

Inductive Result (A : Type) : Type :=
| Ok (a : A)
| Throw (e : Error)
| OutOfFuel.
Arguments Ok {A} a.
Arguments Throw {A} e.
Arguments OutOfFuel {A}.

Definition bind {A B} (r : Result A) (k : A -> Result B) : Result B :=
  match r with
  | Ok a => k a
  | Throw e => Throw e
  | OutOfFuel => OutOfFuel
  end.

Notation "'let*' x ':=' r 'in' k" := (bind r (fun x => k))
  (at level 10, x name, r at level 100, k at level 200).

(** A loop body folded over the elements a [for ... of] visits. *)
Fixpoint forEach {A S} (body : S -> A -> Result S) (xs : list A) (s : S) : Result S :=
  match xs with
  | [] => Ok s
  | x :: rest => let* s' := body s x in forEach body rest s'
  end.

(** [typeof v === 'string' && v.charAt(0) === '='] *)
Definition isExpression (v : Value) : bool :=
  match v with
  | VStr (String c _) => Ascii.eqb c "="%char
  | _ => false
  end.

(** ToBoolean, as used by [||] and [!]. *)
Definition truthy (v : Value) : bool :=
  match v with
  | VUndefined | VNull => false
  | VBool b => b
  | VNum n => negb (Z.eqb n 0)
  | VStr s => negb (String.eqb s EmptyString)
  | VArr _ | VObj _ | VBuiltin _ _ => true
  end.

(** [a || b] *)
Definition jsOr (a b : Value) : Value := if truthy a then a else b.

Definition isUndefined (v : Value) : bool :=
  match v with VUndefined => true | _ => false end.

(** [typeof v === 'object'] holds of null, arrays and objects; a
    function has the type ['function']. *)
Definition typeofObject (v : Value) : bool :=
  match v with
  | VNull | VArr _ | VObj _ => true
  | VBuiltin callable _ => negb callable
  | _ => false
  end.

(** SameValueZero, the comparison of [Array.prototype.includes]; on the
    values of this embedding it coincides with [===].  Arrays and objects
    compare by identity: the values listed in a display rule are
    [NodeParameterValue]s, not objects, and the one use of [!==] on a
    default is guarded by [typeof ... !== 'object'].  A built-in is
    itself and nothing else. *)
Definition sameValueZero (a b : Value) : bool :=
  match a, b with
  | VUndefined, VUndefined => true
  | VNull, VNull => true
  | VBool x, VBool y => Bool.eqb x y
  | VNum x, VNum y => Z.eqb x y
  | VStr x, VStr y => String.eqb x y
  | VBuiltin c x, VBuiltin d y => Bool.eqb c d && String.eqb x y
  | _, _ => false
  end.

Definition strictEq := sameValueZero.

(** [values.includes(v)] *)
Definition includes (values : list Value) (v : Value) : bool :=
  existsb (fun w => sameValueZero w v) values.

(** *** Properties *)

Fixpoint lookupProp {A} (k : string) (props : list (string * A)) : option A :=
  match props with
  | [] => None
  | (k', v) :: rest => if String.eqb k k' then Some v else lookupProp k rest
  end.

(** [o[k] = v] on the property list of an object: an existing property
    keeps its place, a new one is added last. *)
Fixpoint setProp {A} (k : string) (v : A) (props : list (string * A)) : list (string * A) :=
  match props with
  | [] => [(k, v)]
  | (k', v') :: rest =>
      if String.eqb k k' then (k, v) :: rest else (k', v') :: setProp k v rest
  end.

(** A canonical array index: the decimal numeral of a number, without
    leading zeros. *)
Definition indexOfKey (k : string) : option N :=
  match NilEmpty.uint_of_string k with
  | Some u =>
      let n := N.of_uint u in
      if String.eqb (NilZero.string_of_uint (N.to_uint n)) k then Some n else None
  | None => None
  end.

Definition keyOfIndex (i : nat) : string :=
  NilZero.string_of_uint (Nat.to_uint i).

Definition charsOf (s : string) : list Value :=
  map (fun c => VStr (String c EmptyString)) (list_ascii_of_string s).

(** The properties of an array or a string: its [length] and its
    elements. *)
Definition indexed (items : list Value) (k : string) : option Value :=
  if String.eqb k "length" then Some (VNum (Z.of_nat (length items)))
  else match indexOfKey k with
       | Some n => nth_error items (N.to_nat n)
       | None => None
       end.

(** The property [k] that [o] itself has, if it has one. *)
Definition ownProp (o : Value) (k : string) : option Value :=
  match o with
  | VObj props => lookupProp k props
  | VArr items => indexed items k
  | VStr s => indexed (charsOf s) k
  | _ => None
  end.

(** The members of [Object.prototype], which every object made by [{}]
    or by [JSON.parse] inherits: eleven functions and the accessor
    [__proto__]. *)
Definition objectPrototypeNames : list string :=
  ["constructor"; "__defineGetter__"; "__defineSetter__"; "hasOwnProperty";
   "__lookupGetter__"; "__lookupSetter__"; "isPrototypeOf";
   "propertyIsEnumerable"; "toString"; "valueOf"; "__proto__"; "toLocaleString"].

Definition onObjectPrototype (k : string) : bool :=
  existsb (String.eqb k) objectPrototypeNames.

(** Those of them whose [length] is 0: functions without parameters. *)
Definition parameterless (k : string) : bool :=
  existsb (String.eqb k) ["toString"; "valueOf"; "toLocaleString"].

(** What a plain object gives for a name [k] that is not a property of
    its own: the member of [Object.prototype] of that name, which for
    [__proto__] is [Object.prototype] itself, and undefined when there
    is none. *)
Definition objectPrototypeMember (k : string) : Value :=
  if onObjectPrototype k
  then VBuiltin (negb (String.eqb k "__proto__")) ("Object.prototype." +:+ k)
  else VUndefined.

(** [o[k] = v] on an object made by [{}].  The name [__proto__] is an
    accessor of [Object.prototype]: its setter takes the assignment and
    the object gets no property (when [v] is an object or null it gets
    [v] as its prototype instead; the embedding keeps the properties of
    an object, not its prototype, so what the object would inherit from
    [v] afterwards is not represented).  Under any other name an
    existing property keeps its place and a new one is added last. *)
Definition assignProp (k : string) (v : Value) (props : list (string * Value))
  : list (string * Value) :=
  if String.eqb k "__proto__" then props else setProp k v props.

(** *** The runtime *)

(** What the code takes from the runtime it runs on. *)
Class Runtime : Type := mkRuntime {
  (** [o[k]] for an [o] that is an array, a string, a number, a boolean
      or a built-in, and a [k] that is not a property of its own: the
      member that [o] has or inherits under that name, undefined when
      there is none, and [None] when it is a getter that throws (a
      TypeError, as [caller] does on a built-in function). *)
  otherMember : Value -> string -> option Value;
  (** [s.toLowerCase()] for an [s] with characters outside ASCII. *)
  unicodeLower : string -> string
}.

(** [o[k]]: the property of [o] itself, or else the member found on its
    prototype chain.  Reading a property of [null] or [undefined]
    throws. *)
Definition getProp `{Runtime} (o : Value) (k : string) : Result Value :=
  match o with
  | VUndefined | VNull => Throw TypeError
  | _ =>
      match ownProp o k with
      | Some v => Ok v
      | None =>
          match o with
          | VObj _ => Ok (objectPrototypeMember k)
          | _ =>
              match otherMember o k with
              | Some v => Ok v
              | None => Throw TypeError
              end
          end
      end
  end.

(** [Object.keys(o)] for any [o] that is not null or undefined. *)
Definition objectKeys (o : Value) : list string :=
  match o with
  | VObj props => map fst props
  | VArr items => map keyOfIndex (seq 0 (length items))
  | VStr s => map keyOfIndex (seq 0 (String.length s))
  | _ => []
  end.

(** The elements a [for (const x of v)] visits. *)
Definition iterate (v : Value) : Result (list Value) :=
  match v with
  | VArr items => Ok items
  | VStr s => Ok (charsOf s)
  | _ => Throw TypeError
  end.

(** What [JSON.stringify] has no text for: undefined and functions. *)
Definition unserializable (v : Value) : bool :=
  match v with
  | VUndefined | VBuiltin true _ => true
  | _ => false
  end.

(** [JSON.parse(JSON.stringify(v))]: properties without a text are
    dropped, array elements without one become null, and a built-in
    object, which has no enumerable property, becomes an empty object;
    [JSON.stringify] of a value without a text is [undefined], which
    [JSON.parse] rejects. *)
Fixpoint jsonValue (v : Value) : Value :=
  match v with
  | VArr items =>
      VArr (map (fun x => if unserializable x then VNull else jsonValue x) items)
  | VObj props =>
      VObj ((fix go (ps : list (string * Value)) : list (string * Value) :=
               match ps with
               | [] => []
               | (k, x) :: rest =>
                   if unserializable x then go rest
                   else (k, jsonValue x) :: go rest
               end) props)
  | VBuiltin false _ => VObj []
  | _ => v
  end.

Definition jsonClone (v : Value) : Result Value :=
  if unserializable v then Throw SyntaxError else Ok (jsonValue v).

(** *** Strings *)

Definition quote : string := String (ascii_of_nat 34) EmptyString.

Definition startsWith (s : string) (c : ascii) : bool :=
  match s with
  | String c' _ => Ascii.eqb c' c
  | EmptyString => false
  end.

Fixpoint endsWith (s : string) (c : ascii) : bool :=
  match s with
  | EmptyString => false
  | String c' EmptyString => Ascii.eqb c' c
  | String _ rest => endsWith rest c
  end.

(** [s.slice(1)] *)
Definition sliceFrom1 (s : string) : string :=
  match s with
  | String _ rest => rest
  | EmptyString => EmptyString
  end.

(** [s.slice(0, -1)] *)
Fixpoint sliceButLast (s : string) : string :=
  match s with
  | EmptyString => EmptyString
  | String _ EmptyString => EmptyString
  | String c rest => String c (sliceButLast rest)
  end.

(** [s.split('.')[0]] *)
Fixpoint firstSegment (s : string) : string :=
  match s with
  | EmptyString => EmptyString
  | String c rest =>
      if Ascii.eqb c "."%char then EmptyString else String c (firstSegment rest)
  end.

(** ** Schemas *)

(** [INodePropertyTypeOptions], of which only [multipleValues] is read. *)
Record ITypeOptions : Type := mkTypeOptions {
  multipleValues : option bool
}.

(** [IDisplayOptions]: the rules [show] and [hide], each a map from a
    property name to the values accepted for it, in the order
    [Object.keys] lists them. *)
Definition DisplayRule : Type := list (string * list Value).
Definition IDisplayOptions : Type := list (string * DisplayRule).

(** [INodeProperties].  The [options] of a property are declared as
    [Array<INodePropertyOptions | INodeProperties | INodePropertyCollection>]
    and the code casts between the three, so one record carries the
    members of all of them: [values] is the member of an
    [INodePropertyCollection], and an object without a [type] has the
    empty string for it, which is none of the type names the code tests. *)
Inductive INodeProperties : Type := mkNodeProperties {
  name : string;
  displayName : string;
  type : string;
  default : Value;
  required : bool;
  typeOptions : option ITypeOptions;
  displayOptions : option IDisplayOptions;
  options : option (list INodeProperties);
  values : option (list INodeProperties)
}.

(** [typeOptions !== undefined && typeOptions.multipleValues === true] *)
Definition multipleValuesTrue (p : INodeProperties) : bool :=
  match typeOptions p with
  | Some t => match multipleValues t with Some true => true | _ => false end
  | None => false
  end.

(** [typeOptions !== undefined && typeOptions.multipleValues !== undefined] *)
Definition multipleValuesDefined (p : INodeProperties) : bool :=
  match typeOptions p with
  | Some t => match multipleValues t with Some _ => true | None => false end
  | None => false
  end.

(** ** A runtime and a lodash to run the definitions with

    Of the members that arrays, strings, numbers, booleans and built-ins
    have or inherit, [plainRuntime] has those of [Object.prototype], and
    it leaves a string with characters outside ASCII as it is.
    [lodashGet o path] follows a path of plain property names separated
    by dots; bracket syntax and property names that themselves contain a
    dot are outside it.  The theorems below hold for any runtime and
    any [get]. *)
Definition plainRuntime : Runtime :=
  mkRuntime (fun _ k => Some (objectPrototypeMember k)) (fun s => s).

Fixpoint splitDots (s : string) : list string :=
  match s with
  | EmptyString => [EmptyString]
  | String c rest =>
      if Ascii.eqb c "."%char then EmptyString :: splitDots rest
      else match splitDots rest with
           | seg :: segs => String c seg :: segs
           | [] => [String c EmptyString]
           end
  end.

Fixpoint walk (o : Value) (segs : list string) : Value :=
  match segs with
  | [] => o
  | seg :: rest =>
      match @getProp plainRuntime o seg with
      | Ok v => walk v rest
      | _ => VUndefined
      end
  end.

Definition lodashGet (o : Value) (path : string) : Value :=
  walk o (splitDots path).

(** Structural equality, enough of lodash [isEqual] to run examples. *)
Fixpoint valueEqb (a b : Value) : bool :=
  match a, b with
  | VArr xs, VArr ys =>
      (fix go (xs ys : list Value) : bool :=
         match xs, ys with
         | [], [] => true
         | x :: xs', y :: ys' => valueEqb x y && go xs' ys'
         | _, _ => false
         end) xs ys
  | VObj ps, VObj qs =>
      (fix go (ps qs : list (string * Value)) : bool :=
         match ps, qs with
         | [], [] => true
         | (k, x) :: ps', (k', y) :: qs' => String.eqb k k' && valueEqb x y && go ps' qs'
         | _, _ => false
         end) ps qs
  | _, _ => sameValueZero a b
  end.

(** ** Webhook paths *)

(** The members of [INode] that the webhook path is made of:
    [node.name] and [node.webhookId]. *)
Record INode : Type := mkNode {
  nodeName : string;
  webhookId : option string
}.

Definition lowerAscii (c : ascii) : ascii :=
  let n := nat_of_ascii c in
  if (65 <=? n) && (n <=? 90) then ascii_of_nat (n + 32) else c.

Fixpoint isAscii (s : string) : bool :=
  match s with
  | EmptyString => true
  | String c rest => (nat_of_ascii c <? 128) && isAscii rest
  end.

Fixpoint lowerLetters (s : string) : string :=
  match s with
  | EmptyString => EmptyString
  | String c rest => String (lowerAscii c) (lowerLetters rest)
  end.

(** [s.toLowerCase()]: on a string of ASCII characters the letters A to
    Z are lowered and nothing else changes; the lower-casing of any
    other string is the runtime's (strings are held as UTF-8). *)
Definition toLowerCase `{Runtime} (s : string) : string :=
  if isAscii s then lowerLetters s else unicodeLower s.

(** The characters [encodeURIComponent] leaves alone: letters, digits
    and [- _ . ! ~ * ' ( )]. *)
Definition isUnreserved (c : ascii) : bool :=
  let n := nat_of_ascii c in
  ((65 <=? n) && (n <=? 90)) || ((97 <=? n) && (n <=? 122))
  || ((48 <=? n) && (n <=? 57))
  || existsb (Nat.eqb n) [45; 95; 46; 33; 126; 42; 39; 40; 41].

Definition hexDigit (n : nat) : ascii :=
  if n <? 10 then ascii_of_nat (48 + n) else ascii_of_nat (55 + n).

(** [encodeURIComponent(s)], on a string given as its UTF-8 bytes: every
    byte that is not an unreserved character becomes [%XX]. *)
Fixpoint encodeURIComponent (s : string) : string :=
  match s with
  | EmptyString => EmptyString
  | String c rest =>
      if isUnreserved c then String c (encodeURIComponent rest)
      else
        let n := nat_of_ascii c in
        String "%" (String (hexDigit (n / 16)) (String (hexDigit (n mod 16))
          (encodeURIComponent rest)))
  end.

(** *** What lower-casing and URL-encoding are measured against

    The characters that [encodeURIComponent] does not escape, as the
    language definition lists them; the value of an upper-case
    hexadecimal digit; the decoding of [%XX] escapes; and the letters
    that [toLowerCase] changes, each with what it becomes. *)
Definition uriUnreserved : string :=
  "ABCDEFGHIJKLMNOPQRSTUVWXYZabcdefghijklmnopqrstuvwxyz0123456789-_.!~*'()".

Fixpoint indexIn (c : ascii) (s : string) : option nat :=
  match s with
  | EmptyString => None
  | String d rest => if Ascii.eqb c d then Some 0 else option_map S (indexIn c rest)
  end.

Definition inString (c : ascii) (s : string) : bool :=
  match indexIn c s with Some _ => true | None => false end.

Definition hexValue (c : ascii) : option nat := indexIn c "0123456789ABCDEF".

Fixpoint percentDecode (s : string) : option string :=
  match s with
  | EmptyString => Some EmptyString
  | String c rest =>
      if Ascii.eqb c "%" then
        match rest with
        | String h (String l rest') =>
            match hexValue h, hexValue l, percentDecode rest' with
            | Some a, Some b, Some decoded =>
                Some (String (ascii_of_nat (16 * a + b)) decoded)
            | _, _, _ => None
            end
        | _ => None
        end
      else option_map (String c) (percentDecode rest)
  end.

Definition lowerReference (c : ascii) : ascii :=
  match indexIn c "ABCDEFGHIJKLMNOPQRSTUVWXYZ" with
  | Some i => nth i (list_ascii_of_string "abcdefghijklmnopqrstuvwxyz") c
  | None => c
  end.

Fixpoint mapString (f : ascii -> ascii) (s : string) : string :=
  match s with
  | EmptyString => EmptyString
  | String c rest => String (f c) (mapString f rest)
  end.

Definition getNodeWebhookPath `{Runtime} (workflowId : string) (node : INode) (path : string)
    (isFullPath restartWebhook : option bool) : string :=
  match restartWebhook with
  | Some true => path
  | _ =>
      match webhookId node with
      | None =>
          workflowId +:+ "/" +:+ encodeURIComponent (toLowerCase (nodeName node))
            +:+ "/" +:+ path
      | Some id =>
          match isFullPath with
          | Some true => path
          | _ => id +:+ "/" +:+ path
          end
      end
  end.

(** Lines 779-784 of [getNodeWebhooks]: one leading and one trailing
    slash are dropped. *)
Definition trimSlashes (nodeWebhookPath : string) : string :=
  let nodeWebhookPath :=
    if startsWith nodeWebhookPath "/" then sliceFrom1 nodeWebhookPath
    else nodeWebhookPath in
  if endsWith nodeWebhookPath "/" then sliceButLast nodeWebhookPath
  else nodeWebhookPath.

(** The [path] that [getNodeWebhooks] records for a webhook description
    whose path expression resolved to [nodeWebhookPath] (lines 777-788). *)
Definition webhookPath `{Runtime} (workflowId : string) (node : INode) (nodeWebhookPath : string)
    (isFullPath restartWebhook : option bool) : string :=
  getNodeWebhookPath workflowId node (trimSlashes nodeWebhookPath)
    isFullPath restartWebhook.

(** How deep the nested schemas of a property go; the recursion of
    [getNodeParameters] follows them. *)
Fixpoint propertyDepth (p : INodeProperties) : nat :=
  match p with
  | mkNodeProperties _ _ _ _ _ _ _ opts vals =>
      S (Nat.max
           (match opts with
            | Some nested => list_max (map propertyDepth nested)
            | None => 0
            end)
           (match vals with
            | Some nested => list_max (map propertyDepth nested)
            | None => 0
            end))
  end.

Definition schemaDepth (nodePropertiesArray : list INodeProperties) : nat :=
  list_max (map propertyDepth nodePropertiesArray).

(** The properties that [getParameterIssues] checks for one property:
    the property itself, the options of a collection, the fields of the
    options of a fixedCollection, and what it checks for those. *)
Fixpoint checkedProperties (p : INodeProperties) : list INodeProperties :=
  match p with
  | mkNodeProperties _ _ t _ _ _ _ opts _ =>
      p :: match opts with
           | None => []
           | Some opts =>
               if String.eqb t "collection" then flat_map checkedProperties opts
               else if String.eqb t "fixedCollection" then
                 flat_map
                   (fun g =>
                      match g with
                      | mkNodeProperties _ _ _ _ _ _ _ _ vals =>
                          match vals with
                          | Some fields => flat_map checkedProperties fields
                          | None => []
                          end
                      end)
                   opts
               else []
           end
  end.

(** ** mergeNodeProperties *)

(** [items.findIndex(f)]; [None] is the -1 of JavaScript. *)
Fixpoint findIndex {A} (f : A -> bool) (items : list A) : option nat :=
  match items with
  | [] => None
  | x :: rest => if f x then Some 0 else option_map S (findIndex f rest)
  end.

(** The body of the loop of [mergeNodeProperties]: [property] takes the
    place of the first property with its name, or is added last. *)
Definition mergeProperty (mainProperties : list INodeProperties)
    (property : INodeProperties) : list INodeProperties :=
  match findIndex (fun element => String.eqb (name element) (name property))
                  mainProperties with
  | None => mainProperties ++ [property]
  | Some existingIndex => <[existingIndex := property]> mainProperties
  end.

(** [mergeNodeProperties(mainProperties, addProperties)], returning what
    the array [mainProperties] holds afterwards.  The two arguments are
    two arrays, not one array passed twice. *)
Definition mergeNodeProperties (mainProperties addProperties : list INodeProperties)
  : list INodeProperties :=
  fold_left mergeProperty addProperties mainProperties.

(** The last property of [addProperties] that has the name
    [parameterName]. *)
Definition lastNamed (addProperties : list INodeProperties) (parameterName : string)
  : option INodeProperties :=
  List.find (fun o => String.eqb (name o) parameterName) (rev addProperties).

(** ** getContext *)

(** [IRunExecutionData], of which [executionData.contextData] is read:
    an object that holds one [IContextObject] per key. *)
Record IExecutionData : Type := mkExecutionData {
  contextData : list (string * Value)
}.

Record IRunExecutionData : Type := mkRunExecutionData {
  executionData : option IExecutionData
}.

(** The key under which a context is kept (lines 385-395). *)
Definition contextKey (type : string) (node : option INode) : Result string :=
  if String.eqb type "flow" then Ok "flow"
  else if String.eqb type "node" then
    match node with
    | None =>
        Throw (JsError ("The request data of context type " +:+ quote +:+ "node"
                          +:+ quote +:+ " the node parameter has to be set!"))
    | Some node => Ok ("node:" +:+ nodeName node)
    end
  else
    Throw (JsError ("The context type " +:+ quote +:+ type +:+ quote
                      +:+ " is not know. Only " +:+ quote +:+ "flow" +:+ quote
                      +:+ " and node" +:+ quote +:+ " are supported!")).

(** [getContext(runExecutionData, type, node)]: the context object it
    returns, which is the one kept in [contextData], and
    [runExecutionData] as the call leaves it. *)
Definition getContext (runExecutionData : IRunExecutionData) (type : string)
    (node : option INode) : Result (Value * IRunExecutionData) :=
  match executionData runExecutionData with
  | None =>
      Throw (JsError ("The " +:+ quote +:+ "executionData" +:+ quote
                        +:+ " is not initialized!"))
  | Some data =>
      let* key := contextKey type node in
      let stored :=
        match lookupProp key (contextData data) with
        | Some VUndefined | None => setProp key (VObj []) (contextData data)
        | Some _ => contextData data
        end in
      Ok (match lookupProp key stored with Some context => context | None => VUndefined end,
          mkRunExecutionData (Some (mkExecutionData stored)))
  end.

(** ** prepareOutputData *)

(** The array the promise of [prepareOutputData] resolves to.  The loop
    [for (let i = 0; i < outputIndex; i++)] has [Z.to_nat outputIndex]
    turns; [None] is an argument left out. *)
Definition prepareOutputData {A} (outputData : list A) (outputIndex : option Z)
  : list (list A) :=
  let outputIndex := match outputIndex with Some i => i | None => 0%Z end in
  let returnData :=
    fold_left (fun returnData _ => returnData ++ [[]])
              (seq 0 (Z.to_nat outputIndex)) [] in
  returnData ++ [outputData].

(** ** getNodeWebhookUrl *)

(** [s.includes(sub)] *)
Fixpoint includesString (s sub : string) : bool :=
  String.prefix sub s
  || match s with
     | EmptyString => false
     | String _ rest => includesString rest sub
     end.

(** [(path.startsWith(':') || path.includes('/:')) && node.webhookId],
    as a condition (lines 803 and 919). *)
Definition isDynamicWebhook (node : INode) (path : string) : bool :=
  (startsWith path ":" || includesString path "/:")
  && match webhookId node with
     | Some id => negb (String.eqb id EmptyString)
     | None => false
     end.

Definition getNodeWebhookUrl `{Runtime} (baseUrl workflowId : string) (node : INode)
    (path : string) (isFullPath : option bool) : string :=
  let isFullPath := if isDynamicWebhook node path then Some false else isFullPath in
  let path := if startsWith path "/" then sliceFrom1 path else path in
  baseUrl +:+ "/" +:+ getNodeWebhookPath workflowId node path isFullPath None.

(** ** getNodeWebhooks and getNodeWebhooksBasic *)

(** [INode] with the further members that are read: [type], [disabled]
    and [parameters]. *)
Record INodeData : Type := mkNodeData {
  inode : INode;
  nodeType : string;
  disabled : option bool;
  parametersOf : Value
}.

Module IWebhookDescription.

(** [IWebhookDescription]: the members that are read, each an
    expression or a plain value, [VUndefined] when it is not given. *)
Record t : Type := mk {
  httpMethod : Value;
  isFullPath : Value;
  path : Value;
  restartWebhook : Value
}.

End IWebhookDescription.

(** [INodeType]: [description.webhooks]. *)
Record INodeType : Type := mkNodeType {
  webhooks : option (list IWebhookDescription.t)
}.

Module Workflow.

(** What is used of a [Workflow]: its [id], [nodeTypes.getByName] and
    [expression.getSimpleParameterValue(node, parameterValue, mode,
    additionalKeys, defaultValue)], which may throw. *)
Record t : Type := mk {
  id : option string;
  getByName : string -> option INodeType;
  getSimpleParameterValue :
    INodeData -> Value -> string -> Value -> option Value -> Result Value
}.

End Workflow.

Module IWebhookData.

(** [IWebhookData]; a member that [getNodeWebhooksBasic] does not set
    is [None]. *)
Record t : Type := mk {
  httpMethod : string;
  node : string;
  path : string;
  webhookDescription : IWebhookDescription.t;
  workflowId : string;
  workflowExecuteAdditionalData : option Value;
  webhookId : option string
}.

End IWebhookData.

(** [workflow.id || '__UNSAVED__'] *)
Definition workflowIdOf (workflow : Workflow.t) : string :=
  match Workflow.id workflow with
  | Some id => if String.eqb id EmptyString then "__UNSAVED__" else id
  | None => "__UNSAVED__"
  end.

(** A value passed where [getNodeWebhookPath] expects a boolean: only
    [=== true] is ever tested of it. *)
Definition flagOf (v : Value) : option bool :=
  match v with
  | VBool b => Some b
  | _ => None
  end.

Definition noPathMessage (node : INodeData) (workflowId : string) : string :=
  "No webhook path could be found for node " +:+ quote +:+ nodeName (inode node)
    +:+ quote +:+ " in workflow " +:+ quote +:+ workflowId +:+ quote +:+ ".".

Definition noMethodMessage (node : INodeData) (workflowId path : string) : string :=
  "The webhook " +:+ quote +:+ path +:+ quote +:+ " for node " +:+ quote
    +:+ nodeName (inode node) +:+ quote +:+ " in workflow " +:+ quote +:+ workflowId
    +:+ quote +:+ " could not be added because the httpMethod is not defined.".

Section Webhooks.

Context `{runtime : Runtime}.

(** [v.toString()] for a value that is not undefined; it throws on null. *)
Variable toString : Value -> Result string.

(** What a call leaves behind: the array [returnData] and the lines
    written with [console.error]. *)
Definition WebhookState : Type := (list IWebhookData.t * list string)%type.

(** The body of the loop of [getNodeWebhooks] (lines 770-815). *)
Definition addNodeWebhook (workflow : Workflow.t) (node : INodeData)
    (additionalData : Value) (ignoreRestartWehbooks : bool) (workflowId : string)
    (st : WebhookState) (webhookDescription : IWebhookDescription.t)
  : Result WebhookState :=
  let mode := "internal" in
  let* nodeWebhookPath :=
    Workflow.getSimpleParameterValue workflow node
      (IWebhookDescription.path webhookDescription) mode (VObj []) None in
  if isUndefined nodeWebhookPath
  then Ok (fst st, snd st ++ [noPathMessage node workflowId])
  else
    let* nodeWebhookPath := toString nodeWebhookPath in
    let nodeWebhookPath := trimSlashes nodeWebhookPath in
    let* isFullPath :=
      Workflow.getSimpleParameterValue workflow node
        (IWebhookDescription.isFullPath webhookDescription) "internal" (VObj [])
        (Some (VBool false)) in
    let* restartWebhook :=
      Workflow.getSimpleParameterValue workflow node
        (IWebhookDescription.restartWebhook webhookDescription) "internal" (VObj [])
        (Some (VBool false)) in
    let path :=
      getNodeWebhookPath workflowId (inode node) nodeWebhookPath
        (flagOf isFullPath) (flagOf restartWebhook) in
    if ignoreRestartWehbooks
       && strictEq (IWebhookDescription.restartWebhook webhookDescription) (VBool true)
    then Ok st
    else
      let* httpMethod :=
        Workflow.getSimpleParameterValue workflow node
          (IWebhookDescription.httpMethod webhookDescription) mode (VObj [])
          (Some (VStr "GET")) in
      if isUndefined httpMethod
      then Ok (fst st, snd st ++ [noMethodMessage node workflowId path])
      else
        let* method := toString httpMethod in
        let webhookId :=
          if isDynamicWebhook (inode node) path
          then webhookId (inode node) else None in
        Ok (fst st ++
              [IWebhookData.mk method (nodeName (inode node)) path
                 webhookDescription workflowId (Some additionalData) webhookId],
            snd st).

Definition getNodeWebhooks (workflow : Workflow.t) (node : INodeData)
    (additionalData : Value) (ignoreRestartWehbooks : bool) : Result WebhookState :=
  match disabled node with
  | Some true => Ok ([], [])
  | _ =>
      match Workflow.getByName workflow (nodeType node) with
      | None => Throw TypeError
      | Some nodeType =>
          match webhooks nodeType with
          | None => Ok ([], [])
          | Some descriptions =>
              forEach
                (addNodeWebhook workflow node additionalData ignoreRestartWehbooks
                   (workflowIdOf workflow))
                descriptions ([], [])
          end
      end
  end.

(** The body of the loop of [getNodeWebhooksBasic] (lines 840-875): no
    restart webhooks, no default for the method, and neither
    [workflowExecuteAdditionalData] nor [webhookId] in what is added. *)
Definition addNodeWebhookBasic (workflow : Workflow.t) (node : INodeData)
    (workflowId : string) (st : WebhookState)
    (webhookDescription : IWebhookDescription.t) : Result WebhookState :=
  let mode := "internal" in
  let* nodeWebhookPath :=
    Workflow.getSimpleParameterValue workflow node
      (IWebhookDescription.path webhookDescription) mode (VObj []) None in
  if isUndefined nodeWebhookPath
  then Ok (fst st, snd st ++ [noPathMessage node workflowId])
  else
    let* nodeWebhookPath := toString nodeWebhookPath in
    let nodeWebhookPath := trimSlashes nodeWebhookPath in
    let* isFullPath :=
      Workflow.getSimpleParameterValue workflow node
        (IWebhookDescription.isFullPath webhookDescription) mode (VObj [])
        (Some (VBool false)) in
    let path :=
      getNodeWebhookPath workflowId (inode node) nodeWebhookPath
        (flagOf isFullPath) None in
    let* httpMethod :=
      Workflow.getSimpleParameterValue workflow node
        (IWebhookDescription.httpMethod webhookDescription) mode (VObj []) None in
    if isUndefined httpMethod
    then Ok (fst st, snd st ++ [noMethodMessage node workflowId path])
    else
      let* method := toString httpMethod in
      Ok (fst st ++
            [IWebhookData.mk method (nodeName (inode node)) path
               webhookDescription workflowId None None],
          snd st).

Definition getNodeWebhooksBasic (workflow : Workflow.t) (node : INodeData)
  : Result WebhookState :=
  match disabled node with
  | Some true => Ok ([], [])
  | _ =>
      match Workflow.getByName workflow (nodeType node) with
      | None => Throw TypeError
      | Some nodeType =>
          match webhooks nodeType with
          | None => Ok ([], [])
          | Some descriptions =>
              forEach (addNodeWebhookBasic workflow node (workflowIdOf workflow))
                      descriptions ([], [])
          end
      end
  end.

End Webhooks.

(** ** Auxiliary functions of the proofs *)

(** [mainProperties] with the first property of every name replaced by
    the last property of [addProperties] with that name, if there is
    one: what [mergeNodeProperties] makes of an array that already has
    all the names of [addProperties]. *)
Fixpoint overridden (addProperties mainProperties : list INodeProperties)
  : list INodeProperties :=
  match mainProperties with
  | [] => []
  | element :: rest =>
      match lastNamed addProperties (name element) with
      | Some property => property
      | None => element
      end
      :: overridden
           (List.filter (fun o => negb (String.eqb (name o) (name element))) addProperties)
           rest
  end.

(** ** Inputs of the examples *)

Definition twoKeyField : INodeProperties :=
  mkNodeProperties "C" "C" "string" (VStr EmptyString) false None
    (Some [("show", [("A", [VStr "x"]); ("B", [VStr "y"])])]) None None.

Definition twoKeyValues : Value :=
  VObj [("A", VStr "z"); ("B", VStr "=expr()")].

Definition exprField : INodeProperties :=
  mkNodeProperties "B" "B" "string" (VStr EmptyString) false None
    (Some [("show", [("A", [VStr "x"])])]) None None.

Definition requiredString : INodeProperties :=
  mkNodeProperties "url" "URL" "string" (VStr EmptyString) true None None None None.


Definition requiredConstructor : INodeProperties :=
  mkNodeProperties "constructor" "Constructor" "string" (VStr EmptyString) true
    None None None None.

Definition plainField (fieldName : string) (display : option IDisplayOptions)
  : INodeProperties :=
  mkNodeProperties fieldName fieldName "string" (VStr EmptyString) false None
    display None None.

(** [A] is shown when [B] is "x"; [B] has no condition. *)
Definition dependentPair : list INodeProperties :=
  [plainField "A" (Some [("show", [("B", [VStr "x"])])]); plainField "B" None].

(** [A] is shown when [B] is "x", and [B] when [A] is "y". *)
Definition cyclicPair : list INodeProperties :=
  [plainField "A" (Some [("show", [("B", [VStr "x"])])]);
   plainField "B" (Some [("show", [("A", [VStr "y"])])])].

(** An alternative [known] with no fields of its own. *)
Definition knownGroup : INodeProperties :=
  mkNodeProperties "known" "Known" EmptyString VUndefined false None None None (Some []).

Definition fixedCollectionField (multiple : option ITypeOptions) : INodeProperties :=
  mkNodeProperties "fc" "FC" "fixedCollection" (VObj []) false multiple None
    (Some [knownGroup]) None.

Definition multipleOn : option ITypeOptions := Some (mkTypeOptions (Some true)).

Definition unknownSingle : Value :=
  VObj [("fc", VObj [("unknown", VObj [("a", VNum 1)])])].

Definition unknownEmpty : Value := VObj [("fc", VObj [("unknown", VArr [])])].

Definition unknownFilled : Value :=
  VObj [("fc", VObj [("unknown", VArr [VObj [("a", VNum 1)]])])].

(** A boolean that defaults to true, a number that defaults to 5 and a
    string that defaults to "localhost". *)
Definition scalarFields : list INodeProperties :=
  [mkNodeProperties "active" "Active" "boolean" (VBool true) false None None None None;
   mkNodeProperties "limit" "Limit" "number" (VNum 5) false None None None None;
   mkNodeProperties "host" "Host" "string" (VStr "localhost") false None None None None].


Definition protoFlag : INodeProperties :=
  mkNodeProperties "__proto__" "Proto" "boolean" (VBool true) false
    None None None None.

(** A collection whose default is not the empty object. *)
Definition filledDefault : list INodeProperties :=
  [mkNodeProperties "c" "C" "collection" (VObj [("x", VNum 1)]) false None None
     (Some []) None].

(** Two properties [a] with different defaults, both always shown, and
    two properties [b] shown for different values of [a]. *)
Definition sharedNames : list INodeProperties :=
  [plainField "a" None;
   mkNodeProperties "b" "b" "string" (VStr "b1") false None
     (Some [("show", [("a", [VStr EmptyString])])]) None None;
   mkNodeProperties "a" "a" "string" (VStr "y") false None None None None;
   mkNodeProperties "b" "b" "string" (VStr "b3") false None
     (Some [("show", [("a", [VStr "never"])])]) None None].

(** A collection with a string property that has no default. *)
Definition undefinedDefault : list INodeProperties :=
  [mkNodeProperties "c" "C" "collection" (VObj []) false None None
     (Some [mkNodeProperties "x" "X" "string" VUndefined false None None None None])
     None].

(** A collection without options. *)
Definition noOptions : list INodeProperties :=
  [mkNodeProperties "c" "C" "collection" (VObj []) false None None None None].

(** A collection whose only option depends on a name that no property
    has, so that [getParamterResolveOrder] throws on its options. *)
Definition unorderedOptions : list INodeProperties :=
  [mkNodeProperties "c" "C" "collection" (VObj []) false None None
     (Some [plainField "x" (Some [("show", [("ghost", [VStr "1"])])])]) None].




Definition myNode : INode := mkNode "My Node" None.

Definition myNodeWithId : INode := mkNode "My Node" (Some "abc").

(** The name CAFE with an acute accent on the E, in UTF-8, and the same
    in lower case. *)
Definition cafeUpper : string :=
  "CAF" +:+ String (ascii_of_nat 195) (String (ascii_of_nat 137) EmptyString).

Definition cafeLower : string :=
  "caf" +:+ String (ascii_of_nat 195) (String (ascii_of_nat 169) EmptyString).

(** [toString] on strings, the only values the examples convert. *)
Definition stringToString (v : Value) : Result string :=
  match v with
  | VStr s => Ok s
  | _ => Throw TypeError
  end.

(** A workflow "42" whose expressions are plain values: a parameter
    value that is given is returned as it is, and the default takes
    the place of one that is not.  Its node type "webhook" declares a
    webhook [POST /hook/], a restart webhook [:id] and a webhook
    without a path. *)
Definition hookDescription : IWebhookDescription.t :=
  IWebhookDescription.mk (VStr "POST") VUndefined (VStr "/hook/") VUndefined.

Definition restartDescription : IWebhookDescription.t :=
  IWebhookDescription.mk VUndefined VUndefined (VStr ":id") (VBool true).

Definition pathlessDescription : IWebhookDescription.t :=
  IWebhookDescription.mk (VStr "GET") VUndefined VUndefined VUndefined.

Definition plainWorkflow : Workflow.t :=
  Workflow.mk (Some "42")
    (fun typeName =>
       if String.eqb typeName "webhook"
       then Some (mkNodeType (Some [hookDescription; restartDescription;
                                     pathlessDescription]))
       else None)
    (fun _ parameterValue _ _ defaultValue =>
       Ok (match parameterValue, defaultValue with
           | VUndefined, Some value => value
           | _, _ => parameterValue
           end)).

Definition webhookNode : INodeData :=
  mkNodeData myNodeWithId "webhook" None (VObj []).

Definition hookEntry : IWebhookData.t :=
  IWebhookData.mk "POST" "My Node" "abc/hook" hookDescription "42"
    (Some (VObj [])) None.

(** [B] has no condition; [A], listed after it, is shown when [B] is "x". *)
Definition sortedPair : list INodeProperties :=
  [plainField "B" None; plainField "A" (Some [("show", [("B", [VStr "x"])])])].

(** A property shown for a value of [ghost], a name no property has. *)
Definition ghostField : INodeProperties :=
  plainField "x" (Some [("show", [("ghost", [VStr "1"])])]).

(** A required number, and a required string that takes several values. *)
Definition requiredNumber : INodeProperties :=
  mkNodeProperties "limit" "Limit" "number" (VNum 5) true None None None None.

Definition requiredStrings : INodeProperties :=
  mkNodeProperties "tags" "Tags" "string" (VStr EmptyString) true
    (Some (mkTypeOptions (Some true))) None None None.

(** A node of type "http" with an empty url and three tags, two of
    them empty. *)
Definition httpNode : INodeData :=
  mkNodeData myNode "http" None
    (VObj [("url", VStr EmptyString);
           ("tags", VArr [VStr EmptyString; VStr "a"; VStr EmptyString])]).

(** The names of an object of messages, in the order of the map. *)
Definition keysInOrder (messages : gmap string (list string)) : list string :=
  map fst (map_to_list messages).

(** A collection with one option, a required string. *)
Definition timeoutOption : INodeProperties :=
  mkNodeProperties "timeout" "Timeout" "string" (VStr EmptyString) true None None None None.

Definition timeoutCollection : INodeProperties :=
  mkNodeProperties "options" "Options" "collection" (VObj []) false None None
    (Some [timeoutOption]) None.

Section NodeHelpers.

Context `{runtime : Runtime}.

(** lodash [get(object, path)] and [isEqual(a, b)]. *)
Variable get : Value -> string -> Value.
Variable isEqual : Value -> Value -> bool.

(** ** displayParameter *)

(** The value a display rule names, looked up from the root when the
    name starts with a slash, and spread into the list [values]. *)
Definition resolveValues (nodeValues nodeValuesRoot : Value) (propertyName : string)
  : list Value :=
  let value :=
    if startsWith propertyName "/"
    then get nodeValuesRoot (sliceFrom1 propertyName)
    else get nodeValues propertyName in
  match value with
  | VArr items => items
  | _ => [value]
  end.

(** The loop over [displayOptions.show]: [Some b] when it returns [b],
    [None] when it runs to its end. *)
Fixpoint showLoop (nodeValues nodeValuesRoot : Value) (show : DisplayRule) : option bool :=
  match show with
  | [] => None
  | (propertyName, accepted) :: rest =>
      let values := resolveValues nodeValues nodeValuesRoot propertyName in
      if existsb isExpression values then Some true
      else if (length values =? 0) || negb (existsb (includes values) accepted)
           then Some false
           else showLoop nodeValues nodeValuesRoot rest
  end.

(** The loop over [displayOptions.hide]. *)
Fixpoint hideLoop (nodeValues nodeValuesRoot : Value) (hide : DisplayRule) : option bool :=
  match hide with
  | [] => None
  | (propertyName, rejected) :: rest =>
      let values := resolveValues nodeValues nodeValuesRoot propertyName in
      if negb (length values =? 0) && existsb (includes values) rejected
      then Some false
      else hideLoop nodeValues nodeValuesRoot rest
  end.

Definition displayParameter (nodeValues : Value) (parameter : INodeProperties)
    (nodeValuesRoot : Value) : bool :=
  match displayOptions parameter with
  | None => true
  | Some display =>
      let nodeValuesRoot := jsOr nodeValuesRoot nodeValues in
      let shown :=
        match lookupProp "show" display with
        | Some show => showLoop nodeValues nodeValuesRoot show
        | None => None
        end in
      match shown with
      | Some b => b
      | None =>
          let hidden :=
            match lookupProp "hide" display with
            | Some hide => hideLoop nodeValues nodeValuesRoot hide
            | None => None
            end in
          match hidden with
          | Some b => b
          | None => true
          end
      end
  end.

Definition displayParameterPath (nodeValues : Value) (parameter : INodeProperties)
    (path : string) : bool :=
  let resolvedNodeValues :=
    if String.eqb path EmptyString then nodeValues else get nodeValues path in
  let nodeValuesRoot :=
    if negb (String.eqb path EmptyString) && String.eqb (firstSegment path) "parameters"
    then get nodeValues "parameters"
    else nodeValues in
  displayParameter resolvedNodeValues parameter nodeValuesRoot.

(** ** getParamterDependencies *)

Definition IParameterDependencies : Type := list (string * list string).

Definition pushIfNew (names : list string) (parameterName : string) : list string :=
  if existsb (String.eqb parameterName) names then names else names ++ [parameterName].

(** The table [dependencies] is an object made by [{}].  Under the name
    of a member of [Object.prototype] it never gets an entry, because
    [dependencies[name] === undefined] does not hold of it; and the
    first parameter name that is to be recorded under such a name ends
    the call, because the member has no [includes]. *)
Definition getParamterDependencies (nodePropertiesArray : list INodeProperties)
  : Result IParameterDependencies :=
  forEach
    (fun dependencies nodeProperties =>
       let dependencies :=
         match lookupProp (name nodeProperties) dependencies with
         | Some _ => dependencies
         | None =>
             if onObjectPrototype (name nodeProperties) then dependencies
             else setProp (name nodeProperties) [] dependencies
         end in
       match displayOptions nodeProperties with
       | None => Ok dependencies
       | Some display =>
           let parameterNames := flat_map (fun rule => map fst (snd rule)) display in
           match lookupProp (name nodeProperties) dependencies with
           | Some current =>
               Ok (setProp (name nodeProperties)
                     (fold_left pushIfNew parameterNames current) dependencies)
           | None =>
               match parameterNames with
               | [] => Ok dependencies
               | _ :: _ => Throw TypeError
               end
           end
       end)
    nodePropertiesArray [].

(** ** getParamterResolveOrder *)

Record ResolveState : Type := mkResolveState {
  executionOrder : list nat;
  indexToResolve : list nat;
  resolvedParamters : list string;
  lastIndexLength : nat;
  lastIndexReduction : Z;
  itterations : Z
}.

(** The inner [for (const dependency of ...)]: each dependency that is
    neither resolved nor root-relative pushes [index] back on the queue;
    both [continue]s resume this inner loop. *)
Definition requeue (resolved : list string) (index : nat) (queue : list nat)
    (dependency : string) : list nat :=
  if existsb (String.eqb dependency) resolved then queue
  else if startsWith dependency "/" then queue
  else queue ++ [index].

(** [parameterDependencies[k]] as the loop uses it.  Of a name without
    entry the loop reads the [length]: of undefined, which throws, or of
    a member of [Object.prototype].  A function without parameters has
    the length 0 and passes for an empty entry; any other member is
    iterated next, which it cannot be. *)
Definition tableEntry (parameterDependencies : IParameterDependencies) (k : string)
  : Result (list string) :=
  match lookupProp k parameterDependencies with
  | Some names => Ok names
  | None => if parameterless k then Ok [] else Throw TypeError
  end.

(** One turn of the [while] loop, on a queue with head [index]. *)
Definition resolveStep (nodePropertiesArray : list INodeProperties)
    (parameterDependencies : IParameterDependencies)
    (st : ResolveState) (index : nat) (queue : list nat) : Result ResolveState :=
  let itterations := (itterations st + 1)%Z in
  match nth_error nodePropertiesArray index with
  | None => Throw TypeError
  | Some property =>
      match tableEntry parameterDependencies (name property) with
      | Throw e => Throw e
      | OutOfFuel => OutOfFuel
      | Ok [] =>
          Ok (mkResolveState
                (executionOrder st ++ [index]) queue
                (resolvedParamters st ++ [name property])
                (lastIndexLength st) (lastIndexReduction st) itterations)
      | Ok dependencies =>
          let queue :=
            fold_left (requeue (resolvedParamters st) index) dependencies queue in
          let lastIndexReduction :=
            if length queue <? lastIndexLength st
            then itterations else lastIndexReduction st in
          if (lastIndexReduction + Z.of_nat (length nodePropertiesArray) <? itterations)%Z
          then Throw (JsError "Could not resolve parameter depenencies. Max itterations got reached!")
          else Ok (mkResolveState
                     (executionOrder st ++ [index]) queue
                     (resolvedParamters st ++ [name property])
                     (length queue) lastIndexReduction itterations)
      end
  end.

Fixpoint resolveLoop (fuel : nat) (nodePropertiesArray : list INodeProperties)
    (parameterDependencies : IParameterDependencies) (st : ResolveState)
  : Result (list nat) :=
  match indexToResolve st with
  | [] => Ok (executionOrder st)
  | index :: queue =>
      match fuel with
      | 0 => OutOfFuel
      | S fuel =>
          let* st := resolveStep nodePropertiesArray parameterDependencies st index queue in
          resolveLoop fuel nodePropertiesArray parameterDependencies st
      end
  end.

Definition dependenciesOf (parameterDependencies : IParameterDependencies)
    (property : INodeProperties) : list string :=
  match tableEntry parameterDependencies (name property) with
  | Ok names => names
  | _ => []
  end.

(** A number of turns the loop never exceeds (see [getParamterResolveOrder_total]). *)
Definition resolveBudget (nodePropertiesArray : list INodeProperties)
    (parameterDependencies : IParameterDependencies) : nat :=
  let n := length nodePropertiesArray in
  let pushes :=
    list_sum (map (fun p => length (dependenciesOf parameterDependencies p))
                  nodePropertiesArray) in
  n + (2 * pushes + 2) * (n + 2).

Definition resolveStart (nodePropertiesArray : list INodeProperties) : ResolveState :=
  mkResolveState [] (seq 0 (length nodePropertiesArray)) []
    (length nodePropertiesArray) (-1)%Z 0%Z.

Definition getParamterResolveOrder (nodePropertiesArray : list INodeProperties)
    (parameterDependencies : IParameterDependencies) : Result (list nat) :=
  resolveLoop (resolveBudget nodePropertiesArray parameterDependencies)
    nodePropertiesArray parameterDependencies (resolveStart nodePropertiesArray).

(** *** Quantities of the termination argument *)

(** How often the inner loop pushes an index back whose property has
    the dependencies [dependencies]. *)
Definition unresolvedCount (resolved : list string) (dependencies : list string) : nat :=
  length (List.filter (fun d => negb (existsb (String.eqb d) resolved)
                           && negb (startsWith d "/")) dependencies).

Definition pushesOf (nodePropertiesArray : list INodeProperties)
    (parameterDependencies : IParameterDependencies)
    (resolved : list string) (index : nat) : nat :=
  match nth_error nodePropertiesArray index with
  | Some property =>
      unresolvedCount resolved (dependenciesOf parameterDependencies property)
  | None => 0
  end.

(** The queue entries that leave the queue for good when their turn comes. *)
Definition leaving (nodePropertiesArray : list INodeProperties)
    (parameterDependencies : IParameterDependencies)
    (resolved : list string) (queue : list nat) : nat :=
  length (List.filter (fun e => pushesOf nodePropertiesArray parameterDependencies resolved e =? 0)
                 queue).

(** Once every name is resolved, each turn of the loop lowers this. *)
Definition resolveMeasure (nodePropertiesArray : list INodeProperties)
    (parameterDependencies : IParameterDependencies) (st : ResolveState) : nat :=
  let n := length nodePropertiesArray in
  (2 * leaving nodePropertiesArray parameterDependencies
         (resolvedParamters st) (indexToResolve st)
   + (if length (indexToResolve st) <? lastIndexLength st then 1 else 0)) * (n + 2)
  + Z.to_nat (lastIndexReduction st + Z.of_nat n - itterations st + 1).

Definition allResolved (nodePropertiesArray : list INodeProperties)
    (resolved : list string) : Prop :=
  forall p, In p nodePropertiesArray -> existsb (String.eqb (name p)) resolved = true.

(** ** getNodeParameters *)

(** The two objects the loop fills: [nodeParameters], which is returned,
    and [nodeParametersFull]. *)
Record ParameterState : Type := mkParameterState {
  nodeParameters : list (string * Value);
  nodeParametersFull : list (string * Value)
}.

(** [nodeParameters[k] = v; nodeParametersFull[k] = nodeParameters[k]].
    What the second assignment reads is [v], except under [__proto__],
    where neither assignment adds a property. *)
Definition setBoth (k : string) (v : Value) (st : ParameterState) : ParameterState :=
  mkParameterState (assignProp k v (nodeParameters st))
                   (assignProp k v (nodeParametersFull st)).

(** The names used by more than one property, collected as the first
    loop of [getNodeParameters] does. *)
Definition duplicateNames (nodePropertiesArray : list INodeProperties) : list string :=
  fst (fold_left
         (fun '(duplicateParameterNames, parameterNames) nodeProperties =>
            if existsb (String.eqb (name nodeProperties)) parameterNames
            then (pushIfNew duplicateParameterNames (name nodeProperties), parameterNames)
            else (duplicateParameterNames, parameterNames ++ [name nodeProperties]))
         nodePropertiesArray ([], [])).

Definition isComplexType (t : string) : bool :=
  String.eqb t "collection" || String.eqb t "fixedCollection".

Definition isFalsyValidType (t : string) : bool :=
  String.eqb t "boolean" || String.eqb t "number" || String.eqb t "options".

Definition isCollectionParent (parentType : option string) : bool :=
  match parentType with
  | Some t => String.eqb t "collection"
  | None => false
  end.

(** [Object.assign(target, source)]: every property that [source]
    itself has is assigned to [target]. *)
Definition objectAssign (target : list (string * Value)) (source : Value)
  : list (string * Value) :=
  fold_left
    (fun t k => match ownProp source k with
                | Some v => assignProp k v t
                | None => t
                end)
    (objectKeys source) target.

(** [options.find(o => o.name === itemName)] *)
Definition findOption (options : list INodeProperties) (itemName : string)
  : option INodeProperties :=
  List.find (fun o => String.eqb (name o) itemName) options.

Section Body.

(** The context of one call: its arguments, what it computed before the
    main loop, and [recurse], the calls it makes on nested schemas (with
    the same [returnDefaults] and [returnNoneDisplayed], and with
    [onlySimpleTypes] and [dataIsResolved] false). *)
Variable recurse :
  option (list INodeProperties) -> Value -> Value -> option string -> Result Value.
Variable nodePropertiesArray : list INodeProperties.
Variable nodeValues : Value.
Variables returnDefaults returnNoneDisplayed onlySimpleTypes : bool.
Variable nodeValuesRoot : Value.
Variable parentType : option string.
Variable duplicateParameterNames : list string.
(** [Some b] when [nodeValuesDisplayCheck] is the tree [b] computed
    beforehand, [None] when it is [nodeParametersFull] itself. *)
Variable precomputed : option Value.

Definition nodeValuesDisplayCheck (st : ParameterState) : Value :=
  match precomputed with
  | Some b => b
  | None => VObj (nodeParametersFull st)
  end.

(** [nodeValuesRoot || nodeValuesDisplayCheck], read when it is used:
    the second operand may be the object the loop is filling.  Within
    one turn of the loop that object does not change before the turn
    writes its own result. *)
Definition currentRoot (st : ParameterState) : Value :=
  jsOr nodeValuesRoot (nodeValuesDisplayCheck st).

(** The collection branch (lines 605-639); [root] is what the variable
    [nodeValuesRoot] refers to during this turn. *)
Definition resolveCollection (root : Value) (nodeProperties : INodeProperties)
    (value : Value) (st : ParameterState) : Result ParameterState :=
  if multipleValuesTrue nodeProperties then
    if negb (isUndefined value)
    then Ok (setBoth (name nodeProperties) value st)
    else if returnDefaults
    then match default nodeProperties with
         | VArr _ =>
             let* copy := jsonClone (default nodeProperties) in
             Ok (setBoth (name nodeProperties) copy st)
         | _ => Ok (setBoth (name nodeProperties) (VArr []) st)
         end
    else
      (* nothing is assigned to [nodeParameters]; what it gives under the
         name is assigned to [nodeParametersFull] *)
      let* written := getProp (VObj (nodeParameters st)) (name nodeProperties) in
      Ok (mkParameterState (nodeParameters st)
            (assignProp (name nodeProperties) written (nodeParametersFull st)))
  else
    if negb (isUndefined value) then
      let* tempNodeParameters :=
        recurse (options nodeProperties) value root (Some (type nodeProperties)) in
      match tempNodeParameters with
      | VNull => Ok st
      | _ => Ok (setBoth (name nodeProperties) tempNodeParameters st)
      end
    else if returnDefaults then
      let* copy := jsonClone (default nodeProperties) in
      Ok (setBoth (name nodeProperties) copy st)
    else Ok st.

(** One alternative of a fixedCollection with [multipleValues]: every
    element of its array is resolved against the option of that name
    (lines 660-675). *)
Definition resolveItems (root : Value) (nodeProperties : INodeProperties)
    (itemName : string) (items : list Value) : Result (list Value) :=
  forEach
    (fun tempArrayValue nodeValue =>
       match options nodeProperties with
       | None => Throw TypeError
       | Some opts =>
           match findOption opts itemName with
           | None =>
               Throw (JsError ("Could not find property option " +:+ quote +:+ itemName
                                 +:+ quote +:+ " for " +:+ quote
                                 +:+ name nodeProperties +:+ quote))
           | Some nodePropertyOptions =>
               let* tempValue :=
                 recurse (values nodePropertyOptions) nodeValue root
                         (Some (type nodeProperties)) in
               match tempValue with
               | VNull => Ok tempArrayValue
               | _ => Ok (tempArrayValue ++ [tempValue])
               end
           end
       end)
    items [].

(** One alternative of a fixedCollection without [multipleValues]
    (lines 677-693). *)
Definition resolveSingle (root : Value) (nodeProperties : INodeProperties)
    (value : Value) (itemName : string) (collectionValues : list (string * Value))
  : Result (list (string * Value)) :=
  match options nodeProperties with
  | None => Throw TypeError
  | Some opts =>
      let* tempNodeParameters :=
        match findOption opts itemName with
        | Some nodePropertyOptions =>
            let* nodeValue := getProp value itemName in
            let* tempValue :=
              recurse (values nodePropertyOptions) nodeValue root
                      (Some (type nodeProperties)) in
            match tempValue with
            | VNull => Ok []
            | _ => Ok (objectAssign [] tempValue)
            end
        | None => Ok []
        end in
      if negb (length tempNodeParameters =? 0)
      then Ok (assignProp itemName (VObj tempNodeParameters) collectionValues)
      else Ok collectionValues
  end.

(** The loop over the alternatives of a fixedCollection, which fills
    [collectionValues] (lines 643-695). *)
Definition collectValues (root : Value) (nodeProperties : INodeProperties)
    (value : Value) : Result (list (string * Value)) :=
  let* propertyValues :=
    if returnDefaults && isUndefined value
    then jsonClone (default nodeProperties)
    else Ok value in
  let itemNames :=
    if truthy propertyValues then objectKeys propertyValues else [] in
  forEach
    (fun collectionValues itemName =>
       if multipleValuesTrue nodeProperties then
         let* array := getProp propertyValues itemName in
         let* items := iterate array in
         let* tempArrayValue := resolveItems root nodeProperties itemName items in
         Ok (assignProp itemName (VArr tempArrayValue) collectionValues)
       else
         resolveSingle root nodeProperties value itemName collectionValues)
    itemNames [].

(** The fixedCollection branch (lines 640-714). *)
Definition resolveFixedCollection (root : Value) (nodeProperties : INodeProperties)
    (value : Value) (st : ParameterState) : Result ParameterState :=
  let* collectionValues := collectValues root nodeProperties value in
  if negb (length collectionValues =? 0) || returnDefaults
  then Ok (setBoth (name nodeProperties) (VObj collectionValues) st)
  else Ok st.

(** The body of the main loop (lines 554-714). *)
Definition resolveParameter (st : ParameterState) (parameterIndex : nat)
  : Result ParameterState :=
  match nth_error nodePropertiesArray parameterIndex with
  | None => Throw TypeError
  | Some nodeProperties =>
      let* value := getProp nodeValues (name nodeProperties) in
      if isUndefined value && (negb returnDefaults || isCollectionParent parentType)
      then Ok st
      else if negb returnNoneDisplayed
              && negb (displayParameter (nodeValuesDisplayCheck st) nodeProperties
                         (currentRoot st))
      then Ok st
      else if negb (isComplexType (type nodeProperties)) then
        (* a simple property *)
        if existsb (String.eqb (name nodeProperties)) duplicateParameterNames
           && negb (displayParameter (nodeValuesDisplayCheck st) nodeProperties
                      (currentRoot st))
        then Ok st
        else if returnDefaults then
          let resolved :=
            if isFalsyValidType (type nodeProperties)
            then (if isUndefined value then default nodeProperties else value)
            else jsOr value (default nodeProperties) in
          Ok (setBoth (name nodeProperties) resolved st)
        else if (negb (strictEq value (default nodeProperties)) && negb (typeofObject value))
                || (typeofObject value && negb (isEqual value (default nodeProperties)))
                || (negb (isUndefined value) && isCollectionParent parentType)
        then Ok (setBoth (name nodeProperties) value st)
        else Ok st
      else if onlySimpleTypes then Ok st
      else if String.eqb (type nodeProperties) "collection"
      then resolveCollection (currentRoot st) nodeProperties value st
      else resolveFixedCollection (currentRoot st) nodeProperties value st
  end.

(** *** The value a turn writes

    When defaults and hidden properties are returned and the name of the
    property is not a duplicate, a turn either leaves the two objects as
    they are or writes one value under the name of the property in both
    (see [resolveParameter_turn]). *)
Definition collectionResult (root : Value) (nodeProperties : INodeProperties)
    (value : Value) : Result (option Value) :=
  if multipleValuesTrue nodeProperties then
    if negb (isUndefined value) then Ok (Some value)
    else match default nodeProperties with
         | VArr _ =>
             let* copy := jsonClone (default nodeProperties) in Ok (Some copy)
         | _ => Ok (Some (VArr []))
         end
  else
    if negb (isUndefined value) then
      let* tempNodeParameters :=
        recurse (options nodeProperties) value root (Some (type nodeProperties)) in
      match tempNodeParameters with
      | VNull => Ok None
      | _ => Ok (Some tempNodeParameters)
      end
    else
      let* copy := jsonClone (default nodeProperties) in Ok (Some copy).

Definition simpleResult (nodeProperties : INodeProperties) (value : Value) : Value :=
  if isFalsyValidType (type nodeProperties)
  then (if isUndefined value then default nodeProperties else value)
  else jsOr value (default nodeProperties).

Definition turnResult (root : Value) (nodeProperties : INodeProperties)
    (value : Value) : Result (option Value) :=
  if isUndefined value && isCollectionParent parentType then Ok None
  else if negb (isComplexType (type nodeProperties))
  then Ok (Some (simpleResult nodeProperties value))
  else if onlySimpleTypes then Ok None
  else if String.eqb (type nodeProperties) "collection"
  then collectionResult root nodeProperties value
  else
    let* collectionValues := collectValues root nodeProperties value in
    Ok (Some (VObj collectionValues)).

Definition applyTurn (k : string) (written : option Value) (st : ParameterState)
  : ParameterState :=
  match written with
  | Some v => setBoth k v st
  | None => st
  end.

End Body.

Fixpoint getNodeParameters (fuel : nat) (nodePropertiesArray : list INodeProperties)
    (nodeValues : Value)
    (returnDefaults returnNoneDisplayed onlySimpleTypes dataIsResolved : bool)
    (nodeValuesRoot : Value) (parentType : option string)
    (parameterDependencies : option IParameterDependencies) : Result Value :=
  match fuel with
  | 0 => OutOfFuel
  | S fuel =>
      let* parameterDependencies :=
        match parameterDependencies with
        | Some dependencies => Ok dependencies
        | None => getParamterDependencies nodePropertiesArray
        end in
      let duplicateParameterNames := duplicateNames nodePropertiesArray in
      let* precomputed :=
        if negb dataIsResolved && negb returnNoneDisplayed
        then
          let* full :=
            getNodeParameters fuel nodePropertiesArray nodeValues true true true true
              nodeValuesRoot parentType (Some parameterDependencies) in
          Ok (Some full)
        else Ok None in
      let* parameterItterationOrderIndex :=
        getParamterResolveOrder nodePropertiesArray parameterDependencies in
      let recurse nested value root parent :=
        match nested with
        | None => Throw TypeError
        | Some nested =>
            getNodeParameters fuel nested value returnDefaults returnNoneDisplayed
              false false root parent None
        end in
      let* st :=
        forEach
          (resolveParameter recurse nodePropertiesArray nodeValues
             returnDefaults returnNoneDisplayed onlySimpleTypes
             nodeValuesRoot parentType duplicateParameterNames precomputed)
          parameterItterationOrderIndex (mkParameterState [] []) in
      Ok (VObj (nodeParameters st))
  end.

(** *** Resolutions that resolving again repeats

    With defaults and hidden properties returned, the turn of a simple
    property that shares its name writes nothing when the property is
    not displayed on what has been resolved so far. *)
Definition hiddenDuplicate (nodeValuesRoot : Value) (duplicateParameterNames : list string)
    (st : ParameterState) (nodeProperties : INodeProperties) : bool :=
  negb (isComplexType (type nodeProperties))
  && existsb (String.eqb (name nodeProperties)) duplicateParameterNames
  && negb (displayParameter (nodeValuesDisplayCheck None st) nodeProperties
             (currentRoot nodeValuesRoot None st)).

(** The calls on nested schemas, made only on those that [accept]
    lets through. *)
Definition guarded
    (accept : list INodeProperties -> Value -> Value -> option string -> bool)
    (recurse : option (list INodeProperties) -> Value -> Value -> option string
               -> Result Value)
    (nested : option (list INodeProperties)) (value root : Value)
    (parent : option string) : Result Value :=
  match nested with
  | Some properties =>
      if accept properties value root parent
      then recurse nested value root parent
      else Throw TypeError
  | None => Throw TypeError
  end.

(** What a turn did, [written], against the tree the call returned:
    the value written is the one the tree gives under the name, and is
    not undefined inside a collection; a collection without
    [multipleValues] that took its default took one that its options
    resolve to itself; and where nothing was written, the tree gives
    undefined under the name. *)
Definition settledTurn
    (recurse : option (list INodeProperties) -> Value -> Value -> option string
               -> Result Value)
    (tree : Value) (parentType : option string) (root : Value)
    (nodeProperties : INodeProperties) (value : Value) (written : option Value) : bool :=
  match getProp tree (name nodeProperties) with
  | Ok again =>
      match written with
      | None => isUndefined again
      | Some w =>
          valueEqb again w
          && (negb (isCollectionParent parentType) || negb (isUndefined w))
          && (if String.eqb (type nodeProperties) "collection"
                 && negb (multipleValuesTrue nodeProperties)
                 && isUndefined value
              then match recurse (options nodeProperties) w root
                           (Some (type nodeProperties)) with
                   | Ok t => valueEqb t w
                   | _ => false
                   end
              else true)
      end
  | _ => false
  end.

(** [settled fuel nodePropertiesArray nodeValues nodeValuesRoot parentType]:
    the resolution of [nodeValues], with defaults and hidden properties
    returned, returns a tree; every turn of its main loop that is not
    the turn of a hidden property sharing its name passes [settledTurn]
    against that tree; and so it is for every resolution it makes on a
    nested schema. *)
Fixpoint settled (fuel : nat) (nodePropertiesArray : list INodeProperties)
    (nodeValues nodeValuesRoot : Value) (parentType : option string) : bool :=
  match fuel with
  | 0 => false
  | S fuel =>
      let recurse nested value root parent :=
        match nested with
        | None => Throw TypeError
        | Some nested =>
            getNodeParameters fuel nested value true true false false root parent None
        end in
      match getNodeParameters (S fuel) nodePropertiesArray nodeValues
              true true false false nodeValuesRoot parentType None,
            (let* parameterDependencies := getParamterDependencies nodePropertiesArray in
             getParamterResolveOrder nodePropertiesArray parameterDependencies) with
      | Ok tree, Ok parameterItterationOrderIndex =>
          match
            forEach
              (fun st parameterIndex =>
                 match nth_error nodePropertiesArray parameterIndex with
                 | None => Throw TypeError
                 | Some nodeProperties =>
                     let* value := getProp nodeValues (name nodeProperties) in
                     let root := currentRoot nodeValuesRoot None st in
                     let* written :=
                       turnResult (guarded (settled fuel) recurse) true false
                         parentType root nodeProperties value in
                     if hiddenDuplicate nodeValuesRoot
                          (duplicateNames nodePropertiesArray) st nodeProperties
                     then Ok st
                     else if settledTurn recurse tree parentType root
                               nodeProperties value written
                     then Ok (applyTurn (name nodeProperties) written st)
                     else Throw TypeError
                 end)
              parameterItterationOrderIndex (mkParameterState [] [])
          with
          | Ok _ => true
          | _ => false
          end
      | _, _ => false
      end
  end.

(** ** Issues *)

(** [INodeIssueObjectProperty]: the messages recorded per parameter. *)
Abbreviation IssueMessages := (gmap string (list string)).

Record INodeIssues : Type := mkNodeIssues {
  execution : option bool;
  credentials : option IssueMessages;
  parameters : option IssueMessages;
  typeUnknown : option bool
}.

(** [const foundIssues: INodeIssues = {}] *)
Definition noIssues : INodeIssues := mkNodeIssues None None None None.

Definition isRequiredMessage (nodeProperties : INodeProperties) : string :=
  "Parameter " +:+ quote +:+ displayName nodeProperties +:+ quote +:+ " is required.".

(** [messages[k].push(...more)], on a list created empty when absent. *)
Definition pushMessages (k : string) (more : list string) (messages : IssueMessages)
  : IssueMessages :=
  <[k := from_option id [] (messages !! k) ++ more]> messages.

(** [messages] is an object made by [{}]: under a name that it does not
    hold itself and that is a member of [Object.prototype], the test
    [messages[k] === undefined] fails, no list is created, and the
    [push] that follows is the [push] of that member, which has none. *)
Definition unwritable (messages : IssueMessages) (k : string) : bool :=
  onObjectPrototype k && negb (bool_decide (is_Some (messages !! k))).

Definition isMissing (nodeProperties : INodeProperties) (value : Value) : bool :=
  (String.eqb (type nodeProperties) "string"
   && (strictEq value (VStr EmptyString) || isUndefined value))
  || (String.eqb (type nodeProperties) "multiOptions"
      && match value with VArr [] => true | _ => false end)
  || (String.eqb (type nodeProperties) "dateTime" && isUndefined value).

(** [addToIssuesIfMissing(foundIssues, nodeProperties, value)],
    returning the [foundIssues] it leaves behind. *)
Definition addToIssuesIfMissing (foundIssues : INodeIssues)
    (nodeProperties : INodeProperties) (value : Value) : Result INodeIssues :=
  if isMissing nodeProperties value then
    let messages := from_option id ∅ (parameters foundIssues) in
    if unwritable messages (name nodeProperties) then Throw TypeError
    else
      Ok (mkNodeIssues (execution foundIssues) (credentials foundIssues)
            (Some (pushMessages (name nodeProperties)
                     [isRequiredMessage nodeProperties] messages))
            (typeUnknown foundIssues))
  else Ok foundIssues.

Definition getParameterValueByPath (nodeValues : Value) (parameterName path : string)
  : Value :=
  get nodeValues
    (if String.eqb path EmptyString then parameterName
     else path +:+ "." +:+ parameterName).

(** The per-key part of [mergeIssues]: every list of the source is
    appended to the list of the same name in the destination, unless
    one of the names cannot be written there. *)
Definition mergeMessages (destination source : option IssueMessages)
  : Result (option IssueMessages) :=
  match source with
  | None => Ok destination
  | Some src =>
      let dst := from_option id ∅ destination in
      if existsb (unwritable dst) (map fst (map_to_list src)) then Throw TypeError
      else
        Ok (Some (map_fold (fun parameterName messages dst =>
                              pushMessages parameterName messages dst)
                           dst src))
  end.

Definition mergeFlag (destination source : option bool) : option bool :=
  match source with
  | Some true => Some true
  | _ => destination
  end.

(** [mergeIssues(destination, source)], returning the destination it
    leaves behind; [None] is a null source. *)
Definition mergeIssues (destination : INodeIssues) (source : option INodeIssues)
  : Result INodeIssues :=
  match source with
  | None => Ok destination
  | Some src =>
      let* mergedParameters :=
        mergeMessages (parameters destination) (parameters src) in
      let* mergedCredentials :=
        mergeMessages (credentials destination) (credentials src) in
      Ok (mkNodeIssues
            (mergeFlag (execution destination) (execution src))
            mergedCredentials mergedParameters
            (mergeFlag (typeUnknown destination) (typeUnknown src)))
  end.

(** Whether an object of messages has an entry for [k]. *)
Definition holds (messages : option IssueMessages) (k : string) : bool :=
  match messages with
  | Some m => bool_decide (is_Some (m !! k))
  | None => false
  end.

(** The messages recorded for parameter [k], none when there is no entry. *)
Definition messagesFor (messages : option IssueMessages) (k : string) : list string :=
  match messages with
  | Some m => from_option id [] (m !! k)
  | None => []
  end.

(** What [mergeMessages] returns when it returns. *)
Definition appended (destination source : option IssueMessages) : option IssueMessages :=
  match source with
  | None => destination
  | Some src =>
      Some (map_fold (fun parameterName messages dst =>
                        pushMessages parameterName messages dst)
                     (from_option id ∅ destination) src)
  end.

(** A name that [source] has, that is the name of a member of
    [Object.prototype], and that [destination] does not have. *)
Definition blocked (destination source : option IssueMessages) (k : string) : Prop :=
  onObjectPrototype k = true /\ holds source k = true /\ holds destination k = false.

(** The issues that [mergeIssues] returns when it returns. *)
Definition merged (destination source : INodeIssues) : INodeIssues :=
  mkNodeIssues
    (mergeFlag (execution destination) (execution source))
    (appended (credentials destination) (credentials source))
    (appended (parameters destination) (parameters source))
    (mergeFlag (typeUnknown destination) (typeUnknown source)).

Definition free (destination source : INodeIssues) : Prop :=
  forall k, ~ blocked (parameters destination) (parameters source) k
            /\ ~ blocked (credentials destination) (credentials source) k.

(** Issues made of messages about required parameters of the
    properties [checked], and of nothing else. *)
Definition requiredOnly (checked : list INodeProperties) (issues : INodeIssues) : Prop :=
  execution issues = None /\ credentials issues = None /\ typeUnknown issues = None
  /\ match parameters issues with
     | Some messages =>
         messages <> ∅
         /\ forall k lines,
              messages !! k = Some lines ->
              lines <> []
              /\ forall line, In line lines ->
                   exists q, In q checked /\ name q = k /\ required q = true
                             /\ line = isRequiredMessage q
     | None => True
     end.

(** The required-check at the head of [getParameterIssues]
    (lines 1060-1076). *)
Definition requiredIssues (nodeProperties : INodeProperties) (nodeValues : Value)
    (path : string) : Result INodeIssues :=
  if required nodeProperties then
    if displayParameterPath nodeValues nodeProperties path then
      let value := getParameterValueByPath nodeValues (name nodeProperties) path in
      if multipleValuesDefined nodeProperties then
        match value with
        | VArr singles =>
            forEach (fun found single => addToIssuesIfMissing found nodeProperties single)
                    singles noIssues
        | _ => Ok noIssues
        end
      else addToIssuesIfMissing noIssues nodeProperties value
    else Ok noIssues
  else Ok noIssues.

(** The children of a fixedCollection that get checked, with the path
    under which each is checked (lines 1107-1139). *)
Definition fixedCollectionChildren (nodeProperties : INodeProperties)
    (nodeValues : Value) (basePath : string) (opts : list INodeProperties)
  : Result (list (string * INodeProperties)) :=
  forEach
    (fun children propertyOptions =>
       let value :=
         getParameterValueByPath nodeValues (name propertyOptions)
           (sliceButLast basePath) in
       if isUndefined value then Ok children
       else if multipleValuesDefined nodeProperties then
         match value with
         | VArr items =>
             forEach
               (fun children i =>
                  match values propertyOptions with
                  | None => Throw TypeError
                  | Some vs =>
                      Ok (children ++
                          map (fun option =>
                                 (basePath +:+ name propertyOptions +:+ "["
                                    +:+ keyOfIndex i +:+ "]", option)) vs)
                  end)
               (seq 0 (length items)) children
         | _ => Ok children
         end
       else
         match values propertyOptions with
         | None => Throw TypeError
         | Some vs =>
             Ok (children ++
                 map (fun option => (basePath +:+ name propertyOptions, option)) vs)
         end)
    opts [].

Fixpoint getParameterIssues (fuel : nat) (nodeProperties : INodeProperties)
    (nodeValues : Value) (path : string) : Result INodeIssues :=
  match fuel with
  | 0 => OutOfFuel
  | S fuel =>
      let* foundIssues := requiredIssues nodeProperties nodeValues path in
      match options nodeProperties with
      | None => Ok foundIssues
      | Some opts =>
          let basePath :=
            if String.eqb path EmptyString then EmptyString else path +:+ "." in
          let* checkChildNodeProperties :=
            if String.eqb (type nodeProperties) "collection" then
              Ok (Some (map (fun option => (basePath, option)) opts))
            else if String.eqb (type nodeProperties) "fixedCollection" then
              let basePath :=
                if String.eqb basePath EmptyString
                then name nodeProperties +:+ "."
                else basePath +:+ "." in
              let* children :=
                fixedCollectionChildren nodeProperties nodeValues basePath opts in
              Ok (Some children)
            else Ok None in
          match checkChildNodeProperties with
          | None => Ok foundIssues
          | Some children =>
              forEach
                (fun found optionData =>
                   let* propertyIssues :=
                     getParameterIssues fuel (snd optionData) nodeValues (fst optionData) in
                   mergeIssues found (Some propertyIssues))
                children foundIssues
          end
      end
  end.

(** ** getNodeParametersIssues *)

(** [Object.keys(foundIssues).length === 0] *)
Definition hasNoKeys (issues : INodeIssues) : bool :=
  match execution issues, credentials issues, parameters issues, typeUnknown issues with
  | None, None, None, None => true
  | _, _, _, _ => false
  end.

(** [getNodeParametersIssues(nodePropertiesArray, node)]; [None] is the
    null it returns. *)
Definition getNodeParametersIssues (fuel : nat)
    (nodePropertiesArray : list INodeProperties) (node : INodeData)
  : Result (option INodeIssues) :=
  match disabled node with
  | Some true => Ok None
  | _ =>
      let* foundIssues :=
        forEach
          (fun foundIssues nodeProperty =>
             let* propertyIssues :=
               getParameterIssues fuel nodeProperty (parametersOf node) EmptyString in
             mergeIssues foundIssues (Some propertyIssues))
          nodePropertiesArray noIssues in
      if hasNoKeys foundIssues then Ok None else Ok (Some foundIssues)
  end.

(** ** nodeIssuesToString *)

Section IssueLines.

(** [Object.keys] on an object of messages: the names it holds, in the
    order in which they were added. *)
Variable keysOf : IssueMessages -> list string.

(** The lines of one of the two objects [parameters] and [credentials]. *)
Definition issueLines (messages : option IssueMessages) : list string :=
  match messages with
  | Some m =>
      flat_map (fun parameterName => from_option id [] (m !! parameterName)) (keysOf m)
  | None => []
  end.

Definition nodeIssuesToString (issues : INodeIssues) (node : option INodeData)
  : list string :=
  let nodeIssues :=
    match execution issues with
    | Some _ => ["Execution Error."]
    | None => []
    end in
  let nodeIssues :=
    fold_left (fun nodeIssues messages => nodeIssues ++ issueLines messages)
              [parameters issues; credentials issues] nodeIssues in
  match typeUnknown issues with
  | Some _ =>
      match node with
      | Some node =>
          nodeIssues ++ ["Node Type " +:+ quote +:+ nodeType node +:+ quote
                           +:+ " is not known."]
      | None => nodeIssues ++ ["Node Type is not known."]
      end
  | None => nodeIssues
  end.

End IssueLines.

(** ** Conditions of the display rules *)

(** The test of one rule, the same in the loop over [show] and in the
    loop over [hide]: the values resolved for the property of the rule
    are not empty, and one of the values listed is among them. *)
Definition ruleMatches (nodeValues nodeValuesRoot : Value)
    (rule : string * list Value) : bool :=
  let values := resolveValues nodeValues nodeValuesRoot (fst rule) in
  negb (length values =? 0) && existsb (includes values) (snd rule).

(** The rules of [displayOptions] under the key [kind], none when the
    key is absent. *)
Definition rulesOf (kind : string) (parameter : INodeProperties) : DisplayRule :=
  match displayOptions parameter with
  | Some display =>
      match lookupProp kind display with
      | Some rules => rules
      | None => []
      end
  | None => []
  end.

(** The property names in the display rules of [parameter], under
    [show], [hide] and any other key of [displayOptions]: the names
    that [getParamterDependencies] collects for it. *)
Definition dependencyNames (parameter : INodeProperties) : list string :=
  match displayOptions parameter with
  | Some display => flat_map (fun rule => map fst (snd rule)) display
  | None => []
  end.

(** The exception of [getParamterResolveOrder]. *)
Definition maxItterations : Error :=
  JsError "Could not resolve parameter depenencies. Max itterations got reached!".


(** ** Properties of displayParameter *)

(** A show rule stops the loop with "hidden": no value it resolves is an
    expression, and the values are empty or none of them is accepted. *)
Definition showRuleFails (nodeValues nodeValuesRoot : Value)
    (rule : string * list Value) : bool :=
  let values := resolveValues nodeValues nodeValuesRoot (fst rule) in
  negb (existsb isExpression values)
  && ((length values =? 0) || negb (existsb (includes values) (snd rule))).

Lemma showLoop_expression nodeValues nodeValuesRoot before propertyName accepted after :
  forallb (fun rule => negb (showRuleFails nodeValues nodeValuesRoot rule)) before = true ->
  existsb isExpression (resolveValues nodeValues nodeValuesRoot propertyName) = true ->
  showLoop nodeValues nodeValuesRoot (before ++ (propertyName, accepted) :: after)
  = Some true.
Proof.
  intros Hbefore Hexpr.
  induction before as [|[k acc] before IH]; simpl.
  - by rewrite Hexpr.
  - simpl in Hbefore. apply andb_prop in Hbefore as [Hk Hrest].
    unfold showRuleFails in Hk. simpl in Hk.
    destruct (existsb isExpression (resolveValues nodeValues nodeValuesRoot k)); [done|].
    simpl in Hk. apply negb_true_iff in Hk. rewrite Hk. by apply IH.
Qed.

(** C1 (as amended): when the value resolved for a show key contains a
    string that starts with the expression marker, and no show key
    listed before it fails its own test, [displayParameter] returns
    true, whether or not that value is among the accepted ones. *)
Theorem displayParameter_expression_visible
    nodeValues parameter nodeValuesRoot display before propertyName accepted after :
  displayOptions parameter = Some display ->
  lookupProp "show" display = Some (before ++ (propertyName, accepted) :: after) ->
  forallb (fun rule =>
             negb (showRuleFails nodeValues (jsOr nodeValuesRoot nodeValues) rule))
          before = true ->
  existsb isExpression
    (resolveValues nodeValues (jsOr nodeValuesRoot nodeValues) propertyName) = true ->
  displayParameter nodeValues parameter nodeValuesRoot = true.
Proof.
  intros Hdisplay Hshow Hbefore Hexpr.
  unfold displayParameter. rewrite Hdisplay, Hshow.
  by rewrite (showLoop_expression _ _ _ _ _ _ Hbefore Hexpr).
Qed.

(** ** Properties of getParameterIssues *)

Lemma bind_Ok {A} (r : Result A) : (let* a := r in Ok a) = r.
Proof. by destruct r. Qed.

Lemma getParameterIssues_simple fuel nodeProperties nodeValues path :
  isComplexType (type nodeProperties) = false ->
  getParameterIssues (S fuel) nodeProperties nodeValues path
  = requiredIssues nodeProperties nodeValues path.
Proof.
  intros Htype. simpl.
  destruct (requiredIssues nodeProperties nodeValues path) as [found| |]; [|done..].
  simpl. destruct (options nodeProperties) as [opts|]; [|done].
  unfold isComplexType in Htype. apply orb_false_elim in Htype as [-> ->]. done.
Qed.


Lemma unwritable_empty k : unwritable ∅ k = onObjectPrototype k.
Proof.
  unfold unwritable. rewrite lookup_empty.
  rewrite bool_decide_eq_false_2 by (intros [? ?]; done).
  apply andb_true_r.
Qed.


(** ** Properties of mergeIssues *)

Lemma mergeFold_lookup (dst src : IssueMessages) k :
  map_fold (fun parameterName messages dst => pushMessages parameterName messages dst)
           dst src !! k
  = match src !! k with
    | Some more => Some (from_option id [] (dst !! k) ++ more)
    | None => dst !! k
    end.
Proof.
  revert k.
  apply (map_fold_weak_ind
           (fun r (m : IssueMessages) =>
              forall k, r !! k = match m !! k with
                                 | Some more => Some (from_option id [] (dst !! k) ++ more)
                                 | None => dst !! k
                                 end)).
  - intros k. by rewrite lookup_empty.
  - intros i x m r Hfresh IH k. unfold pushMessages.
    destruct (decide (i = k)) as [->|Hne].
    + rewrite !lookup_insert_eq. by rewrite IH, Hfresh.
    + rewrite !lookup_insert_ne by done. apply IH.
Qed.


Lemma holds_lookup (m : IssueMessages) k :
  holds (Some m) k = true <-> is_Some (m !! k).
Proof. simpl. apply bool_decide_eq_true. Qed.

Lemma holds_default destination k :
  bool_decide (is_Some (from_option id (∅ : IssueMessages) destination !! k))
  = holds destination k.
Proof.
  destruct destination as [dst|]; simpl; [done|].
  rewrite lookup_empty. apply bool_decide_eq_false_2. by intros [? ?].
Qed.

Lemma mergeMessages_returns destination source :
  (forall k, ~ blocked destination source k) ->
  mergeMessages destination source = Ok (appended destination source).
Proof.
  intros Hfree. destruct source as [src|]; [|done]. simpl.
  destruct (existsb _ _) eqn:Hexists; [|done].
  apply existsb_exists in Hexists as (k & Hin & Hk).
  unfold unwritable in Hk. apply andb_true_iff in Hk as [Hproto Hnew].
  exfalso. apply (Hfree k). split; [done|]. split.
  - apply holds_lookup. apply list_elem_of_In in Hin.
    apply list_elem_of_fmap in Hin as ([k' l] & -> & Hin).
    apply elem_of_map_to_list in Hin. by exists l.
  - rewrite holds_default in Hnew. by apply negb_true_iff.
Qed.

Lemma mergeMessages_throws destination source k :
  blocked destination source k ->
  mergeMessages destination source = Throw TypeError.
Proof.
  intros (Hproto & Hsource & Hdestination).
  destruct source as [src|]; [|done]. simpl.
  apply holds_lookup in Hsource as [l Hl].
  assert (Hexists : existsb (unwritable (from_option id ∅ destination))
                            (map fst (map_to_list src)) = true).
  { apply existsb_exists. exists k. split.
    - apply list_elem_of_In, list_elem_of_fmap. exists (k, l). split; [done|].
      by apply elem_of_map_to_list.
    - unfold unwritable. by rewrite holds_default, Hproto, Hdestination. }
  by rewrite Hexists.
Qed.

Lemma mergeMessages_cases destination source :
  (mergeMessages destination source = Ok (appended destination source)
   /\ forall k, ~ blocked destination source k)
  \/ (mergeMessages destination source = Throw TypeError
      /\ exists k, blocked destination source k).
Proof.
  destruct source as [src|];
    [|left; split; [reflexivity|]; intros k (_ & Hk & _); by simpl in Hk].
  destruct (existsb (unwritable (from_option id ∅ destination))
                    (map fst (map_to_list src))) eqn:Hexists.
  - right. apply existsb_exists in Hexists as (k & Hin & Hk).
    unfold unwritable in Hk. apply andb_true_iff in Hk as [Hproto Hnew].
    assert (Hblocked : blocked destination (Some src) k).
    { split; [done|]. split.
      - apply holds_lookup. apply list_elem_of_In in Hin.
        apply list_elem_of_fmap in Hin as ([k' l] & -> & Hin).
        apply elem_of_map_to_list in Hin. by exists l.
      - rewrite holds_default in Hnew. by apply negb_true_iff. }
    split; [by apply (mergeMessages_throws _ _ k)|by exists k].
  - left. split; [simpl; by rewrite Hexists|].
    intros k (Hproto & Hsource & Hdestination).
    apply holds_lookup in Hsource as [l Hl].
    apply not_true_iff_false in Hexists. apply Hexists.
    apply existsb_exists. exists k. split.
    + apply list_elem_of_In, list_elem_of_fmap. exists (k, l). split; [done|].
      by apply elem_of_map_to_list.
    + unfold unwritable. by rewrite holds_default, Hproto, Hdestination.
Qed.

Lemma appended_messagesFor destination source k :
  messagesFor (appended destination source) k
  = messagesFor destination k ++ messagesFor source k.
Proof.
  destruct source as [src|]; simpl.
  - rewrite mergeFold_lookup.
    destruct destination as [dst|]; simpl.
    + by destruct (src !! k); simpl; [|rewrite app_nil_r].
    + rewrite lookup_empty. by destruct (src !! k).
  - by rewrite app_nil_r.
Qed.





Lemma mergeIssues_cases destination source :
  (mergeIssues destination (Some source) = Ok (merged destination source)
   /\ free destination source)
  \/ (mergeIssues destination (Some source) = Throw TypeError
      /\ exists k, blocked (parameters destination) (parameters source) k
                   \/ blocked (credentials destination) (credentials source) k).
Proof.
  unfold mergeIssues.
  destruct (mergeMessages_cases (parameters destination) (parameters source))
    as [[-> Hp]|[-> [k Hk]]]; [|right; split; [done|]; exists k; by left].
  destruct (mergeMessages_cases (credentials destination) (credentials source))
    as [[-> Hc]|[-> [k Hk]]]; [|right; split; [done|]; exists k; by right].
  left. split; [done|]. intros k. split; [apply Hp|apply Hc].
Qed.

Lemma mergeIssues_free destination source :
  free destination source ->
  mergeIssues destination (Some source) = Ok (merged destination source).
Proof.
  intros Hfree. destruct (mergeIssues_cases destination source) as [[? _]|[_ [k Hk]]];
    [done|].
  destruct (Hfree k) as [Hp Hc]. by destruct Hk.
Qed.

Lemma mergeIssues_Ok destination source result :
  mergeIssues destination (Some source) = Ok result ->
  result = merged destination source /\ free destination source.
Proof.
  destruct (mergeIssues_cases destination source) as [[-> ?]|[-> _]]; [|done].
  intros [= <-]. done.
Qed.


(** ** getParamterResolveOrder always ends *)

Section Resolve.

Variable nodePropertiesArray : list INodeProperties.
Variable parameterDependencies : IParameterDependencies.

Let n := length nodePropertiesArray.
Let step := resolveStep nodePropertiesArray parameterDependencies.
Let loop := fun fuel => resolveLoop fuel nodePropertiesArray parameterDependencies.

Lemma requeue_fold resolved index dependencies queue :
  fold_left (requeue resolved index) dependencies queue
  = queue ++ repeat index (unresolvedCount resolved dependencies).
Proof.
  unfold unresolvedCount.
  revert queue. induction dependencies as [|d ds IH]; intros queue; simpl.
  - by rewrite app_nil_r.
  - rewrite IH. unfold requeue.
    destruct (existsb (String.eqb d) resolved); simpl; [done|].
    destruct (startsWith d "/"); simpl; [done|].
    by rewrite <- app_assoc.
Qed.

Lemma unresolvedCount_le resolved dependencies :
  unresolvedCount resolved dependencies <= length dependencies.
Proof. unfold unresolvedCount. apply List.filter_length_le. Qed.

Lemma tableEntry_total table k : tableEntry table k <> OutOfFuel.
Proof.
  unfold tableEntry. destruct (lookupProp k table); [done|].
  by destruct (parameterless k).
Qed.

(** What a turn that does not throw does to the state. *)
Lemma resolveStep_Ok st index queue st' :
  step st index queue = Ok st' ->
  exists property dependencies,
    nth_error nodePropertiesArray index = Some property
    /\ tableEntry parameterDependencies (name property) = Ok dependencies
    /\ executionOrder st' = executionOrder st ++ [index]
    /\ resolvedParamters st' = resolvedParamters st ++ [name property]
    /\ itterations st' = (itterations st + 1)%Z
    /\ indexToResolve st'
       = queue ++ repeat index (unresolvedCount (resolvedParamters st) dependencies)
    /\ ((dependencies = []
         /\ lastIndexLength st' = lastIndexLength st
         /\ lastIndexReduction st' = lastIndexReduction st)
        \/ (dependencies <> []
            /\ lastIndexLength st' = length (indexToResolve st')
            /\ lastIndexReduction st'
               = (if length (indexToResolve st') <? lastIndexLength st
                  then (itterations st + 1)%Z else lastIndexReduction st)
            /\ (itterations st' <= lastIndexReduction st' + Z.of_nat n)%Z)).
Proof.
  unfold step, resolveStep. intros Hstep.
  destruct (nth_error nodePropertiesArray index) as [property|]; [|done].
  destruct (tableEntry parameterDependencies (name property))
    as [dependencies| |] eqn:Hdeps; [|done..].
  exists property, dependencies.
  destruct dependencies as [|d ds].
  - injection Hstep as <-. simpl. rewrite app_nil_r. tauto.
  - rewrite requeue_fold in Hstep.
    set (queue' := queue ++ repeat index (unresolvedCount (resolvedParamters st) (d :: ds))) in *.
    set (reduction := if length queue' <? lastIndexLength st
                      then (itterations st + 1)%Z else lastIndexReduction st) in *.
    destruct (reduction + Z.of_nat (length nodePropertiesArray) <? itterations st + 1)%Z
      eqn:Hmax; [done|].
    injection Hstep as <-. simpl.
    do 6 (split; [done|]). right. do 3 (split; [done|]). fold n. lia.
Qed.

Lemma existsb_snoc d resolved x :
  existsb (String.eqb d) (resolved ++ [x])
  = existsb (String.eqb d) resolved || String.eqb d x.
Proof. rewrite existsb_app. simpl. by rewrite orb_false_r. Qed.

(** Resolving a name again changes no answer of [includes]. *)
Lemma unresolvedCount_again resolved x dependencies :
  existsb (String.eqb x) resolved = true ->
  unresolvedCount (resolved ++ [x]) dependencies = unresolvedCount resolved dependencies.
Proof.
  intros Hx. unfold unresolvedCount. f_equal.
  apply List.filter_ext. intros d. rewrite existsb_snoc.
  destruct (String.eqb_spec d x) as [->|_].
  - by rewrite Hx.
  - by rewrite orb_false_r.
Qed.

Lemma pushesOf_again resolved x index :
  existsb (String.eqb x) resolved = true ->
  pushesOf nodePropertiesArray parameterDependencies (resolved ++ [x]) index
  = pushesOf nodePropertiesArray parameterDependencies resolved index.
Proof.
  intros Hx. unfold pushesOf.
  destruct (nth_error nodePropertiesArray index); [|done].
  by apply unresolvedCount_again.
Qed.

Lemma leaving_again resolved x queue :
  existsb (String.eqb x) resolved = true ->
  leaving nodePropertiesArray parameterDependencies (resolved ++ [x]) queue
  = leaving nodePropertiesArray parameterDependencies resolved queue.
Proof.
  intros Hx. unfold leaving. f_equal. apply List.filter_ext. intros e.
  by rewrite pushesOf_again.
Qed.

Lemma leaving_app resolved q1 q2 :
  leaving nodePropertiesArray parameterDependencies resolved (q1 ++ q2)
  = leaving nodePropertiesArray parameterDependencies resolved q1
    + leaving nodePropertiesArray parameterDependencies resolved q2.
Proof. unfold leaving. by rewrite List.filter_app, length_app. Qed.

Lemma leaving_repeat resolved e k :
  leaving nodePropertiesArray parameterDependencies resolved (repeat e k)
  = if pushesOf nodePropertiesArray parameterDependencies resolved e =? 0 then k else 0.
Proof.
  unfold leaving. induction k as [|k IH]; simpl.
  - by destruct (_ =? 0).
  - destruct (pushesOf _ _ resolved e =? 0) eqn:He; simpl; by rewrite IH.
Qed.

Lemma leaving_le resolved queue :
  leaving nodePropertiesArray parameterDependencies resolved queue <= length queue.
Proof. unfold leaving. apply List.filter_length_le. Qed.

Lemma allResolved_snoc resolved x :
  allResolved nodePropertiesArray resolved ->
  allResolved nodePropertiesArray (resolved ++ [x]).
Proof.
  intros Hall p Hp. rewrite existsb_app, (Hall p Hp). done.
Qed.

Lemma leaving_cons resolved e queue :
  leaving nodePropertiesArray parameterDependencies resolved (e :: queue)
  = (if pushesOf nodePropertiesArray parameterDependencies resolved e =? 0 then 1 else 0)
    + leaving nodePropertiesArray parameterDependencies resolved queue.
Proof. unfold leaving. simpl. by destruct (_ =? 0). Qed.

(** Once every name is resolved, a turn that does not throw lowers the
    measure. *)
Lemma resolveStep_lowers st index queue st' :
  allResolved nodePropertiesArray (resolvedParamters st) ->
  (lastIndexReduction st <= itterations st)%Z ->
  indexToResolve st = index :: queue ->
  step st index queue = Ok st' ->
  allResolved nodePropertiesArray (resolvedParamters st')
  /\ (lastIndexReduction st' <= itterations st')%Z
  /\ resolveMeasure nodePropertiesArray parameterDependencies st'
     < resolveMeasure nodePropertiesArray parameterDependencies st.
Proof.
  intros Hall Hred Hqueue Hstep.
  apply resolveStep_Ok in Hstep
    as (p & dl & Hnth & Hdeps & _ & Hres & Hit & Hq' & Hcases).
  assert (Hp : existsb (String.eqb (name p)) (resolvedParamters st) = true).
  { apply Hall. eapply nth_error_In; eauto. }
  assert (Hk : pushesOf nodePropertiesArray parameterDependencies
                 (resolvedParamters st) index
               = unresolvedCount (resolvedParamters st) dl).
  { unfold pushesOf, dependenciesOf. by rewrite Hnth, Hdeps. }
  split; [rewrite Hres; by apply allResolved_snoc|].
  unfold resolveMeasure. fold n.
  rewrite Hres, Hit, Hqueue, leaving_again, leaving_cons, Hk by done.
  assert (Hleft : leaving nodePropertiesArray parameterDependencies
                    (resolvedParamters st) (indexToResolve st')
                  = leaving nodePropertiesArray parameterDependencies
                      (resolvedParamters st) queue).
  { rewrite Hq', leaving_app, leaving_repeat, Hk.
    destruct (unresolvedCount (resolvedParamters st) dl =? 0) eqn:Hzero; [|lia].
    apply Nat.eqb_eq in Hzero. lia. }
  rewrite Hleft.
  assert (Hlen : length (indexToResolve st')
                 = length queue + unresolvedCount (resolvedParamters st) dl).
  { by rewrite Hq', length_app, repeat_length. }
  set (k := unresolvedCount (resolvedParamters st) dl) in *.
  set (G := leaving nodePropertiesArray parameterDependencies
              (resolvedParamters st) queue) in *.
  simpl length.
  destruct Hcases as [(-> & Hlast & Hr) | (_ & Hlast & Hr & Hmax)].
  - assert (k = 0) as Hk0 by done. rewrite Hk0 in *. simpl.
    rewrite Hr, Hlast. split; [lia|].
    destruct (length (indexToResolve st') <? lastIndexLength st),
             (S (length queue) <? lastIndexLength st); nia.
  - rewrite Hlast, Nat.ltb_irrefl.
    destruct (length (indexToResolve st') <? lastIndexLength st) eqn:Hlt.
    + split; [lia|]. rewrite Hr in *.
      destruct (k =? 0) eqn:Hzero.
      * destruct (S (length queue) <? lastIndexLength st); nia.
      * apply Nat.ltb_lt in Hlt. apply Nat.eqb_neq in Hzero.
        assert (Hstale : (S (length queue) <? lastIndexLength st) = true)
          by (apply Nat.ltb_lt; lia).
        rewrite Hstale. nia.
    + split; [lia|]. rewrite Hr in *.
      destruct (k =? 0) eqn:Hzero.
      * destruct (S (length queue) <? lastIndexLength st); nia.
      * destruct (S (length queue) <? lastIndexLength st); nia.
Qed.


Lemma resolveLoop_lowering fuel : forall st,
  allResolved nodePropertiesArray (resolvedParamters st) ->
  (lastIndexReduction st <= itterations st)%Z ->
  resolveMeasure nodePropertiesArray parameterDependencies st < fuel ->
  loop fuel st <> OutOfFuel.
Proof.
  induction fuel as [|fuel IH]; intros st Hall Hred Hfuel; [lia|].
  unfold loop. simpl.
  destruct (indexToResolve st) as [|index queue] eqn:Hqueue; [done|].
  destruct (resolveStep nodePropertiesArray parameterDependencies st index queue)
    as [st'| |] eqn:Hstep; simpl; [|done|].
  - destruct (resolveStep_lowers st index queue st' Hall Hred Hqueue Hstep)
      as (Hall' & Hred' & Hless).
    apply IH; auto. lia.
  - unfold resolveStep in Hstep.
    destruct (nth_error nodePropertiesArray index) as [property|]; [|done].
    pose proof (tableEntry_total parameterDependencies (name property)) as Hentry.
    destruct (tableEntry parameterDependencies (name property)) as [[|d ds]| |];
      [done| |done..].
    by destruct (_ <? _)%Z.
Qed.

Lemma firstn_snoc {A} (l : list A) j x :
  nth_error l j = Some x -> firstn (S j) l = firstn j l ++ [x].
Proof.
  revert j. induction l as [|y l IH]; intros [|j] Hnth; try done.
  - by injection Hnth as ->.
  - simpl in *. f_equal. by apply IH.
Qed.

Let pushesUpTo (j : nat) : nat :=
  list_sum (map (fun p => length (dependenciesOf parameterDependencies p))
                (firstn j nodePropertiesArray)).

(** The first turns take the indices in their order; after them every
    name is resolved. *)
Lemma resolveLoop_prefix k : forall j st pushed fuel,
  j + k = n ->
  indexToResolve st = seq j k ++ pushed ->
  (forall i p, i < j -> nth_error nodePropertiesArray i = Some p ->
               existsb (String.eqb (name p)) (resolvedParamters st) = true) ->
  (lastIndexReduction st <= itterations st)%Z ->
  length pushed <= pushesUpTo j ->
  k + (2 * pushesUpTo n + 2) * (n + 2) <= fuel ->
  loop fuel st <> OutOfFuel.
Proof.
  induction k as [|k IH]; intros j st pushed fuel Hjk Hqueue Hnames Hred Hpushed Hfuel.
  - simpl in Hqueue. assert (j = n) as -> by lia.
    apply resolveLoop_lowering; auto.
    + intros p Hp. apply In_nth_error in Hp as [i Hi].
      apply (Hnames i p); [|done].
      apply nth_error_Some. by rewrite Hi.
    + unfold resolveMeasure. fold n. rewrite Hqueue.
      pose proof (leaving_le (resolvedParamters st) pushed) as Hle.
      destruct (length pushed <? lastIndexLength st); nia.
  - destruct fuel as [|fuel]; [lia|].
    unfold loop. simpl. rewrite Hqueue. simpl.
    destruct (resolveStep nodePropertiesArray parameterDependencies st j
                (seq (S j) k ++ pushed)) as [st'| |] eqn:Hstep; simpl; [|done|].
    + apply resolveStep_Ok in Hstep
        as (p & dl & Hnth & Hdeps & _ & Hres & Hit & Hq' & Hcases).
      assert (Hstepsum : pushesUpTo (S j) = pushesUpTo j + length dl).
      { unfold pushesUpTo. rewrite (firstn_snoc _ _ _ Hnth), map_app, list_sum_app.
        simpl. unfold dependenciesOf. rewrite Hdeps. lia. }
      apply (IH (S j) st'
               (pushed ++ repeat j (unresolvedCount (resolvedParamters st) dl))).
      * lia.
      * by rewrite Hq', <- app_assoc.
      * intros i q Hi Hq. rewrite Hres, existsb_app.
        destruct (decide (i = j)) as [->|Hne].
        -- rewrite Hnth in Hq. injection Hq as ->. simpl.
           rewrite String.eqb_refl. simpl. apply orb_true_r.
        -- rewrite (Hnames i q); [done|lia|done].
      * rewrite Hit.
        destruct Hcases as [(_ & _ & ->) | (_ & _ & -> & _)]; [lia|].
        destruct (_ <? _); lia.
      * rewrite length_app, repeat_length, Hstepsum.
        pose proof (unresolvedCount_le (resolvedParamters st) dl). lia.
      * lia.
    + unfold resolveStep in Hstep.
      destruct (nth_error nodePropertiesArray j) as [property|]; [|done].
      pose proof (tableEntry_total parameterDependencies (name property)) as Hentry.
      destruct (tableEntry parameterDependencies (name property)) as [[|d ds]| |];
        [done| |done..].
      by destruct (_ <? _)%Z.
Qed.

End Resolve.

(** The loop of [getParamterResolveOrder] ends, in an order or in the
    exception, for every schema and every table of dependencies. *)
Theorem getParamterResolveOrder_total nodePropertiesArray parameterDependencies :
  getParamterResolveOrder nodePropertiesArray parameterDependencies <> OutOfFuel.
Proof.
  unfold getParamterResolveOrder.
  apply (resolveLoop_prefix nodePropertiesArray parameterDependencies
           (length nodePropertiesArray) 0 (resolveStart nodePropertiesArray) []).
  - done.
  - simpl. by rewrite app_nil_r.
  - intros i p Hi. lia.
  - simpl. lia.
  - simpl. lia.
  - unfold resolveBudget. rewrite firstn_all. lia.
Qed.

(** ** What getParamterResolveOrder returns *)

Lemma resolveLoop_covers nodePropertiesArray parameterDependencies fuel :
  forall st order i,
    resolveLoop fuel nodePropertiesArray parameterDependencies st = Ok order ->
    In i (executionOrder st) \/ In i (indexToResolve st) ->
    In i order.
Proof.
  induction fuel as [|fuel IH]; intros st order i Hloop Hin; simpl in Hloop.
  - destruct (indexToResolve st) as [|index queue]; [|done].
    injection Hloop as <-. by destruct Hin.
  - destruct (indexToResolve st) as [|index queue] eqn:Hqueue.
    + injection Hloop as <-. by destruct Hin.
    + destruct (resolveStep nodePropertiesArray parameterDependencies st index queue)
        as [st'| |] eqn:Hstep; simpl in Hloop; try done.
      apply (IH st' order i Hloop).
      apply resolveStep_Ok in Hstep
        as (p & dl & _ & _ & Hexec & _ & _ & Hq' & _).
      rewrite Hexec, Hq', !in_app_iff. simpl. simpl in Hin. tauto.
Qed.

(** Every index is in the order that is returned, at least once. *)
Lemma getParamterResolveOrder_covers nodePropertiesArray parameterDependencies order i :
  getParamterResolveOrder nodePropertiesArray parameterDependencies = Ok order ->
  i < length nodePropertiesArray ->
  In i order.
Proof.
  intros Horder Hi. eapply resolveLoop_covers; [exact Horder|].
  right. simpl. apply in_seq. lia.
Qed.

Lemma resolveLoop_more nodePropertiesArray parameterDependencies fuel :
  forall fuel' st order,
    fuel <= fuel' ->
    resolveLoop fuel nodePropertiesArray parameterDependencies st = Ok order ->
    resolveLoop fuel' nodePropertiesArray parameterDependencies st = Ok order.
Proof.
  induction fuel as [|fuel IH]; intros fuel' st order Hle Hloop.
  - simpl in Hloop. destruct (indexToResolve st) eqn:Hqueue; [|done].
    destruct fuel'; simpl; by rewrite Hqueue.
  - destruct fuel' as [|fuel']; [lia|]. simpl in *.
    destruct (indexToResolve st) as [|index queue]; [done|].
    destruct (resolveStep nodePropertiesArray parameterDependencies st index queue)
      as [st'| |]; simpl in *; try done.
    apply IH; [lia|done].
Qed.

Lemma resolveLoop_turn nodePropertiesArray parameterDependencies fuel st index queue st' :
  indexToResolve st = index :: queue ->
  resolveStep nodePropertiesArray parameterDependencies st index queue = Ok st' ->
  resolveLoop (S fuel) nodePropertiesArray parameterDependencies st
  = resolveLoop fuel nodePropertiesArray parameterDependencies st'.
Proof. intros Hqueue Hstep. simpl. by rewrite Hqueue, Hstep. Qed.

(** C2 (the code at the failing input): a property whose only
    dependency is a property listed after it is put in the order before
    that dependency and once more after it.  The inner [continue] that
    follows [indexToResolve.push(index)] resumes the loop over the
    dependencies, not the [while] loop, so the index is also added to
    the order in the same turn. *)
Theorem getParamterResolveOrder_repeats_index a b parameterDependencies :
  name a <> name b ->
  startsWith (name b) "/" = false ->
  lookupProp (name a) parameterDependencies = Some [name b] ->
  lookupProp (name b) parameterDependencies = Some [] ->
  getParamterResolveOrder [a; b] parameterDependencies = Ok [0; 1; 0].
Proof.
  intros Hne Hroot Ha Hb.
  assert (Hba : String.eqb (name b) (name a) = false).
  { apply String.eqb_neq. congruence. }
  unfold getParamterResolveOrder.
  apply (resolveLoop_more _ _ 3); [unfold resolveBudget; simpl length; lia|].
  rewrite (resolveLoop_turn _ _ 2 _ 0 [1]
             (mkResolveState [0] [1; 0] [name a] 2 (-1) 1)); [|done|].
  2: { unfold resolveStep, tableEntry. simpl. rewrite Ha. simpl. unfold requeue. simpl.
       by rewrite Hroot. }
  rewrite (resolveLoop_turn _ _ 1 _ 1 [0]
             (mkResolveState [0; 1] [0] [name a; name b] 2 (-1) 2)); [|done|].
  2: { unfold resolveStep, tableEntry. simpl. by rewrite Hb. }
  rewrite (resolveLoop_turn _ _ 0 _ 0 []
             (mkResolveState [0; 1; 0] [] [name a; name b; name a] 0 3 3)); [done|done|].
  unfold resolveStep, tableEntry. simpl. rewrite Ha. simpl. unfold requeue. simpl.
  by rewrite Hba, String.eqb_refl.
Qed.

(** C3 (the code at the failing input): two properties that each depend
    on the other are given an order; nothing is thrown.  By the same
    [continue], the first one counts as resolved at the end of its first
    turn, so the second finds its dependency resolved. *)
Theorem getParamterResolveOrder_accepts_cycle a b parameterDependencies :
  name a <> name b ->
  startsWith (name b) "/" = false ->
  lookupProp (name a) parameterDependencies = Some [name b] ->
  lookupProp (name b) parameterDependencies = Some [name a] ->
  getParamterResolveOrder [a; b] parameterDependencies = Ok [0; 1; 0].
Proof.
  intros Hne Hroot Ha Hb.
  assert (Hba : String.eqb (name b) (name a) = false).
  { apply String.eqb_neq. congruence. }
  unfold getParamterResolveOrder.
  apply (resolveLoop_more _ _ 3); [unfold resolveBudget; simpl length; lia|].
  rewrite (resolveLoop_turn _ _ 2 _ 0 [1]
             (mkResolveState [0] [1; 0] [name a] 2 (-1) 1)); [|done|].
  2: { unfold resolveStep, tableEntry. simpl. rewrite Ha. simpl. unfold requeue. simpl.
       by rewrite Hroot. }
  rewrite (resolveLoop_turn _ _ 1 _ 1 [0]
             (mkResolveState [0; 1] [0] [name a; name b] 1 2 2)); [|done|].
  2: { unfold resolveStep, tableEntry. simpl. rewrite Hb. simpl. unfold requeue. simpl.
       by rewrite String.eqb_refl. }
  rewrite (resolveLoop_turn _ _ 0 _ 0 []
             (mkResolveState [0; 1; 0] [] [name a; name b; name a] 0 3 3)); [done|done|].
  unfold resolveStep, tableEntry. simpl. rewrite Ha. simpl. unfold requeue. simpl.
  by rewrite Hba, String.eqb_refl.
Qed.

(** ** getNodeParameters always ends, and never in null *)

Lemma bind_total {A B} (r : Result A) (k : A -> Result B) :
  r <> OutOfFuel ->
  (forall a, r = Ok a -> k a <> OutOfFuel) ->
  bind r k <> OutOfFuel.
Proof. destruct r; simpl; auto. Qed.

Lemma forEach_total {A S} (body : S -> A -> Result S) xs :
  (forall s x, In x xs -> body s x <> OutOfFuel) ->
  forall s, forEach body xs s <> OutOfFuel.
Proof.
  induction xs as [|x xs IH]; intros Hbody s; simpl; [done|].
  apply bind_total.
  - apply Hbody. by left.
  - intros s' _. apply IH. intros s'' y Hy. apply Hbody. by right.
Qed.

Lemma propertyDepth_le p nodePropertiesArray :
  In p nodePropertiesArray -> propertyDepth p <= schemaDepth nodePropertiesArray.
Proof.
  unfold schemaDepth. induction nodePropertiesArray as [|q l IH]; [done|].
  intros [->|Hin]; simpl; [lia|]. specialize (IH Hin). lia.
Qed.

Lemma schemaDepth_options p nested :
  options p = Some nested -> schemaDepth nested < propertyDepth p.
Proof. destruct p. simpl. intros ->. unfold schemaDepth. lia. Qed.

Lemma schemaDepth_values p nested :
  values p = Some nested -> schemaDepth nested < propertyDepth p.
Proof. destruct p. simpl. intros ->. unfold schemaDepth. lia. Qed.

Lemma findOption_In opts itemName o :
  findOption opts itemName = Some o -> In o opts /\ name o = itemName.
Proof.
  unfold findOption. intros Hfind. apply find_some in Hfind as [Hin Hname].
  split; [done|]. by apply String.eqb_eq.
Qed.

Lemma jsonClone_total v : jsonClone v <> OutOfFuel.
Proof. unfold jsonClone. by destruct (unserializable v). Qed.

Lemma getProp_total o k : getProp o k <> OutOfFuel.
Proof.
  unfold getProp.
  destruct o; try done; destruct (ownProp _ k); try done;
    by destruct (otherMember _ k).
Qed.

Lemma getParamterDependencies_total nodePropertiesArray :
  getParamterDependencies nodePropertiesArray <> OutOfFuel.
Proof.
  unfold getParamterDependencies. apply forEach_total.
  intros dependencies p _.
  destruct (displayOptions p) as [display|]; [|done].
  destruct (lookupProp (name p) _); [done|].
  by destruct (flat_map (fun rule => map fst (snd rule)) display).
Qed.

Lemma dependencies_total (parameterDependencies : option IParameterDependencies)
    nodePropertiesArray :
  match parameterDependencies with
  | Some dependencies => Ok dependencies
  | None => getParamterDependencies nodePropertiesArray
  end <> OutOfFuel.
Proof.
  destruct parameterDependencies; [done|apply getParamterDependencies_total].
Qed.

Lemma iterate_total v : iterate v <> OutOfFuel.
Proof. by destruct v. Qed.

Section BodyTotal.

Variable recurse :
  option (list INodeProperties) -> Value -> Value -> option string -> Result Value.
Variable nodePropertiesArray : list INodeProperties.
Variable nodeValues : Value.
Variables returnDefaults returnNoneDisplayed onlySimpleTypes : bool.
Variable nodeValuesRoot : Value.
Variable parentType : option string.
Variable duplicateParameterNames : list string.
Variable precomputed : option Value.

Hypothesis recurse_undefined :
  forall value root parent, recurse None value root parent <> OutOfFuel.
Hypothesis recurse_nested :
  forall nested value root parent,
    schemaDepth nested < schemaDepth nodePropertiesArray ->
    recurse (Some nested) value root parent <> OutOfFuel.

Lemma recurse_options_total p value root parent :
  In p nodePropertiesArray ->
  recurse (options p) value root parent <> OutOfFuel.
Proof.
  intros Hp. destruct (options p) as [nested|] eqn:Hoptions; [|done].
  apply recurse_nested.
  pose proof (schemaDepth_options _ _ Hoptions).
  pose proof (propertyDepth_le _ _ Hp). lia.
Qed.

Lemma recurse_values_total p opts o value root parent :
  In p nodePropertiesArray ->
  options p = Some opts ->
  In o opts ->
  recurse (values o) value root parent <> OutOfFuel.
Proof.
  intros Hp Hoptions Ho. destruct (values o) as [nested|] eqn:Hvalues; [|done].
  apply recurse_nested.
  pose proof (schemaDepth_values _ _ Hvalues).
  pose proof (propertyDepth_le _ _ Ho).
  pose proof (schemaDepth_options _ _ Hoptions).
  pose proof (propertyDepth_le _ _ Hp). lia.
Qed.

Lemma resolveCollection_total p value st :
  In p nodePropertiesArray ->
  forall root,
    resolveCollection recurse returnDefaults root p value st <> OutOfFuel.
Proof.
  intros Hp root. unfold resolveCollection.
  destruct (multipleValuesTrue p).
  - destruct (negb (isUndefined value)); [done|].
    destruct returnDefaults.
    + by destruct (default p).
    + apply bind_total; [apply getProp_total|done].
  - destruct (negb (isUndefined value)).
    + apply bind_total; [by apply recurse_options_total|].
      intros temp _. by destruct temp.
    + destruct returnDefaults; [|done].
      apply bind_total; [apply jsonClone_total|done].
Qed.

Lemma resolveItems_total p itemName items root :
  In p nodePropertiesArray ->
  resolveItems recurse root p itemName items <> OutOfFuel.
Proof.
  intros Hp. unfold resolveItems. apply forEach_total.
  intros acc nodeValue _.
  destruct (options p) as [opts|] eqn:Hoptions; [|done].
  destruct (findOption opts itemName) as [o|] eqn:Hfind; [|done].
  apply findOption_In in Hfind as [Ho _].
  apply bind_total; [by eapply recurse_values_total|].
  intros temp _. by destruct temp.
Qed.

Lemma resolveSingle_total p value itemName root collectionValues :
  In p nodePropertiesArray ->
  resolveSingle recurse root p value itemName collectionValues <> OutOfFuel.
Proof.
  intros Hp. unfold resolveSingle.
  destruct (options p) as [opts|] eqn:Hoptions; [|done].
  apply bind_total.
  - destruct (findOption opts itemName) as [o|] eqn:Hfind; [|done].
    apply findOption_In in Hfind as [Ho _].
    apply bind_total; [apply getProp_total|]. intros nodeValue _.
    apply bind_total; [by eapply recurse_values_total|].
    intros temp _. by destruct temp.
  - intros temp _. by destruct (negb _).
Qed.

Lemma collectValues_total p value root :
  In p nodePropertiesArray ->
  collectValues recurse returnDefaults root p value <> OutOfFuel.
Proof.
  intros Hp. unfold collectValues.
  apply bind_total.
  - destruct (returnDefaults && isUndefined value); [apply jsonClone_total|done].
  - intros propertyValues _.
    apply forEach_total. intros collectionValues itemName _.
    destruct (multipleValuesTrue p).
    + apply bind_total; [apply getProp_total|]. intros array _.
      apply bind_total; [apply iterate_total|]. intros items _.
      apply bind_total; [by apply resolveItems_total|]. done.
    + by apply resolveSingle_total.
Qed.

Lemma resolveFixedCollection_total p value root st :
  In p nodePropertiesArray ->
  resolveFixedCollection recurse returnDefaults root p value st <> OutOfFuel.
Proof.
  intros Hp. unfold resolveFixedCollection.
  apply bind_total; [by apply collectValues_total|].
  intros collectionValues _. by destruct (_ || _).
Qed.

Lemma resolveParameter_total st parameterIndex :
  resolveParameter recurse nodePropertiesArray nodeValues
    returnDefaults returnNoneDisplayed onlySimpleTypes nodeValuesRoot parentType
    duplicateParameterNames precomputed st parameterIndex
  <> OutOfFuel.
Proof.
  unfold resolveParameter.
  destruct (nth_error nodePropertiesArray parameterIndex) as [p|] eqn:Hnth; [|done].
  apply nth_error_In in Hnth.
  apply bind_total; [apply getProp_total|]. intros value _.
  destruct (_ && _); [done|].
  destruct (_ && _); [done|].
  destruct (negb (isComplexType (type p))).
  - destruct (_ && _); [done|].
    destruct returnDefaults; [done|]. by destruct (_ || _).
  - destruct onlySimpleTypes; [done|].
    destruct (String.eqb (type p) "collection").
    + by apply resolveCollection_total.
    + by apply resolveFixedCollection_total.
Qed.

End BodyTotal.

(** A call with [onlySimpleTypes] and [dataIsResolved] makes no further
    call. *)
Lemma getNodeParameters_simple_total fuel nodePropertiesArray nodeValues
    returnDefaults returnNoneDisplayed nodeValuesRoot parentType parameterDependencies :
  getNodeParameters (S fuel) nodePropertiesArray nodeValues
    returnDefaults returnNoneDisplayed true true nodeValuesRoot parentType
    parameterDependencies
  <> OutOfFuel.
Proof.
  simpl. apply bind_total; [apply dependencies_total|]. intros dependencies _.
  apply bind_total.
  { apply getParamterResolveOrder_total. }
  intros order _. apply bind_total; [|done].
  apply forEach_total. intros st i _.
  unfold resolveParameter.
  destruct (nth_error nodePropertiesArray i) as [p|]; [|done].
  apply bind_total; [apply getProp_total|]. intros value _.
  destruct (_ && _); [done|].
  destruct (_ && _); [done|].
  destruct (negb (isComplexType (type p))); [|done].
  destruct (_ && _); [done|].
  destruct returnDefaults; [done|]. by destruct (_ || _).
Qed.

Lemma getNodeParameters_total fuel :
  forall nodePropertiesArray nodeValues returnDefaults returnNoneDisplayed
         onlySimpleTypes dataIsResolved nodeValuesRoot parentType parameterDependencies,
    schemaDepth nodePropertiesArray + 2 <= fuel ->
    getNodeParameters fuel nodePropertiesArray nodeValues
      returnDefaults returnNoneDisplayed onlySimpleTypes dataIsResolved
      nodeValuesRoot parentType parameterDependencies
    <> OutOfFuel.
Proof.
  induction fuel as [|fuel IH]; intros arr nodeValues rd rnd os dr root pt deps Hfuel;
    [lia|].
  simpl. apply bind_total; [apply dependencies_total|]. intros dependencies _.
  apply bind_total.
  { destruct (negb dr && negb rnd); [|done].
    apply bind_total; [|done].
    destruct fuel as [|fuel']; [lia|]. apply getNodeParameters_simple_total. }
  intros precomputed _. apply bind_total.
  { apply getParamterResolveOrder_total. }
  intros order _. apply bind_total; [|done].
  apply forEach_total. intros st i _.
  apply resolveParameter_total.
  - done.
  - intros nested value root' parent Hdepth. apply IH. lia.
Qed.

(** C10: a call of [getNodeParameters] ends in an object or in an
    exception; null is never what it returns, so every test
    [tempValue !== null] of a nested result holds. *)
Theorem getNodeParameters_never_null nodePropertiesArray nodeValues
    returnDefaults returnNoneDisplayed onlySimpleTypes dataIsResolved
    nodeValuesRoot parentType parameterDependencies :
  (forall fuel,
     getNodeParameters fuel nodePropertiesArray nodeValues
       returnDefaults returnNoneDisplayed onlySimpleTypes dataIsResolved
       nodeValuesRoot parentType parameterDependencies
     <> Ok VNull)
  /\ ((exists props,
         getNodeParameters (schemaDepth nodePropertiesArray + 2)
           nodePropertiesArray nodeValues
           returnDefaults returnNoneDisplayed onlySimpleTypes dataIsResolved
           nodeValuesRoot parentType parameterDependencies
         = Ok (VObj props))
      \/ (exists e,
            getNodeParameters (schemaDepth nodePropertiesArray + 2)
              nodePropertiesArray nodeValues
              returnDefaults returnNoneDisplayed onlySimpleTypes dataIsResolved
              nodeValuesRoot parentType parameterDependencies
            = Throw e)).
Proof.
  assert (Hobject : forall fuel v,
            getNodeParameters fuel nodePropertiesArray nodeValues
              returnDefaults returnNoneDisplayed onlySimpleTypes dataIsResolved
              nodeValuesRoot parentType parameterDependencies = Ok v ->
            exists props, v = VObj props).
  { intros [|fuel] v; simpl; [done|].
    destruct (match parameterDependencies with Some _ => _ | None => _ end);
      simpl; try done.
    destruct (if negb dataIsResolved && negb returnNoneDisplayed then _ else _);
      simpl; try done.
    destruct (getParamterResolveOrder _ _); simpl; try done.
    destruct (forEach _ _ _); simpl; try done.
    intros [= <-]. eauto. }
  split.
  - intros fuel Hnull. by destruct (Hobject _ _ Hnull).
  - pose proof (getNodeParameters_total (schemaDepth nodePropertiesArray + 2)
                  nodePropertiesArray nodeValues
                  returnDefaults returnNoneDisplayed onlySimpleTypes dataIsResolved
                  nodeValuesRoot parentType parameterDependencies (le_n _)) as Htotal.
    destruct (getNodeParameters _ _ _ _ _ _ _ _ _ _) as [v| |] eqn:Hcall.
    + left. destruct (Hobject _ _ Hcall) as [props ->]. eauto.
    + right. eauto.
    + done.
Qed.

(** ** Unknown alternatives of a fixedCollection *)

Lemma forEach_Ok_In {A S} (body : S -> A -> Result S) xs :
  forall s s' x,
    forEach body xs s = Ok s' -> In x xs ->
    exists s1 s2, body s1 x = Ok s2.
Proof.
  induction xs as [|y xs IH]; intros s s' x Hloop Hin; [done|].
  simpl in Hloop. destruct (body s y) as [s1| |] eqn:Hbody; simpl in Hloop; try done.
  destruct Hin as [->|Hin]; [eauto|]. by eapply IH.
Qed.

Lemma lookupProp_In {A} k (props : list (string * A)) v :
  lookupProp k props = Some v -> In k (map fst props).
Proof.
  induction props as [|[k' v'] props IH]; simpl; [done|].
  destruct (String.eqb_spec k k') as [->|_]; [by left|]. intros H. right. by apply IH.
Qed.

Lemma displayParameter_unconditional nodeValues p nodeValuesRoot :
  displayOptions p = None -> displayParameter nodeValues p nodeValuesRoot = true.
Proof. unfold displayParameter. by intros ->. Qed.

(** A single-valued fixedCollection passes over an alternative it has
    no option for. *)
Lemma resolveSingle_unknown recurse root p opts value itemName collectionValues :
  options p = Some opts ->
  findOption opts itemName = None ->
  resolveSingle recurse root p value itemName collectionValues = Ok collectionValues.
Proof. unfold resolveSingle. by intros -> ->. Qed.

(** C5 (as amended): a fixedCollection with [multipleValues] whose value
    holds, under a name that none of its options has, an array with at
    least one element makes [getNodeParameters] throw, provided the
    property is looked at ([onlySimpleTypes] is off, and hidden
    properties are returned or the property has no display condition).
    Without [multipleValues] the alternative is passed over and nothing
    is thrown for it. *)
Theorem getNodeParameters_unknown_option fuel nodePropertiesArray nodeValues
    returnDefaults returnNoneDisplayed dataIsResolved nodeValuesRoot parentType
    parameterDependencies parameterIndex p opts props itemName first others :
  nth_error nodePropertiesArray parameterIndex = Some p ->
  type p = "fixedCollection" ->
  options p = Some opts ->
  findOption opts itemName = None ->
  getProp nodeValues (name p) = Ok (VObj props) ->
  lookupProp itemName props = Some (VArr (first :: others)) ->
  returnNoneDisplayed = true \/ displayOptions p = None ->
  schemaDepth nodePropertiesArray + 2 <= fuel ->
  (multipleValuesTrue p = true ->
   exists e,
     getNodeParameters fuel nodePropertiesArray nodeValues returnDefaults
       returnNoneDisplayed false dataIsResolved nodeValuesRoot parentType
       parameterDependencies
     = Throw e)
  /\ (multipleValuesTrue p = false ->
      forall recurse root collectionValues,
        resolveSingle recurse root p (VObj props) itemName collectionValues
        = Ok collectionValues).
Proof.
  intros Hnth Htype Hoptions Hfind Hvalue Hitem Hseen Hfuel.
  split; [|intros _ recurse root cv; by eapply resolveSingle_unknown].
  intros Hmulti.
  pose proof (getNodeParameters_total fuel nodePropertiesArray nodeValues returnDefaults
                returnNoneDisplayed false dataIsResolved nodeValuesRoot parentType
                parameterDependencies Hfuel) as Htotal.
  destruct (getNodeParameters _ _ _ _ _ _ _ _ _ _) as [v|e|] eqn:Hcall; [|eauto|done].
  exfalso. destruct fuel as [|fuel]; [done|]. simpl in Hcall.
  destruct (match parameterDependencies with Some _ => _ | None => _ end)
    as [dependencies| |]; simpl in Hcall; try done.
  destruct (if negb dataIsResolved && negb returnNoneDisplayed then _ else _)
    as [precomputed| |]; simpl in Hcall; try done.
  destruct (getParamterResolveOrder _ _) as [order| |] eqn:Horder; simpl in Hcall; try done.
  destruct (forEach _ order _) as [st| |] eqn:Hloop; simpl in Hcall; try done.
  assert (Hin : In parameterIndex order).
  { eapply getParamterResolveOrder_covers; [exact Horder|].
    apply nth_error_Some. by rewrite Hnth. }
  destruct (forEach_Ok_In _ _ _ _ _ Hloop Hin) as (s1 & s2 & Hbody).
  unfold resolveParameter in Hbody. rewrite Hnth, Hvalue in Hbody. simpl in Hbody.
  assert (Hshown : negb returnNoneDisplayed
                   && negb (displayParameter (nodeValuesDisplayCheck precomputed s1) p
                              (currentRoot nodeValuesRoot precomputed s1)) = false).
  { destruct Hseen as [->|Hnone]; [done|].
    rewrite displayParameter_unconditional by done. apply andb_false_r. }
  rewrite Hshown, Htype in Hbody. simpl in Hbody.
  unfold resolveFixedCollection, collectValues in Hbody.
  rewrite andb_false_r in Hbody. simpl in Hbody.
  destruct (forEach _ (map fst props) []) as [cv| |] eqn:Hitems; simpl in Hbody; try done.
  destruct (forEach_Ok_In _ _ _ _ itemName Hitems (lookupProp_In _ _ _ Hitem))
    as (c1 & c2 & Hone).
  rewrite Hmulti in Hone. simpl in Hone. rewrite Hitem in Hone. simpl in Hone.
  unfold resolveItems in Hone. simpl in Hone.
  by rewrite Hoptions, Hfind in Hone.
Qed.

(** ** What the main loop writes *)

Lemma lookupProp_setProp_eq {A} k (v : A) props :
  lookupProp k (setProp k v props) = Some v.
Proof.
  induction props as [|[k' v'] props IH]; simpl.
  - by rewrite String.eqb_refl.
  - destruct (String.eqb_spec k k') as [->|Hne]; simpl.
    + by rewrite String.eqb_refl.
    + destruct (String.eqb_spec k k'); [done|]. apply IH.
Qed.

Lemma lookupProp_setProp_ne {A} k k' (v : A) props :
  k <> k' -> lookupProp k' (setProp k v props) = lookupProp k' props.
Proof.
  intros Hne. induction props as [|[k0 v0] props IH]; simpl.
  - destruct (String.eqb_spec k' k); [congruence|done].
  - destruct (String.eqb_spec k k0) as [->|Hk0]; simpl.
    + destruct (String.eqb_spec k' k0); [congruence|done].
    + destruct (String.eqb_spec k' k0); [done|]. apply IH.
Qed.


Lemma lookupProp_assignProp_ne k k' v props :
  k <> k' -> lookupProp k' (assignProp k v props) = lookupProp k' props.
Proof.
  intros Hne. unfold assignProp.
  destruct (String.eqb k "__proto__"); [done|]. by apply lookupProp_setProp_ne.
Qed.

Lemma assignProp_proto v props : assignProp "__proto__" v props = props.
Proof. done. Qed.

Lemma forEach_invariant {A S} (body : S -> A -> Result S) (P : S -> Prop) xs :
  (forall s x s', In x xs -> P s -> body s x = Ok s' -> P s') ->
  forall s s', P s -> forEach body xs s = Ok s' -> P s'.
Proof.
  induction xs as [|y xs IH]; intros Hstep s s' Hs Hloop; simpl in Hloop.
  - by injection Hloop as <-.
  - destruct (body s y) as [s1| |] eqn:Hbody; simpl in Hloop; try done.
    apply (IH (fun s x s' Hx => Hstep s x s' (or_intror Hx)) s1 s'); [|done].
    apply (Hstep s y s1); auto. by left.
Qed.

Lemma forEach_establishes {A S} (body : S -> A -> Result S) (Q : S -> Prop) xs x :
  In x xs ->
  (forall s y s', In y xs -> Q s -> body s y = Ok s' -> Q s') ->
  (forall s s', body s x = Ok s' -> Q s') ->
  forall s s', forEach body xs s = Ok s' -> Q s'.
Proof.
  induction xs as [|y xs IH]; intros Hin Hkeep Hset s s' Hloop; [done|].
  simpl in Hloop.
  destruct (body s y) as [s1| |] eqn:Hbody; simpl in Hloop; try done.
  destruct Hin as [->|Hin].
  - apply (forEach_invariant body Q xs
             (fun s x s' Hx => Hkeep s x s' (or_intror Hx)) s1 s'); [|done].
    by apply (Hset s s1).
  - apply (IH Hin (fun s x s' Hx => Hkeep s x s' (or_intror Hx)) Hset s1 s' Hloop).
Qed.



Section BodyWrites.

Variable recurse :
  option (list INodeProperties) -> Value -> Value -> option string -> Result Value.
Variable nodePropertiesArray : list INodeProperties.
Variable nodeValues : Value.
Variables returnDefaults returnNoneDisplayed onlySimpleTypes : bool.
Variable nodeValuesRoot : Value.
Variable parentType : option string.
Variable duplicateParameterNames : list string.
Variable precomputed : option Value.

Let body :=
  resolveParameter recurse nodePropertiesArray nodeValues
    returnDefaults returnNoneDisplayed onlySimpleTypes nodeValuesRoot parentType
    duplicateParameterNames precomputed.

(** A turn of the loop writes under the name of its property and
    nowhere else. *)
Lemma resolveParameter_frame st parameterIndex st' q k :
  body st parameterIndex = Ok st' ->
  nth_error nodePropertiesArray parameterIndex = Some q ->
  k <> name q ->
  lookupProp k (nodeParameters st') = lookupProp k (nodeParameters st).
Proof.
  unfold body, resolveParameter. intros Hbody Hnth Hk. rewrite Hnth in Hbody.
  assert (Hne : name q <> k) by congruence.
  destruct (getProp nodeValues (name q)) as [value| |]; simpl in Hbody; try done.
  destruct (_ && _); [by injection Hbody as <-|].
  destruct (_ && _); [by injection Hbody as <-|].
  destruct (negb (isComplexType (type q))).
  { destruct (_ && _); [by injection Hbody as <-|].
    destruct returnDefaults.
    - injection Hbody as <-. simpl. by apply lookupProp_assignProp_ne.
    - destruct (_ || _); injection Hbody as <-; [|done].
      simpl. by apply lookupProp_assignProp_ne. }
  destruct onlySimpleTypes; [by injection Hbody as <-|].
  destruct (String.eqb (type q) "collection").
  - unfold resolveCollection in Hbody.
    destruct (multipleValuesTrue q).
    + destruct (negb (isUndefined value)); simpl in Hbody.
      * injection Hbody as <-. simpl. by apply lookupProp_assignProp_ne.
      * destruct returnDefaults; simpl in Hbody.
        -- destruct (default q) eqn:Hdefault; unfold jsonClone in Hbody;
             simpl in Hbody;
             injection Hbody as <-; simpl; by apply lookupProp_assignProp_ne.
        -- destruct (lookupProp (name q) (nodeParameters st));
             simpl in Hbody; by injection Hbody as <-.
    + destruct (negb (isUndefined value)).
      * destruct (recurse _ _ _ _) as [temp| |]; simpl in Hbody; try done.
        destruct temp; injection Hbody as <-; try done;
          simpl; by apply lookupProp_assignProp_ne.
      * destruct returnDefaults; [|by injection Hbody as <-].
        destruct (jsonClone _); simpl in Hbody; try done.
        injection Hbody as <-. simpl. by apply lookupProp_assignProp_ne.
  - unfold resolveFixedCollection in Hbody.
    destruct (collectValues _ _ _ _ _); simpl in Hbody; try done.
    destruct (_ || _); injection Hbody as <-; [|done].
    simpl. by apply lookupProp_assignProp_ne.
Qed.


End BodyWrites.





(** ** Resolving with defaults, twice *)

Lemma forEach_ext {A S} (body1 body2 : S -> A -> Result S) xs :
  (forall s x, In x xs -> body1 s x = body2 s x) ->
  forall s, forEach body1 xs s = forEach body2 xs s.
Proof.
  induction xs as [|y xs IH]; intros Hext s; simpl; [done|].
  rewrite (Hext s y) by (by left).
  destruct (body2 s y); simpl; try done.
  apply IH. intros s' x Hx. apply Hext. by right.
Qed.


(** With defaults and hidden properties returned, a turn is
    [turnResult] followed by [applyTurn], unless it is the turn of a
    hidden property that shares its name. *)
Lemma resolveParameter_turn_shared recurse nodePropertiesArray nodeValues onlySimpleTypes
    nodeValuesRoot parentType duplicateParameterNames st parameterIndex :
  resolveParameter recurse nodePropertiesArray nodeValues true true onlySimpleTypes
    nodeValuesRoot parentType duplicateParameterNames None st parameterIndex
  = match nth_error nodePropertiesArray parameterIndex with
    | None => Throw TypeError
    | Some p =>
        let* value := getProp nodeValues (name p) in
        let* w := turnResult recurse true onlySimpleTypes parentType
                    (currentRoot nodeValuesRoot None st) p value in
        Ok (if hiddenDuplicate nodeValuesRoot duplicateParameterNames st p
            then st else applyTurn (name p) w st)
    end.
Proof.
  unfold resolveParameter, hiddenDuplicate.
  destruct (nth_error nodePropertiesArray parameterIndex) as [p|]; [|done].
  destruct (getProp nodeValues (name p)) as [value| |]; simpl; try done.
  unfold turnResult.
  destruct (isUndefined value && isCollectionParent parentType).
  { simpl. by destruct (_ && _). }
  destruct (negb (isComplexType (type p))); simpl.
  { by destruct (_ && _). }
  destruct onlySimpleTypes; [done|].
  destruct (String.eqb (type p) "collection").
  - unfold resolveCollection, collectionResult.
    destruct (multipleValuesTrue p).
    + destruct (negb (isUndefined value)); simpl; [done|].
      destruct (default p); unfold jsonClone; simpl; done.
    + destruct (negb (isUndefined value)).
      * destruct (recurse _ _ _ _) as [temp| |]; simpl; try done. by destruct temp.
      * by destruct (jsonClone _).
  - unfold resolveFixedCollection.
    destruct (collectValues _ _ _ _ _); simpl; try done.
    by rewrite orb_true_r.
Qed.

(** With defaults and hidden properties returned, a turn for a property
    whose name is not a duplicate is [turnResult] followed by
    [applyTurn]. *)
Lemma resolveParameter_turn recurse nodePropertiesArray nodeValues onlySimpleTypes
    nodeValuesRoot parentType duplicateParameterNames st parameterIndex :
  (forall p, nth_error nodePropertiesArray parameterIndex = Some p ->
             existsb (String.eqb (name p)) duplicateParameterNames = false) ->
  resolveParameter recurse nodePropertiesArray nodeValues true true onlySimpleTypes
    nodeValuesRoot parentType duplicateParameterNames None st parameterIndex
  = match nth_error nodePropertiesArray parameterIndex with
    | None => Throw TypeError
    | Some p =>
        let* value := getProp nodeValues (name p) in
        let* w := turnResult recurse true onlySimpleTypes parentType
                    (currentRoot nodeValuesRoot None st) p value in
        Ok (applyTurn (name p) w st)
    end.
Proof.
  intros Hdup. rewrite resolveParameter_turn_shared.
  destruct (nth_error nodePropertiesArray parameterIndex) as [p|]; [|done].
  unfold hiddenDuplicate. rewrite (Hdup p eq_refl), andb_false_r. done.
Qed.

(** *** Property lists *)

Lemma setProp_keys {A} k (v : A) props :
  map fst (setProp k v props)
  = if existsb (String.eqb k) (map fst props)
    then map fst props else map fst props ++ [k].
Proof.
  induction props as [|[k' v'] props IH]; simpl; [done|].
  destruct (String.eqb_spec k k') as [->|Hne]; simpl; [done|].
  rewrite IH. by destruct (existsb (String.eqb k) (map fst props)).
Qed.

Lemma existsb_eqb_In k (l : list string) :
  existsb (String.eqb k) l = true <-> In k l.
Proof.
  rewrite existsb_exists. split.
  - intros (x & Hx & Heq). apply String.eqb_eq in Heq. by subst.
  - intros Hk. exists k. split; [done|]. apply String.eqb_refl.
Qed.

Lemma setProp_NoDup {A} k (v : A) props :
  NoDup (map fst props) -> NoDup (map fst (setProp k v props)).
Proof.
  intros Hnodup. rewrite setProp_keys.
  destruct (existsb (String.eqb k) (map fst props)) eqn:Hk; [done|].
  apply NoDup_app. split; [done|]. split.
  - intros x Hx [->|[]]%list_elem_of_In.
    apply list_elem_of_In, existsb_eqb_In in Hx. congruence.
  - apply NoDup_singleton.
Qed.




Lemma assignProp_NoDup k (v : Value) props :
  NoDup (map fst props) /\ ~ In "__proto__" (map fst props) ->
  NoDup (map fst (assignProp k v props))
  /\ ~ In "__proto__" (map fst (assignProp k v props)).
Proof.
  intros [Hnodup Hproto]. unfold assignProp.
  destruct (String.eqb_spec k "__proto__") as [->|Hne]; [done|].
  split; [by apply setProp_NoDup|].
  rewrite setProp_keys. destruct (existsb _ _); [done|].
  rewrite in_app_iff. intros [?|[?|[]]]; [done|]. by apply Hne.
Qed.


(** A turn leaves [nodeParameters] alone or assigns one property of it. *)
Lemma resolveParameter_shape recurse nodePropertiesArray nodeValues
    returnDefaults returnNoneDisplayed onlySimpleTypes nodeValuesRoot parentType
    duplicateParameterNames precomputed st parameterIndex st' :
  resolveParameter recurse nodePropertiesArray nodeValues
    returnDefaults returnNoneDisplayed onlySimpleTypes nodeValuesRoot parentType
    duplicateParameterNames precomputed st parameterIndex = Ok st' ->
  nodeParameters st' = nodeParameters st
  \/ exists k v, nodeParameters st' = assignProp k v (nodeParameters st).
Proof.
  unfold resolveParameter. intros Hbody.
  destruct (nth_error nodePropertiesArray parameterIndex) as [q|]; [|done].
  destruct (getProp nodeValues (name q)) as [value| |]; simpl in Hbody; try done.
  destruct (_ && _); [injection Hbody as <-; by left|].
  destruct (_ && _); [injection Hbody as <-; by left|].
  destruct (negb (isComplexType (type q))).
  { destruct (_ && _); [injection Hbody as <-; by left|].
    destruct returnDefaults.
    - injection Hbody as <-. right. simpl. eauto.
    - destruct (_ || _); injection Hbody as <-; [|by left].
      right. simpl. eauto. }
  destruct onlySimpleTypes; [injection Hbody as <-; by left|].
  destruct (String.eqb (type q) "collection").
  - unfold resolveCollection in Hbody.
    destruct (multipleValuesTrue q).
    + destruct (negb (isUndefined value)); simpl in Hbody.
      * injection Hbody as <-. right. simpl. eauto.
      * destruct returnDefaults; simpl in Hbody.
        -- destruct (default q) eqn:Hdefault; unfold jsonClone in Hbody;
             simpl in Hbody; injection Hbody as <-; right; simpl; eauto.
        -- destruct (lookupProp (name q) (nodeParameters st));
             simpl in Hbody; injection Hbody as <-; by left.
    + destruct (negb (isUndefined value)).
      * destruct (recurse _ _ _ _) as [temp| |]; simpl in Hbody; try done.
        destruct temp; injection Hbody as <-; try (by left); right; simpl; eauto.
      * destruct returnDefaults; [|injection Hbody as <-; by left].
        destruct (jsonClone _); simpl in Hbody; try done.
        injection Hbody as <-. right. simpl. eauto.
  - unfold resolveFixedCollection in Hbody.
    destruct (collectValues _ _ _ _ _); simpl in Hbody; try done.
    destruct (_ || _); injection Hbody as <-; [|by left].
    right. simpl. eauto.
Qed.

(** What [getNodeParameters] returns is an object that has each name
    once, and no property [__proto__] of its own. *)
Lemma getNodeParameters_plain fuel nodePropertiesArray nodeValues
    returnDefaults returnNoneDisplayed onlySimpleTypes dataIsResolved
    nodeValuesRoot parentType parameterDependencies tree :
  getNodeParameters fuel nodePropertiesArray nodeValues
    returnDefaults returnNoneDisplayed onlySimpleTypes dataIsResolved
    nodeValuesRoot parentType parameterDependencies = Ok tree ->
  exists props,
    tree = VObj props /\ NoDup (map fst props) /\ ~ In "__proto__" (map fst props).
Proof.
  destruct fuel as [|fuel]; [done|]. simpl. intros Hcall.
  destruct (match parameterDependencies with Some _ => _ | None => _ end)
    as [dependencies| |]; simpl in Hcall; try done.
  destruct (if negb dataIsResolved && negb returnNoneDisplayed then _ else _)
    as [precomputed| |]; simpl in Hcall; try done.
  destruct (getParamterResolveOrder _ _) as [order| |]; simpl in Hcall; try done.
  destruct (forEach _ order _) as [st| |] eqn:Hloop; simpl in Hcall; try done.
  injection Hcall as <-. exists (nodeParameters st). split; [done|].
  refine (forEach_invariant _
            (fun s => NoDup (map fst (nodeParameters s))
                      /\ ~ In "__proto__" (map fst (nodeParameters s)))
            order _ _ _ _ Hloop); [|split; [apply NoDup_nil_2|by intros []]].
  intros s i s' _ Hs Hbody.
  apply resolveParameter_shape in Hbody as [->|(k & v & ->)]; [done|].
  by apply assignProp_NoDup.
Qed.

Lemma getNodeParameters_object fuel nodePropertiesArray nodeValues
    returnDefaults returnNoneDisplayed onlySimpleTypes dataIsResolved
    nodeValuesRoot parentType parameterDependencies tree :
  getNodeParameters fuel nodePropertiesArray nodeValues
    returnDefaults returnNoneDisplayed onlySimpleTypes dataIsResolved
    nodeValuesRoot parentType parameterDependencies = Ok tree ->
  exists props, tree = VObj props /\ NoDup (map fst props).
Proof.
  intros Hcall. apply getNodeParameters_plain in Hcall as (props & ? & ? & _).
  by exists props.
Qed.


Lemma forEach_skip {A S} (body : S -> A -> Result S) xs s :
  (forall x, In x xs -> body s x = Ok s) -> forEach body xs s = Ok s.
Proof.
  induction xs as [|y xs IH]; intros Hskip; simpl; [done|].
  rewrite (Hskip y) by (by left). simpl. apply IH. intros x Hx. apply Hskip. by right.
Qed.

Lemma resolveLoop_valid nodePropertiesArray parameterDependencies fuel :
  forall st order,
    resolveLoop fuel nodePropertiesArray parameterDependencies st = Ok order ->
    (forall i, In i (executionOrder st) -> nth_error nodePropertiesArray i <> None) ->
    forall i, In i order -> nth_error nodePropertiesArray i <> None.
Proof.
  induction fuel as [|fuel IH]; intros st order Hloop Hvalid; simpl in Hloop.
  - destruct (indexToResolve st); [|done]. by injection Hloop as <-.
  - destruct (indexToResolve st) as [|index queue]; [by injection Hloop as <-|].
    destruct (resolveStep nodePropertiesArray parameterDependencies st index queue)
      as [st'| |] eqn:Hstep; simpl in Hloop; try done.
    apply (IH st' order Hloop).
    apply resolveStep_Ok in Hstep as (p & dl & Hnth & _ & Hexec & _).
    intros i. rewrite Hexec, in_app_iff. intros [Hold|[<-|[]]]; [by apply Hvalid|].
    by rewrite Hnth.
Qed.

Lemma getParamterResolveOrder_valid nodePropertiesArray parameterDependencies order i :
  getParamterResolveOrder nodePropertiesArray parameterDependencies = Ok order ->
  In i order -> nth_error nodePropertiesArray i <> None.
Proof.
  intros Horder. eapply resolveLoop_valid; [exact Horder|]. by intros j [].
Qed.

(** *** Equal values *)



(** *** The second pass *)



Section Twice.

Variable recurse :
  option (list INodeProperties) -> Value -> Value -> option string -> Result Value.
Variable accept : list INodeProperties -> Value -> Value -> option string -> bool.

Hypothesis recurse_object :
  forall nested value root parent tree,
    recurse nested value root parent = Ok tree ->
    exists props,
      tree = VObj props /\ NoDup (map fst props) /\ ~ In "__proto__" (map fst props).
Hypothesis recurse_twice :
  forall nested value root parent tree,
    accept nested value root parent = true ->
    recurse (Some nested) value root parent = Ok tree ->
    recurse (Some nested) tree root parent = Ok tree.


Variable parentType : option string.

(** The calls a fixedCollection makes. *)
Section Fixed.

Variable p : INodeProperties.




End Fixed.



End Twice.

(** *** The induction *)





(** ** displayParameter without expressions *)

Lemma showLoop_matches nodeValues nodeValuesRoot show :
  forallb (fun rule =>
             negb (existsb isExpression
                     (resolveValues nodeValues nodeValuesRoot (fst rule)))) show = true ->
  showLoop nodeValues nodeValuesRoot show
  = if forallb (ruleMatches nodeValues nodeValuesRoot) show then None else Some false.
Proof.
  induction show as [|[propertyName accepted] rest IH]; simpl; [done|].
  intros Hplain. apply andb_prop in Hplain as [Hhead Hrest].
  apply negb_true_iff in Hhead. rewrite Hhead.
  unfold ruleMatches at 1. simpl.
  destruct (length (resolveValues nodeValues nodeValuesRoot propertyName) =? 0);
    simpl; [done|].
  destruct (existsb _ accepted); simpl; [by apply IH|done].
Qed.

Lemma hideLoop_matches nodeValues nodeValuesRoot hide :
  hideLoop nodeValues nodeValuesRoot hide
  = if forallb (fun rule => negb (ruleMatches nodeValues nodeValuesRoot rule)) hide
    then None else Some false.
Proof.
  induction hide as [|[propertyName rejected] rest IH]; simpl; [done|].
  unfold ruleMatches at 1. simpl.
  destruct (negb _ && _); simpl; [done|apply IH].
Qed.

(** X1: when none of the values that the show rules look at is an
    expression, a parameter is displayed exactly when every show rule
    matches and no hide rule does.  A rule matches when the values of
    its property are not the empty array and one of the values it lists
    is among them; a parameter without display options is displayed. *)
Theorem displayParameter_rules nodeValues parameter nodeValuesRoot :
  forallb (fun rule =>
             negb (existsb isExpression
                     (resolveValues nodeValues (jsOr nodeValuesRoot nodeValues)
                        (fst rule))))
          (rulesOf "show" parameter) = true ->
  displayParameter nodeValues parameter nodeValuesRoot
  = forallb (ruleMatches nodeValues (jsOr nodeValuesRoot nodeValues))
            (rulesOf "show" parameter)
    && forallb (fun rule =>
                  negb (ruleMatches nodeValues (jsOr nodeValuesRoot nodeValues) rule))
               (rulesOf "hide" parameter).
Proof.
  unfold displayParameter, rulesOf.
  destruct (displayOptions parameter) as [display|]; [|done].
  intros Hplain.
  assert (Hshow : match lookupProp "show" display with
                  | Some show => showLoop nodeValues (jsOr nodeValuesRoot nodeValues) show
                  | None => None
                  end
                  = if forallb (ruleMatches nodeValues (jsOr nodeValuesRoot nodeValues))
                         match lookupProp "show" display with
                         | Some rules => rules
                         | None => []
                         end
                    then None else Some false).
  { destruct (lookupProp "show" display) as [show|]; [|done].
    by apply showLoop_matches. }
  rewrite Hshow.
  destruct (forallb (ruleMatches _ _) _); simpl; [|done].
  destruct (lookupProp "hide" display) as [hide|]; [|done].
  rewrite hideLoop_matches. by destruct (forallb _ hide).
Qed.

(** ** What getParamterDependencies collects *)

Lemma pushIfNew_fold added : forall names,
  NoDup names ->
  NoDup (fold_left pushIfNew added names)
  /\ forall d, In d (fold_left pushIfNew added names) <-> In d names \/ In d added.
Proof.
  induction added as [|x added IH]; intros names Hnodup; simpl.
  - split; [done|]. intros d. tauto.
  - assert (Hstep : NoDup (pushIfNew names x)
                    /\ forall d, In d (pushIfNew names x) <-> In d names \/ d = x).
    { unfold pushIfNew. destruct (existsb (String.eqb x) names) eqn:Hhas.
      - split; [done|]. intros d. split; [tauto|].
        intros [Hd| ->]; [done|].
        apply existsb_exists in Hhas as (y & Hy & Heq).
        apply String.eqb_eq in Heq. by subst.
      - split.
        + apply NoDup_app. split; [done|]. split; [|apply NoDup_singleton].
          intros y Hy Hx. apply list_elem_of_singleton in Hx as ->.
          apply list_elem_of_In in Hy.
          assert (existsb (String.eqb x) names = true); [|congruence].
          apply existsb_exists. exists x. by rewrite String.eqb_refl.
        + intros d. rewrite in_app_iff. simpl. intuition congruence. }
    destruct Hstep as [Hnodup' Hin'].
    destruct (IH _ Hnodup') as [Hdone Hin].
    split; [done|]. intros d. rewrite Hin, Hin'. intuition congruence.
Qed.

Lemma lookupProp_setProp {A} k k' (v : A) props :
  lookupProp k' (setProp k v props)
  = if String.eqb k' k then Some v else lookupProp k' props.
Proof.
  destruct (String.eqb_spec k' k) as [->|Hne].
  - apply lookupProp_setProp_eq.
  - apply lookupProp_setProp_ne. congruence.
Qed.

Lemma forEach_snoc {A S} (body : S -> A -> Result S) xs x :
  forall s, forEach body (xs ++ [x]) s = let* s' := forEach body xs s in body s' x.
Proof.
  induction xs as [|y xs IH]; intros s; simpl.
  - by destruct (body s x).
  - destruct (body s y); simpl; [apply IH|done|done].
Qed.

(** What [getParamterDependencies] does with a list of properties.  When
    it returns, the table has an entry for exactly the names of the
    properties that are not names of members of [Object.prototype]; an
    entry is without repetitions and made of the names in the display
    rules of the properties of that name. *)
Lemma getParamterDependencies_table nodePropertiesArray :
  match getParamterDependencies nodePropertiesArray with
  | Ok table =>
      (forall q, In q nodePropertiesArray -> onObjectPrototype (name q) = true ->
                 dependencyNames q = [])
      /\ forall parameterName,
           match lookupProp parameterName table with
           | Some names =>
               In parameterName (map name nodePropertiesArray)
               /\ onObjectPrototype parameterName = false
               /\ NoDup names
               /\ forall d, In d names
                            <-> exists q, In q nodePropertiesArray
                                          /\ name q = parameterName
                                          /\ In d (dependencyNames q)
           | None =>
               ~ In parameterName (map name nodePropertiesArray)
               \/ onObjectPrototype parameterName = true
           end
  | Throw e =>
      e = TypeError
      /\ exists q, In q nodePropertiesArray
                   /\ onObjectPrototype (name q) = true
                   /\ dependencyNames q <> []
  | OutOfFuel => False
  end.
Proof.
  unfold getParamterDependencies.
  induction nodePropertiesArray as [|p seen IH] using rev_ind.
  { simpl. split; [by intros q []|]. intros k. left. by intros []. }
  rewrite forEach_snoc.
  destruct (forEach _ seen []) as [table|e|]; cbn [bind]; [| |done].
  2: { destruct IH as (-> & q & Hq & Hproto & Hdeps). split; [done|].
       exists q. rewrite in_app_iff. auto. }
  destruct IH as [Hplain Htable].
  (* a property without dependency names leaves the other entries alone *)
  assert (Hkeep : dependencyNames p = [] ->
            forall k,
              k <> name p ->
              match lookupProp k table with
              | Some names =>
                  In k (map name (seen ++ [p]))
                  /\ onObjectPrototype k = false
                  /\ NoDup names
                  /\ forall d, In d names
                               <-> exists q, In q (seen ++ [p])
                                             /\ name q = k
                                             /\ In d (dependencyNames q)
              | None => ~ In k (map name (seen ++ [p])) \/ onObjectPrototype k = true
              end).
  { intros _ k Hk. pose proof (Htable k) as Hentry.
    destruct (lookupProp k table) as [names|].
    - destruct Hentry as (Hseen & Hno & Hnodup & Hin).
      split; [rewrite map_app, in_app_iff; by left|].
      split; [done|]. split; [done|]. intros d. rewrite Hin. split.
      + intros (q & Hq & Hname & Hd). exists q. rewrite in_app_iff. auto.
      + intros (q & Hq & Hname & Hd). apply in_app_iff in Hq as [Hq|[<-|[]]];
          [eauto|congruence].
    - destruct Hentry as [Hnot|Hproto]; [|by right].
      left. rewrite map_app, in_app_iff. simpl. intuition congruence. }
  assert (Hother : forall k,
            k <> name p ->
            match lookupProp k table with
            | Some names =>
                In k (map name (seen ++ [p]))
                /\ onObjectPrototype k = false
                /\ NoDup names
                /\ forall d, In d names
                             <-> exists q, In q (seen ++ [p])
                                           /\ name q = k
                                           /\ In d (dependencyNames q)
            | None => ~ In k (map name (seen ++ [p])) \/ onObjectPrototype k = true
            end).
  { intros k Hk. pose proof (Htable k) as Hentry.
    destruct (lookupProp k table) as [names|].
    - destruct Hentry as (Hseen & Hno & Hnodup & Hin).
      split; [rewrite map_app, in_app_iff; by left|].
      split; [done|]. split; [done|]. intros d. rewrite Hin. split.
      + intros (q & Hq & Hname & Hd). exists q. rewrite in_app_iff. auto.
      + intros (q & Hq & Hname & Hd). apply in_app_iff in Hq as [Hq|[<-|[]]];
          [eauto|congruence].
    - destruct Hentry as [Hnot|Hproto]; [|by right].
      left. rewrite map_app, in_app_iff. simpl. intuition congruence. }
  clear Hkeep.
  pose proof (Htable (name p)) as Hentry.
  destruct (onObjectPrototype (name p)) eqn:Hp.
  - (* the name of a member of Object.prototype: no entry *)
    destruct (lookupProp (name p) table) as [names|] eqn:Hlook.
    { destruct Hentry as (_ & Hno & _). congruence. }
    assert (Hdone : dependencyNames p = [] ->
              (forall q, In q (seen ++ [p]) -> onObjectPrototype (name q) = true ->
                         dependencyNames q = [])
              /\ forall k,
                   match lookupProp k table with
                   | Some names =>
                       In k (map name (seen ++ [p]))
                       /\ onObjectPrototype k = false
                       /\ NoDup names
                       /\ forall d, In d names
                                    <-> exists q, In q (seen ++ [p])
                                                  /\ name q = k
                                                  /\ In d (dependencyNames q)
                   | None =>
                       ~ In k (map name (seen ++ [p])) \/ onObjectPrototype k = true
                   end).
    { intros Hnone. split.
      - intros q [Hq|[<-|[]]]%in_app_iff; [by apply Hplain|done].
      - intros k. destruct (decide (k = name p)) as [->|Hne]; [|by apply Hother].
        rewrite Hlook. by right. }
    unfold dependencyNames in Hdone |- *.
    destruct (displayOptions p) as [display|] eqn:Hdisplay; [|by apply Hdone].
    rewrite Hlook.
    destruct (flat_map (fun rule => map fst (snd rule)) display) as [|d ds] eqn:Hnames;
      [by apply Hdone|].
    split; [done|]. exists p. rewrite in_app_iff. simpl.
    split; [auto|]. split; [done|]. unfold dependencyNames.
    by rewrite Hdisplay, Hnames.
  - (* any other name: an entry, made when there was none *)
    set (table1 := match lookupProp (name p) table with
                   | Some _ => table
                   | None => setProp (name p) [] table
                   end).
    assert (Hcurrent : exists current,
               lookupProp (name p) table1 = Some current
               /\ NoDup current
               /\ (forall d, In d current
                             <-> exists q, In q seen /\ name q = name p
                                           /\ In d (dependencyNames q))
               /\ forall k', k' <> name p -> lookupProp k' table1 = lookupProp k' table).
    { unfold table1.
      destruct (lookupProp (name p) table) as [names|] eqn:Hlook.
      - exists names. rewrite Hlook. destruct Hentry as (_ & _ & Hnodup & Hin). done.
      - exists []. rewrite lookupProp_setProp_eq. split; [done|].
        split; [constructor|]. split.
        + intros d. split; [done|]. intros (q & Hq & Hname & _).
          destruct Hentry as [Hnot|?]; [|done].
          apply Hnot. rewrite <- Hname. by apply in_map.
        + intros k' Hk'. apply lookupProp_setProp_ne. congruence. }
    destruct Hcurrent as (current & Hlook & Hnodup & Hin & Hsame).
    assert (Hfinal :
              exists final,
                match displayOptions p with
                | Some display =>
                    match lookupProp (name p) table1 with
                    | Some current =>
                        Ok (setProp (name p)
                              (fold_left pushIfNew
                                 (flat_map (fun rule => map fst (snd rule)) display)
                                 current) table1)
                    | None =>
                        match flat_map (fun rule => map fst (snd rule)) display with
                        | [] => Ok table1
                        | _ :: _ => Throw TypeError
                        end
                    end
                | None => Ok table1
                end = Ok final
                /\ forall k,
                     lookupProp k final
                     = if String.eqb k (name p)
                       then Some (fold_left pushIfNew (dependencyNames p) current)
                       else lookupProp k table).
    { unfold dependencyNames. rewrite Hlook.
      destruct (displayOptions p) as [display|].
      - eexists. split; [done|]. intros k. rewrite lookupProp_setProp.
        destruct (String.eqb_spec k (name p)) as [->|Hne]; [done|]. by apply Hsame.
      - eexists. split; [done|]. intros k.
        destruct (String.eqb_spec k (name p)) as [->|Hne]; [by rewrite Hlook|].
        by apply Hsame. }
    destruct Hfinal as (final & Hresult & Hfinal).
    replace (match lookupProp (name p) table with
             | Some _ => table
             | None => setProp (name p) [] table
             end) with table1 by done.
    rewrite Hresult.
    split.
    { intros q [Hq|[<-|[]]]%in_app_iff; [by apply Hplain|congruence]. }
    intros k. rewrite Hfinal.
    destruct (String.eqb_spec k (name p)) as [->|Hne]; [|by apply Hother].
    destruct (pushIfNew_fold (dependencyNames p) current Hnodup) as [Hdone Hall].
    split; [rewrite map_app, in_app_iff; right; by left|].
    split; [done|]. split; [done|]. intros d. rewrite Hall, Hin. split.
    + intros [(q & Hq & Hname & Hd)|Hd].
      * exists q. rewrite in_app_iff. auto.
      * exists p. rewrite in_app_iff. simpl. auto.
    + intros (q & Hq & Hname & Hd). apply in_app_iff in Hq as [Hq|[<-|[]]].
      * left. eauto.
      * by right.
Qed.

(** X2: [getParamterDependencies] returns a table or throws a
    TypeError.  The table has an entry for the name of every property,
    except under the names of the members of [Object.prototype], for
    which it has none.  An entry lists, each once, the property names
    that occur in the display rules of the properties with that name,
    under whatever key of [displayOptions].  The TypeError is thrown
    when, and only when, a property named like a member of
    [Object.prototype] has a display rule that names a property. *)
Theorem getParamterDependencies_entries nodePropertiesArray :
  match getParamterDependencies nodePropertiesArray with
  | Ok table =>
      (forall q, In q nodePropertiesArray -> onObjectPrototype (name q) = true ->
                 dependencyNames q = [])
      /\ forall p,
           In p nodePropertiesArray ->
           if onObjectPrototype (name p)
           then lookupProp (name p) table = None
           else exists names,
                  lookupProp (name p) table = Some names
                  /\ NoDup names
                  /\ forall d, In d names
                               <-> exists q, In q nodePropertiesArray
                                             /\ name q = name p
                                             /\ In d (dependencyNames q)
  | Throw e =>
      e = TypeError
      /\ exists q, In q nodePropertiesArray
                   /\ onObjectPrototype (name q) = true
                   /\ dependencyNames q <> []
  | OutOfFuel => False
  end.
Proof.
  pose proof (getParamterDependencies_table nodePropertiesArray) as Htable.
  destruct (getParamterDependencies nodePropertiesArray) as [table|e|]; try done.
  destruct Htable as [Hplain Htable]. split; [done|].
  intros p Hp. specialize (Htable (name p)).
  destruct (lookupProp (name p) table) as [names|].
  - destruct Htable as (_ & Hno & Hnodup & Hin). rewrite Hno. by exists names.
  - destruct Htable as [Hnot|Hyes]; [|by rewrite Hyes]. destruct Hnot. by apply in_map.
Qed.

(** ** More on what getParamterResolveOrder returns *)

(** The exceptions of the loop: the one it throws itself, and the
    TypeError of a property whose name has no entry in the table and
    gives nothing with length 0 there. *)
Lemma resolveLoop_throws nodePropertiesArray parameterDependencies fuel :
  forall st e,
    (forall i, In i (indexToResolve st) -> i < length nodePropertiesArray) ->
    resolveLoop fuel nodePropertiesArray parameterDependencies st = Throw e ->
    e = maxItterations
    \/ (e = TypeError
        /\ exists p, In p nodePropertiesArray
                     /\ lookupProp (name p) parameterDependencies = None
                     /\ parameterless (name p) = false).
Proof.
  induction fuel as [|fuel IH]; intros st e Hqueue Hloop; simpl in Hloop.
  - by destruct (indexToResolve st).
  - destruct (indexToResolve st) as [|index queue] eqn:Hq; [done|].
    destruct (resolveStep nodePropertiesArray parameterDependencies st index queue)
      as [st'|e'|] eqn:Hstep; simpl in Hloop; try done.
    + apply (IH st' e); [|done].
      apply resolveStep_Ok in Hstep as (p & dl & Hnth & _ & _ & _ & _ & Hq' & _).
      intros i. rewrite Hq', in_app_iff. intros [Hi|Hi].
      * apply Hqueue. by right.
      * apply repeat_spec in Hi as ->. apply Hqueue. by left.
    + injection Hloop as <-.
      unfold resolveStep, tableEntry in Hstep.
      destruct (nth_error nodePropertiesArray index) as [p|] eqn:Hnth.
      * destruct (lookupProp (name p) parameterDependencies) as [[|d ds]|] eqn:Hlook.
        -- done.
        -- destruct (_ <? _)%Z; [|done]. injection Hstep as <-. by left.
        -- destruct (parameterless (name p)) eqn:Hless; [done|].
           injection Hstep as <-. right. split; [done|].
           exists p. split; [by eapply nth_error_In|done].
      * apply nth_error_None in Hnth.
        assert (index < length nodePropertiesArray) by (apply Hqueue; by left). lia.
Qed.

(** Every index of an order had a turn, in which its name gave a list
    of dependencies. *)
Lemma resolveLoop_entries nodePropertiesArray parameterDependencies fuel :
  forall st order,
    resolveLoop fuel nodePropertiesArray parameterDependencies st = Ok order ->
    (forall i, In i (executionOrder st) ->
               exists p names, nth_error nodePropertiesArray i = Some p
                               /\ tableEntry parameterDependencies (name p) = Ok names) ->
    forall i, In i order ->
              exists p names, nth_error nodePropertiesArray i = Some p
                              /\ tableEntry parameterDependencies (name p) = Ok names.
Proof.
  induction fuel as [|fuel IH]; intros st order Hloop Hvalid; simpl in Hloop.
  - destruct (indexToResolve st); [|done]. by injection Hloop as <-.
  - destruct (indexToResolve st) as [|index queue]; [by injection Hloop as <-|].
    destruct (resolveStep nodePropertiesArray parameterDependencies st index queue)
      as [st'| |] eqn:Hstep; simpl in Hloop; try done.
    apply (IH st' order Hloop).
    apply resolveStep_Ok in Hstep as (p & dl & Hnth & Hentry & Hexec & _).
    intros i. rewrite Hexec, in_app_iff. intros [Hold|[<-|[]]]; [by apply Hvalid|].
    eauto.
Qed.

(** X3: on the table that [getParamterDependencies] makes of a list,
    [getParamterResolveOrder] returns an order, in which every index of
    the list occurs and nothing else, or throws its exception "Max
    itterations got reached", or throws a TypeError.  An order is
    returned only when every property named like a member of
    [Object.prototype] is named [toString], [valueOf] or
    [toLocaleString]; the TypeError is thrown only when a property is
    named like another member of [Object.prototype].  For every other
    name the table has its entry. *)
Theorem getParamterResolveOrder_own_table nodePropertiesArray :
  match getParamterDependencies nodePropertiesArray with
  | Ok table =>
      match getParamterResolveOrder nodePropertiesArray table with
      | Ok order =>
          (forall i, In i order <-> i < length nodePropertiesArray)
          /\ forall p, In p nodePropertiesArray ->
                       onObjectPrototype (name p) = true ->
                       parameterless (name p) = true
      | Throw e =>
          e = maxItterations
          \/ (e = TypeError
              /\ exists p, In p nodePropertiesArray
                           /\ onObjectPrototype (name p) = true
                           /\ parameterless (name p) = false)
      | OutOfFuel => False
      end
  | Throw e =>
      e = TypeError
      /\ exists p, In p nodePropertiesArray
                   /\ onObjectPrototype (name p) = true
                   /\ dependencyNames p <> []
  | OutOfFuel => False
  end.
Proof.
  pose proof (getParamterDependencies_table nodePropertiesArray) as Htable.
  destruct (getParamterDependencies nodePropertiesArray) as [table|e|]; try done.
  destruct Htable as [_ Htable].
  pose proof (getParamterResolveOrder_total nodePropertiesArray table) as Htotal.
  destruct (getParamterResolveOrder nodePropertiesArray table) as [order|e|] eqn:Hcall.
  - split.
    + intros i. split.
      * intros Hi. apply nth_error_Some.
        by apply (getParamterResolveOrder_valid _ _ _ _ Hcall).
      * intros Hi. by apply (getParamterResolveOrder_covers _ _ _ _ Hcall).
    + intros p Hp Hproto. apply In_nth_error in Hp as [i Hnth].
      assert (Hi : In i order).
      { apply (getParamterResolveOrder_covers _ _ _ _ Hcall).
        apply nth_error_Some. by rewrite Hnth. }
      unfold getParamterResolveOrder in Hcall.
      destruct (resolveLoop_entries _ _ _ _ _ Hcall (fun j (Hj : In j []) => match Hj with end)
                  i Hi)
        as (p' & names & Hnth' & Hentry).
      rewrite Hnth in Hnth'. injection Hnth' as <-.
      unfold tableEntry in Hentry. specialize (Htable (name p)).
      destruct (lookupProp (name p) table).
      * destruct Htable as (_ & Hno & _). congruence.
      * by destruct (parameterless (name p)).
  - unfold getParamterResolveOrder in Hcall.
    apply resolveLoop_throws in Hcall as [->|(-> & p & Hp & Hlook & Hless)]; [by left| |].
    + right. split; [done|]. exists p. split; [done|]. split; [|done].
      specialize (Htable (name p)). rewrite Hlook in Htable.
      destruct Htable as [Hnot|Hproto]; [|done]. destruct Hnot. by apply in_map.
    + intros i Hi. simpl in Hi. apply in_seq in Hi. lia.
  - done.
Qed.

Lemma filter_nothing {A} (l : list A) : List.filter (fun _ => false) l = [].
Proof. by induction l. Qed.

(** The turns of a list in which every property depends on earlier ones
    only: the indices are taken one after the other. *)
Lemma resolveLoop_in_order nodePropertiesArray parameterDependencies :
  (forall i p,
     nth_error nodePropertiesArray i = Some p ->
     exists names,
       lookupProp (name p) parameterDependencies = Some names
       /\ forall d, In d names ->
            startsWith d "/" = true
            \/ exists j q, j < i /\ nth_error nodePropertiesArray j = Some q
                           /\ name q = d) ->
  forall k j st fuel,
    j + k = length nodePropertiesArray ->
    indexToResolve st = seq j k ->
    (forall i p, i < j -> nth_error nodePropertiesArray i = Some p ->
                 existsb (String.eqb (name p)) (resolvedParamters st) = true) ->
    length (indexToResolve st) <= lastIndexLength st ->
    k <= fuel ->
    resolveLoop fuel nodePropertiesArray parameterDependencies st
    = Ok (executionOrder st ++ seq j k).
Proof.
  intros Hsorted.
  induction k as [|k IH]; intros j st fuel Hjk Hqueue Hnames Hlast Hfuel.
  - destruct fuel; simpl; rewrite Hqueue; simpl; by rewrite app_nil_r.
  - destruct fuel as [|fuel]; [lia|].
    simpl. rewrite Hqueue. simpl.
    assert (Hj : j < length nodePropertiesArray) by lia.
    destruct (nth_error nodePropertiesArray j) as [p|] eqn:Hnth;
      [|apply nth_error_None in Hnth; lia].
    destruct (Hsorted j p Hnth) as (names & Hlook & Hdeps).
    assert (Hnone : fold_left (requeue (resolvedParamters st) j) names (seq (S j) k)
                    = seq (S j) k).
    { rewrite requeue_fold.
      assert (Hzero : unresolvedCount (resolvedParamters st) names = 0).
      { unfold unresolvedCount.
        rewrite (List.filter_ext_in _ (fun _ => false)), filter_nothing; [done|].
        intros d Hd. destruct (Hdeps d Hd) as [Hroot|(i & q & Hi & Hq & <-)].
        - rewrite Hroot. simpl. apply andb_false_r.
        - by rewrite (Hnames i q Hi Hq). }
      rewrite Hzero. simpl. apply app_nil_r. }
    assert (Hstep : exists st',
               resolveStep nodePropertiesArray parameterDependencies st j (seq (S j) k)
               = Ok st'
               /\ executionOrder st' = executionOrder st ++ [j]
               /\ indexToResolve st' = seq (S j) k
               /\ resolvedParamters st' = resolvedParamters st ++ [name p]
               /\ length (indexToResolve st') <= lastIndexLength st').
    { unfold resolveStep, tableEntry. rewrite Hnth, Hlook.
      destruct names as [|d ds].
      - eexists. split; [done|]. simpl. repeat split; try done.
        rewrite Hqueue in Hlast. simpl in Hlast. lia.
      - rewrite Hnone.
        rewrite Hqueue in Hlast. simpl in Hlast.
        assert (Hless : (length (seq (S j) k) <? lastIndexLength st) = true).
        { apply Nat.ltb_lt. rewrite length_seq in *. lia. }
        rewrite Hless.
        assert (Hmax : (itterations st + 1 + Z.of_nat (length nodePropertiesArray)
                        <? itterations st + 1)%Z = false).
        { apply Z.ltb_ge. lia. }
        rewrite Hmax. eexists. split; [done|]. simpl. repeat split; done. }
    destruct Hstep as (st' & -> & Horder & Hqueue' & Hresolved & Hlast').
    simpl. rewrite (IH (S j) st' fuel); [| lia | done | | done | lia].
    + rewrite Horder, <- app_assoc. done.
    + intros i q Hi Hq. rewrite Hresolved, existsb_app.
      destruct (decide (i = j)) as [->|Hne].
      * rewrite Hnth in Hq. injection Hq as ->. simpl.
        rewrite String.eqb_refl. apply orb_true_r.
      * rewrite (Hnames i q); [done|lia|done].
Qed.

(** X4: when the display rules of every property name only properties
    listed before it, or names that start with a slash, the order is
    the order of the list: every index once, nothing thrown. *)
Theorem getParamterResolveOrder_in_order nodePropertiesArray parameterDependencies :
  (forall i p,
     nth_error nodePropertiesArray i = Some p ->
     exists names,
       lookupProp (name p) parameterDependencies = Some names
       /\ forall d, In d names ->
            startsWith d "/" = true
            \/ exists j q, j < i /\ nth_error nodePropertiesArray j = Some q
                           /\ name q = d) ->
  getParamterResolveOrder nodePropertiesArray parameterDependencies
  = Ok (seq 0 (length nodePropertiesArray)).
Proof.
  intros Hsorted. unfold getParamterResolveOrder.
  apply (resolveLoop_in_order _ _ Hsorted (length nodePropertiesArray) 0
           (resolveStart nodePropertiesArray)).
  - done.
  - done.
  - intros i p Hi. lia.
  - simpl. by rewrite length_seq.
  - unfold resolveBudget. lia.
Qed.

(** A property with a dependency that is never resolved is put back on
    the queue in each of its turns, so the queue does not run empty. *)
Lemma resolveLoop_unknown nodePropertiesArray parameterDependencies i p names d :
  nth_error nodePropertiesArray i = Some p ->
  lookupProp (name p) parameterDependencies = Some names ->
  In d names ->
  startsWith d "/" = false ->
  (forall q, In q nodePropertiesArray -> name q <> d) ->
  forall fuel st order,
    In i (indexToResolve st) ->
    (forall r, In r (resolvedParamters st) ->
               exists q, In q nodePropertiesArray /\ name q = r) ->
    resolveLoop fuel nodePropertiesArray parameterDependencies st <> Ok order.
Proof.
  intros Hnth Hlook Hd Hroot Hunknown.
  induction fuel as [|fuel IH]; intros st order Hin Hresolved Hloop; simpl in Hloop.
  - by destruct (indexToResolve st).
  - destruct (indexToResolve st) as [|index queue] eqn:Hq; [done|].
    destruct (resolveStep nodePropertiesArray parameterDependencies st index queue)
      as [st'| |] eqn:Hstep; simpl in Hloop; try done.
    apply resolveStep_Ok in Hstep
      as (q & dl & Hnth' & Hlook' & _ & Hres & _ & Hq' & _).
    apply (IH st' order); [| |done].
    + rewrite Hq', in_app_iff. destruct Hin as [->|Hin]; [|by left].
      right. rewrite Hnth in Hnth'. injection Hnth' as <-.
      unfold tableEntry in Hlook'. rewrite Hlook in Hlook'. injection Hlook' as <-.
      assert (Hcount : 0 < unresolvedCount (resolvedParamters st) names).
      { unfold unresolvedCount.
        assert (Hkept : In d (List.filter
                                (fun d => negb (existsb (String.eqb d) (resolvedParamters st))
                                          && negb (startsWith d "/")) names)).
        { apply filter_In. split; [done|]. rewrite Hroot, andb_true_r.
          apply negb_true_iff. apply not_true_is_false. intros Hres'.
          apply existsb_exists in Hres' as (r & Hr & Heq).
          apply String.eqb_eq in Heq. subst r.
          destruct (Hresolved d Hr) as (q' & Hq'' & Hname). by apply (Hunknown q'). }
        destruct (List.filter _ names); [done|simpl; lia]. }
      destruct (unresolvedCount (resolvedParamters st) names); [lia|]. by left.
    + intros r. rewrite Hres, in_app_iff. intros [Hr|[<-|[]]]; [by apply Hresolved|].
      exists q. split; [|done]. by eapply nth_error_In.
Qed.

(** X5: a property whose table entry holds a name that does not start
    with a slash and that no property of the list has is never done:
    [getParamterResolveOrder] throws. *)
Theorem getParamterResolveOrder_unknown_dependency
    nodePropertiesArray parameterDependencies p names d :
  In p nodePropertiesArray ->
  lookupProp (name p) parameterDependencies = Some names ->
  In d names ->
  startsWith d "/" = false ->
  (forall q, In q nodePropertiesArray -> name q <> d) ->
  exists e, getParamterResolveOrder nodePropertiesArray parameterDependencies = Throw e.
Proof.
  intros Hp Hlook Hd Hroot Hunknown.
  apply In_nth_error in Hp as [i Hnth].
  pose proof (getParamterResolveOrder_total nodePropertiesArray parameterDependencies)
    as Htotal.
  destruct (getParamterResolveOrder nodePropertiesArray parameterDependencies)
    as [order|e|] eqn:Hcall; [|eauto|done].
  exfalso. unfold getParamterResolveOrder in Hcall.
  apply (resolveLoop_unknown _ _ i p names d Hnth Hlook Hd Hroot Hunknown _ _ _) in Hcall;
    [done| |done].
  simpl. apply in_seq. split; [lia|]. simpl. apply nth_error_Some. by rewrite Hnth.
Qed.

(** X6: a display rule that names a property which the list does not
    have, without a leading slash, makes [getNodeParameters] throw on
    that list, for every node value and every setting: the call ends in
    the exception of [getParamterResolveOrder], or, when a property of
    the list is named like a member of [Object.prototype], possibly in
    a TypeError. *)
Theorem getNodeParameters_unknown_dependency fuel nodePropertiesArray nodeValues
    returnDefaults returnNoneDisplayed onlySimpleTypes dataIsResolved
    nodeValuesRoot parentType p d :
  In p nodePropertiesArray ->
  In d (dependencyNames p) ->
  startsWith d "/" = false ->
  (forall q, In q nodePropertiesArray -> name q <> d) ->
  match getNodeParameters (S (S fuel)) nodePropertiesArray nodeValues
          returnDefaults returnNoneDisplayed onlySimpleTypes dataIsResolved
          nodeValuesRoot parentType None with
  | Throw e =>
      e = maxItterations
      \/ (e = TypeError
          /\ exists q, In q nodePropertiesArray /\ onObjectPrototype (name q) = true)
  | _ => False
  end.
Proof.
  intros Hp Hd Hroot Hunknown.
  change (getNodeParameters (S (S fuel)) nodePropertiesArray nodeValues
            returnDefaults returnNoneDisplayed onlySimpleTypes dataIsResolved
            nodeValuesRoot parentType None)
    with (let* parameterDependencies := getParamterDependencies nodePropertiesArray in
          let* precomputed :=
            if negb dataIsResolved && negb returnNoneDisplayed
            then
              let* full :=
                getNodeParameters (S fuel) nodePropertiesArray nodeValues true true true true
                  nodeValuesRoot parentType (Some parameterDependencies) in
              Ok (Some full)
            else Ok None in
          let* parameterItterationOrderIndex :=
            getParamterResolveOrder nodePropertiesArray parameterDependencies in
          let* st :=
            forEach
              (resolveParameter
                 (fun nested value root parent =>
                    match nested with
                    | None => Throw TypeError
                    | Some nested =>
                        getNodeParameters (S fuel) nested value returnDefaults
                          returnNoneDisplayed false false root parent None
                    end)
                 nodePropertiesArray nodeValues
                 returnDefaults returnNoneDisplayed onlySimpleTypes
                 nodeValuesRoot parentType (duplicateNames nodePropertiesArray) precomputed)
              parameterItterationOrderIndex (mkParameterState [] []) in
          Ok (VObj (nodeParameters st))).
  pose proof (getParamterDependencies_table nodePropertiesArray) as Htable.
  destruct (getParamterDependencies nodePropertiesArray) as [table|e|]; cbn [bind];
    [| |done].
  2: { destruct Htable as (-> & q & Hq & Hproto & _). right. eauto. }
  destruct Htable as [Hplain Htable].
  assert (Horder : exists e,
             getParamterResolveOrder nodePropertiesArray table = Throw e
             /\ (e = maxItterations
                 \/ (e = TypeError
                     /\ exists q, In q nodePropertiesArray
                                  /\ onObjectPrototype (name q) = true))).
  { pose proof (Htable (name p)) as Hentry.
    destruct (lookupProp (name p) table) as [names|] eqn:Hlook.
    2: { destruct Hentry as [Hnot|Hproto]; [destruct Hnot; by apply in_map|].
         rewrite (Hplain p Hp Hproto) in Hd. done. }
    destruct Hentry as (_ & _ & _ & Hnames).
    assert (Hin : In d names) by (apply Hnames; eauto).
    pose proof (getParamterResolveOrder_total nodePropertiesArray table) as Htotal.
    destruct (getParamterResolveOrder nodePropertiesArray table)
      as [order|e|] eqn:Hcall; [| |done].
    - exfalso. unfold getParamterResolveOrder in Hcall.
      destruct (In_nth_error _ _ Hp) as [i Hnth].
      apply (resolveLoop_unknown _ _ i p names d Hnth Hlook Hin Hroot Hunknown _ _ _)
        in Hcall; [done| |done].
      simpl. apply in_seq. split; [lia|]. simpl. apply nth_error_Some. by rewrite Hnth.
    - exists e. split; [done|]. unfold getParamterResolveOrder in Hcall.
      apply resolveLoop_throws in Hcall as [->|(-> & q & Hq & Hnone & _)]; [by left| |].
      + right. split; [done|]. exists q. split; [done|].
        specialize (Htable (name q)). rewrite Hnone in Htable.
        destruct Htable as [Hnot|Hproto]; [|done]. destruct Hnot. by apply in_map.
      + intros j Hj. simpl in Hj. apply in_seq in Hj. lia. }
  destruct Horder as (e & Horder & He).
  destruct (negb dataIsResolved && negb returnNoneDisplayed).
  - assert (Hinner : getNodeParameters (S fuel) nodePropertiesArray nodeValues
                       true true true true nodeValuesRoot parentType (Some table)
                     = Throw e).
    { simpl. by rewrite Horder. }
    by rewrite Hinner.
  - cbn [bind]. by rewrite Horder.
Qed.

(** ** The names that getNodeParameters returns *)

(** A turn leaves [nodeParameters] alone, or assigns the property that has
    the name of the schema property of the turn.  Without defaults it
    sets it only when the node values have a value of that name, and
    for a simple property it sets that value. *)
Lemma resolveParameter_writes recurse nodePropertiesArray nodeValues
    returnDefaults returnNoneDisplayed onlySimpleTypes nodeValuesRoot parentType
    duplicateParameterNames precomputed st parameterIndex st' :
  resolveParameter recurse nodePropertiesArray nodeValues
    returnDefaults returnNoneDisplayed onlySimpleTypes nodeValuesRoot parentType
    duplicateParameterNames precomputed st parameterIndex = Ok st' ->
  nodeParameters st' = nodeParameters st
  \/ exists q value v,
       nth_error nodePropertiesArray parameterIndex = Some q
       /\ getProp nodeValues (name q) = Ok value
       /\ nodeParameters st' = assignProp (name q) v (nodeParameters st)
       /\ (returnDefaults = false ->
           isUndefined value = false
           /\ (isComplexType (type q) = false -> v = value)).
Proof.
  unfold resolveParameter. intros Hbody.
  destruct (nth_error nodePropertiesArray parameterIndex) as [q|]; [|done].
  destruct (getProp nodeValues (name q)) as [value| |] eqn:Hvalue;
    simpl in Hbody; try done.
  destruct (isUndefined value && _) eqn:Hskip; [injection Hbody as <-; by left|].
  assert (Hdefined : returnDefaults = false -> isUndefined value = false).
  { intros ->. simpl in Hskip. by rewrite andb_true_r in Hskip. }
  destruct (negb returnNoneDisplayed && _); [injection Hbody as <-; by left|].
  destruct (isComplexType (type q)) eqn:Hcomplex; simpl in Hbody.
  2: { destruct (existsb _ _ && _); [injection Hbody as <-; by left|].
       destruct returnDefaults.
       - injection Hbody as <-. right. exists q, value. eexists.
         do 3 (split; [done|]). done.
       - destruct (_ && _ || _ || _); injection Hbody as <-; [|by left].
         right. exists q, value, value. do 3 (split; [done|]).
         intros _. split; [by apply Hdefined|done]. }
  assert (Hwrite : forall v,
            exists q0 value0 v0,
              Some q = Some q0 /\ getProp nodeValues (name q0) = Ok value0
              /\ assignProp (name q) v (nodeParameters st)
                 = assignProp (name q0) v0 (nodeParameters st)
              /\ (returnDefaults = false ->
                  isUndefined value0 = false
                  /\ (isComplexType (type q0) = false -> v0 = value0))).
  { intros v. exists q, value, v. do 3 (split; [done|]).
    intros Hrd. split; [by apply Hdefined|]. congruence. }
  destruct onlySimpleTypes; [injection Hbody as <-; by left|].
  destruct (String.eqb (type q) "collection").
  - unfold resolveCollection in Hbody.
    destruct (multipleValuesTrue q).
    + destruct (negb (isUndefined value)); simpl in Hbody.
      * injection Hbody as <-. right. simpl. apply Hwrite.
      * destruct returnDefaults; simpl in Hbody.
        -- destruct (default q) eqn:Hdefault; unfold jsonClone in Hbody;
             simpl in Hbody; injection Hbody as <-; right; simpl; apply Hwrite.
        -- destruct (lookupProp (name q) (nodeParameters st));
             simpl in Hbody; injection Hbody as <-; by left.
    + destruct (negb (isUndefined value)).
      * destruct (recurse _ _ _ _) as [temp| |]; simpl in Hbody; try done.
        destruct temp; injection Hbody as <-; try (by left); right; simpl; apply Hwrite.
      * destruct returnDefaults; [|injection Hbody as <-; by left].
        destruct (jsonClone _); simpl in Hbody; try done.
        injection Hbody as <-. right. simpl. apply Hwrite.
  - unfold resolveFixedCollection in Hbody.
    destruct (collectValues _ _ _ _ _); simpl in Hbody; try done.
    destruct (negb (length _ =? 0) || _); injection Hbody as <-; [|by left].
    right. simpl. apply Hwrite.
Qed.

Lemma lookupProp_key {A} k (props : list (string * A)) :
  In k (map fst props) -> exists v, lookupProp k props = Some v.
Proof.
  induction props as [|[k' v'] props IH]; simpl; [done|].
  destruct (String.eqb_spec k k') as [->|Hne]; [eauto|].
  intros [Heq|Hin]; [congruence|by apply IH].
Qed.

Lemma lookupProp_Some_key {A} k (props : list (string * A)) v :
  lookupProp k props = Some v -> In k (map fst props).
Proof.
  induction props as [|[k' v'] props IH]; simpl; [done|].
  destruct (String.eqb_spec k k') as [->|Hne]; [by left|].
  intros Hlook. right. by apply IH.
Qed.

(** The loop of a call, for an invariant of [nodeParameters] that the
    turns keep. *)
Lemma getNodeParameters_loop (P : list (string * Value) -> Prop)
    fuel nodePropertiesArray nodeValues
    returnDefaults returnNoneDisplayed onlySimpleTypes dataIsResolved
    nodeValuesRoot parentType parameterDependencies props :
  P [] ->
  (forall parameters q value v,
     In q nodePropertiesArray ->
     getProp nodeValues (name q) = Ok value ->
     (returnDefaults = false ->
      isUndefined value = false /\ (isComplexType (type q) = false -> v = value)) ->
     P parameters -> P (assignProp (name q) v parameters)) ->
  getNodeParameters fuel nodePropertiesArray nodeValues
    returnDefaults returnNoneDisplayed onlySimpleTypes dataIsResolved
    nodeValuesRoot parentType parameterDependencies = Ok (VObj props) ->
  P props.
Proof.
  intros Hstart Hkeep.
  destruct fuel as [|fuel]; [done|]. simpl. intros Hcall.
  destruct (match parameterDependencies with Some _ => _ | None => _ end)
    as [dependencies| |]; simpl in Hcall; try done.
  destruct (if negb dataIsResolved && negb returnNoneDisplayed then _ else _)
    as [precomputed| |]; simpl in Hcall; try done.
  destruct (getParamterResolveOrder _ _) as [order| |]; simpl in Hcall; try done.
  destruct (forEach _ order _) as [st| |] eqn:Hloop; simpl in Hcall; try done.
  injection Hcall as <-.
  refine (forEach_invariant _ (fun s => P (nodeParameters s)) order _ _ _ _ Hloop);
    [|done].
  intros s i s' _ Hs Hbody.
  apply resolveParameter_writes in Hbody
    as [->|(q & value & v & Hnth & Hvalue & -> & Hplain)]; [done|].
  apply (Hkeep _ q value v); try done. by eapply nth_error_In.
Qed.

(** X7: what [getNodeParameters] returns is an object in which every
    name is the name of a property of the list, and no name occurs
    twice; values under other names in the node values are left out. *)
Theorem getNodeParameters_declared_names fuel nodePropertiesArray nodeValues
    returnDefaults returnNoneDisplayed onlySimpleTypes dataIsResolved
    nodeValuesRoot parentType parameterDependencies tree :
  getNodeParameters fuel nodePropertiesArray nodeValues
    returnDefaults returnNoneDisplayed onlySimpleTypes dataIsResolved
    nodeValuesRoot parentType parameterDependencies = Ok tree ->
  exists props,
    tree = VObj props
    /\ NoDup (map fst props)
    /\ forall k, In k (map fst props) -> In k (map name nodePropertiesArray).
Proof.
  intros Hcall.
  destruct (getNodeParameters_object _ _ _ _ _ _ _ _ _ _ _ Hcall) as (props & -> & Hnodup).
  exists props. do 2 (split; [done|]).
  refine (getNodeParameters_loop
            (fun parameters =>
               forall k, In k (map fst parameters) -> In k (map name nodePropertiesArray))
            _ _ _ _ _ _ _ _ _ _ _ (fun k (H : In k []) => match H with end)
            (fun parameters q value v Hq _ _ Hparameters => _) Hcall).
  intros k. unfold assignProp.
  destruct (String.eqb (name q) "__proto__"); [by apply Hparameters|].
  rewrite setProp_keys.
  destruct (existsb _ _); [by apply Hparameters|].
  rewrite in_app_iff. intros [Hk|[<-|[]]]; [by apply Hparameters|by apply in_map].
Qed.

(** X8: without defaults, what [getNodeParameters] returns is taken
    from the node values: every name it returns has a value there that
    is not undefined, and when all the properties of that name are
    simple ones (neither collection nor fixedCollection), the value
    returned is that value. *)
Theorem getNodeParameters_given_values fuel nodePropertiesArray nodeValues
    returnNoneDisplayed onlySimpleTypes dataIsResolved
    nodeValuesRoot parentType parameterDependencies props k v :
  getNodeParameters fuel nodePropertiesArray nodeValues
    false returnNoneDisplayed onlySimpleTypes dataIsResolved
    nodeValuesRoot parentType parameterDependencies = Ok (VObj props) ->
  lookupProp k props = Some v ->
  exists value,
    getProp nodeValues k = Ok value
    /\ isUndefined value = false
    /\ ((forall q, In q nodePropertiesArray -> name q = k ->
                   isComplexType (type q) = false) ->
        v = value).
Proof.
  intros Hcall. revert v.
  refine (getNodeParameters_loop
            (fun parameters =>
               forall v, lookupProp k parameters = Some v ->
                 exists value,
                   getProp nodeValues k = Ok value
                   /\ isUndefined value = false
                   /\ ((forall q, In q nodePropertiesArray -> name q = k ->
                                  isComplexType (type q) = false) ->
                       v = value))
            _ _ _ _ _ _ _ _ _ _ _ (fun v (H : None = Some v) => _)
            (fun parameters q value w Hq Hvalue Hplain Hparameters => _) Hcall).
  - done.
  - intros v. unfold assignProp.
    destruct (String.eqb (name q) "__proto__"); [by apply Hparameters|].
    rewrite lookupProp_setProp.
    destruct (String.eqb_spec k (name q)) as [->|Hne]; [|by apply Hparameters].
    intros [= <-]. destruct (Hplain eq_refl) as [Hdefined Hsame].
    exists value. do 2 (split; [done|]). intros Hsimple. apply Hsame. by apply Hsimple.
Qed.

(** With defaults and hidden properties returned, the turn of a property
    whose name is not a duplicate sets the property of that name, unless
    the call is for the options of a collection. *)
Lemma turnResult_writes recurse onlySimpleTypes parentType root p value w :
  (forall nested value root parent tree,
     recurse nested value root parent = Ok tree -> tree <> VNull) ->
  isCollectionParent parentType = false ->
  onlySimpleTypes = false ->
  turnResult recurse true onlySimpleTypes parentType root p value = Ok w ->
  exists v, w = Some v.
Proof.
  intros Hrecurse Hparent -> Hturn. unfold turnResult in Hturn.
  rewrite Hparent, andb_false_r in Hturn.
  destruct (negb (isComplexType (type p))); [injection Hturn as <-; eauto|].
  destruct (String.eqb (type p) "collection").
  - unfold collectionResult in Hturn.
    destruct (multipleValuesTrue p).
    + destruct (negb (isUndefined value)); [injection Hturn as <-; eauto|].
      destruct (default p); unfold jsonClone in Hturn; simpl in Hturn;
        injection Hturn as <-; eauto.
    + destruct (negb (isUndefined value)).
      * destruct (recurse _ _ _ _) as [temp| |] eqn:Hcall; simpl in Hturn; try done.
        apply Hrecurse in Hcall.
        destruct temp; try done; injection Hturn as <-; eauto.
      * destruct (jsonClone _); simpl in Hturn; try done.
        injection Hturn as <-. eauto.
  - destruct (collectValues _ _ _ _ _); simpl in Hturn; try done.
    injection Hturn as <-. eauto.
Qed.

(** X9: with defaults and hidden properties returned, a call that is
    not for the options of a collection returns a value under the name
    of every property of the list whose name is used only once, unless
    that name is [__proto__]: an assignment under that name makes no
    property, and the object returned has none of that name. *)
Theorem getNodeParameters_every_name fuel nodePropertiesArray nodeValues
    dataIsResolved nodeValuesRoot parentType parameterDependencies props p :
  getNodeParameters fuel nodePropertiesArray nodeValues true true false dataIsResolved
    nodeValuesRoot parentType parameterDependencies = Ok (VObj props) ->
  isCollectionParent parentType = false ->
  In p nodePropertiesArray ->
  existsb (String.eqb (name p)) (duplicateNames nodePropertiesArray) = false ->
  (name p <> "__proto__" -> exists v, lookupProp (name p) props = Some v)
  /\ (name p = "__proto__" -> lookupProp (name p) props = None).
Proof.
  intros Hcall Hparent Hp Hdup. split.
  2: { intros ->. apply getNodeParameters_plain in Hcall as (ps & [= <-] & _ & Hproto).
       destruct (lookupProp "__proto__" props) as [v|] eqn:Hlook; [|done].
       destruct Hproto. by eapply lookupProp_Some_key. }
  intros Hname. apply lookupProp_key.
  destruct fuel as [|fuel]; [done|]. simpl in Hcall.
  destruct (match parameterDependencies with Some _ => _ | None => _ end)
    as [dependencies| |]; simpl in Hcall; try done.
  rewrite andb_false_r in Hcall. simpl in Hcall.
  destruct (getParamterResolveOrder _ _) as [order| |] eqn:Horder;
    simpl in Hcall; try done.
  destruct (forEach _ order _) as [st| |] eqn:Hloop; simpl in Hcall; try done.
  injection Hcall as <-.
  apply In_nth_error in Hp as [i Hnth].
  assert (Hi : In i order).
  { apply (getParamterResolveOrder_covers _ _ _ _ Horder).
    apply nth_error_Some. by rewrite Hnth. }
  refine (forEach_establishes _
            (fun s => In (name p) (map fst (nodeParameters s))) order i Hi _ _ _ _ Hloop).
  - intros s j s' _ Hs Hbody.
    apply resolveParameter_shape in Hbody as [->|(k & v & ->)]; [done|].
    unfold assignProp. destruct (String.eqb k "__proto__"); [done|].
    rewrite setProp_keys. destruct (existsb (String.eqb k) _); [done|].
    apply in_or_app. by left.
  - intros s s' Hbody.
    rewrite resolveParameter_turn in Hbody.
    2: { intros q Hq. rewrite Hnth in Hq. by injection Hq as <-. }
    rewrite Hnth in Hbody.
    destruct (getProp nodeValues (name p)) as [value| |]; simpl in Hbody; try done.
    destruct (turnResult _ _ _ _ _ _ _) as [w| |] eqn:Hturn; simpl in Hbody; try done.
    injection Hbody as <-.
    apply turnResult_writes in Hturn as [v ->]; try done.
    + simpl. unfold assignProp.
      destruct (String.eqb_spec (name p) "__proto__"); [done|].
      rewrite setProp_keys.
      destruct (existsb (String.eqb (name p)) (map fst (nodeParameters s))) eqn:Hhas.
      * by apply existsb_eqb_In.
      * apply in_or_app. right. by left.
    + intros [nested|] value' root parent tree Hrec; [|done].
      apply getNodeParameters_object in Hrec as (ps & -> & _). done.
Qed.

(** X10: when the properties that are not displayed are to be left out,
    they are.  Whether a property is displayed is decided on the tree of
    the simple properties with their defaults, which the call computes
    first; a name all of whose properties are hidden on that tree is
    not in what the call returns. *)
Theorem getNodeParameters_hidden_left_out fuel nodePropertiesArray nodeValues
    returnDefaults onlySimpleTypes nodeValuesRoot parentType parameterDependencies props :
  getNodeParameters (S fuel) nodePropertiesArray nodeValues
    returnDefaults false onlySimpleTypes false
    nodeValuesRoot parentType parameterDependencies = Ok (VObj props) ->
  exists dependencies full,
    match parameterDependencies with
    | Some dependencies => Ok dependencies
    | None => getParamterDependencies nodePropertiesArray
    end = Ok dependencies
    /\ getNodeParameters fuel nodePropertiesArray nodeValues true true true true
         nodeValuesRoot parentType (Some dependencies) = Ok full
    /\ forall k,
         (forall q, In q nodePropertiesArray -> name q = k ->
                    displayParameter full q (jsOr nodeValuesRoot full) = false) ->
         lookupProp k props = None.
Proof.
  intros Hcall. simpl in Hcall.
  destruct (match parameterDependencies with Some _ => _ | None => _ end)
    as [dependencies| |]; simpl in Hcall; try done.
  destruct (getNodeParameters fuel nodePropertiesArray nodeValues true true true true
              nodeValuesRoot parentType _) as [full| |] eqn:Hfull;
    simpl in Hcall; try done.
  exists dependencies, full. split; [done|]. split; [done|]. intros k Hhidden.
  destruct (getParamterResolveOrder _ _) as [order| |] eqn:Horder;
    simpl in Hcall; try done.
  destruct (forEach _ order _) as [st| |] eqn:Hloop; simpl in Hcall; try done.
  injection Hcall as <-.
  refine (forEach_invariant _ (fun s => lookupProp k (nodeParameters s) = None)
            order _ _ _ _ Hloop); [|done].
  intros s i s' _ Hs Hbody.
  destruct (nth_error nodePropertiesArray i) as [q|] eqn:Hnth.
  2: { unfold resolveParameter in Hbody. by rewrite Hnth in Hbody. }
  destruct (String.eqb_spec (name q) k) as [Hname|Hname].
  - unfold resolveParameter in Hbody. rewrite Hnth in Hbody.
    destruct (getProp nodeValues (name q)) as [value| |]; simpl in Hbody; try done.
    destruct (isUndefined value && _); [by injection Hbody as <-|].
    unfold nodeValuesDisplayCheck, currentRoot, nodeValuesDisplayCheck in Hbody.
    rewrite (Hhidden q (nth_error_In _ _ Hnth) Hname) in Hbody. simpl in Hbody.
    by injection Hbody as <-.
  - rewrite (resolveParameter_frame _ _ _ _ _ _ _ _ _ _ _ _ _ q k Hbody Hnth); [done|].
    congruence.
Qed.

(** ** What getParameterIssues reports *)

Lemma forEach_throws_with {A S} (body : S -> A -> Result S) (P : Error -> Prop) xs :
  (forall s x e', In x xs -> body s x = Throw e' -> P e') ->
  forall s e', forEach body xs s = Throw e' -> P e'.
Proof.
  induction xs as [|x xs IH]; intros Hbody s e' Hloop; simpl in Hloop; [done|].
  destruct (body s x) as [s'|e''|] eqn:Hturn; simpl in Hloop; try done.
  - apply (IH (fun s x e' Hx => Hbody s x e' (or_intror Hx)) s' e' Hloop).
  - injection Hloop as <-. apply (Hbody s x e''); [by left|done].
Qed.


Lemma requiredOnly_none checked : requiredOnly checked noIssues.
Proof. by repeat split. Qed.

Lemma requiredOnly_mono checked checked' issues :
  (forall q, In q checked -> In q checked') ->
  requiredOnly checked issues -> requiredOnly checked' issues.
Proof.
  intros Hsub (He & Hc & Ht & Hp). do 3 (split; [done|]).
  destruct (parameters issues) as [messages|]; [|done].
  destruct Hp as [Hne Hp]. split; [done|]. intros k lines Hlook.
  destruct (Hp k lines Hlook) as [Hlines Hall]. split; [done|].
  intros line Hline. destruct (Hall line Hline) as (q & Hq & Hrest). eauto.
Qed.

Lemma requiredOnly_add checked found nodeProperties value found' :
  In nodeProperties checked ->
  required nodeProperties = true ->
  requiredOnly checked found ->
  addToIssuesIfMissing found nodeProperties value = Ok found' ->
  requiredOnly checked found'.
Proof.
  intros Hin Hrequired (He & Hc & Ht & Hp). unfold addToIssuesIfMissing.
  destruct (isMissing nodeProperties value); [|by intros [= <-]].
  destruct (unwritable _ _); [done|]. intros [= <-].
  split; [done|]. split; [done|]. split; [done|]. simpl.
  unfold pushMessages. split.
  - intros Hempty.
    apply (f_equal (fun m : IssueMessages => m !! name nodeProperties)) in Hempty.
    by rewrite lookup_insert_eq, lookup_empty in Hempty.
  - intros k lines.
    destruct (decide (name nodeProperties = k)) as [<-|Hne].
    + rewrite lookup_insert_eq. intros [= <-]. split.
      * by destruct (from_option id [] _).
      * intros line. rewrite in_app_iff. intros [Hold|[<-|[]]]; [|eauto].
        destruct (parameters found) as [messages|]; simpl in Hold.
        -- destruct (messages !! name nodeProperties) as [old|] eqn:Hlook;
             simpl in Hold; [|done].
           destruct Hp as [_ Hp]. by apply (Hp _ _ Hlook).
        -- by rewrite lookup_empty in Hold.
    + rewrite lookup_insert_ne by done.
      destruct (parameters found) as [messages|]; simpl.
      * destruct Hp as [_ Hp]. apply Hp.
      * by rewrite lookup_empty.
Qed.

Lemma requiredOnly_merge checked found more result :
  requiredOnly checked found -> requiredOnly checked more ->
  mergeIssues found (Some more) = Ok result ->
  requiredOnly checked result.
Proof.
  intros (He & Hc & Ht & Hp) (He' & Hc' & Ht' & Hp') Hmerge.
  apply mergeIssues_Ok in Hmerge as [-> _]. unfold merged.
  split; [simpl; by rewrite He'|]. split; [simpl; by rewrite Hc', Hc|].
  split; [simpl; by rewrite Ht'|]. simpl. unfold appended.
  destruct (parameters more) as [src|]; simpl; [|done].
  destruct Hp' as [Hsome Hsrc]. split.
  - intros Hempty. apply Hsome. apply map_eq. intros k. rewrite lookup_empty.
    apply (f_equal (fun m : IssueMessages => m !! k)) in Hempty.
    rewrite mergeFold_lookup, lookup_empty in Hempty.
    by destruct (src !! k).
  - intros k lines. rewrite mergeFold_lookup.
    destruct (src !! k) as [added|] eqn:Hadded.
    + intros [= <-]. destruct (Hsrc _ _ Hadded) as [Hne Hlines]. split.
      * by destruct (from_option id [] _), added.
      * intros line. rewrite in_app_iff. intros [Hold|Hnew]; [|by apply Hlines].
        destruct (parameters found) as [dst|]; simpl in Hold.
        -- destruct (dst !! k) as [old|] eqn:Hlook; simpl in Hold; [|done].
           destruct Hp as [_ Hp]. by apply (Hp _ _ Hlook).
        -- by rewrite lookup_empty in Hold.
    + destruct (parameters found) as [dst|]; simpl.
      * destruct Hp as [_ Hp]. apply Hp.
      * by rewrite lookup_empty.
Qed.

Lemma requiredOnly_required nodeProperties nodeValues path issues :
  requiredIssues nodeProperties nodeValues path = Ok issues ->
  requiredOnly [nodeProperties] issues.
Proof.
  unfold requiredIssues.
  destruct (required nodeProperties) eqn:Hrequired;
    [|intros [= <-]; apply requiredOnly_none].
  destruct (displayParameterPath _ _ _); [|intros [= <-]; apply requiredOnly_none].
  destruct (multipleValuesDefined nodeProperties).
  - destruct (getParameterValueByPath _ _ _) as [| | | | |singles| |];
      try (intros [= <-]; apply requiredOnly_none).
    intros Hloop.
    refine (forEach_invariant _ (requiredOnly [nodeProperties]) singles _ _ _ _ Hloop);
      [|apply requiredOnly_none].
    intros found single found' _ Hfound Hadd.
    eapply requiredOnly_add; [by left|done|exact Hfound|exact Hadd].
  - intros Hadd.
    eapply requiredOnly_add; [by left|done|apply requiredOnly_none|exact Hadd].
Qed.

(** What a failed required-check is about. *)
Lemma requiredIssues_throws nodeProperties nodeValues path e :
  requiredIssues nodeProperties nodeValues path = Throw e ->
  e = TypeError
  /\ required nodeProperties = true
  /\ onObjectPrototype (name nodeProperties) = true.
Proof.
  assert (Hadd : forall found value e',
            addToIssuesIfMissing found nodeProperties value = Throw e' ->
            e' = TypeError /\ onObjectPrototype (name nodeProperties) = true).
  { intros found value e'. unfold addToIssuesIfMissing.
    destruct (isMissing nodeProperties value); [|done].
    destruct (unwritable _ _) eqn:Hblocked; [|done]. intros [= <-].
    split; [done|]. unfold unwritable in Hblocked.
    by apply andb_prop in Hblocked as [? _]. }
  unfold requiredIssues.
  destruct (required nodeProperties); [|done].
  destruct (displayParameterPath _ _ _); [|done].
  destruct (multipleValuesDefined nodeProperties).
  - destruct (getParameterValueByPath _ _ _) as [| | | | |singles| |]; try done.
    intros Hloop.
    assert (Hall : e = TypeError /\ onObjectPrototype (name nodeProperties) = true).
    { revert Hloop.
      apply (forEach_throws_with _
               (fun e => e = TypeError /\ onObjectPrototype (name nodeProperties) = true)).
      intros found single e' _ Hone. by apply (Hadd _ _ _ Hone). }
    destruct Hall. done.
  - intros Hone. destruct (Hadd _ _ _ Hone). done.
Qed.

Lemma requiredIssues_total nodeProperties nodeValues path :
  requiredIssues nodeProperties nodeValues path <> OutOfFuel.
Proof.
  unfold requiredIssues.
  destruct (required nodeProperties); [|done].
  destruct (displayParameterPath _ _ _); [|done].
  assert (Hadd : forall found value,
            addToIssuesIfMissing found nodeProperties value <> OutOfFuel).
  { intros found value. unfold addToIssuesIfMissing.
    destruct (isMissing _ _); [|done]. by destruct (unwritable _ _). }
  destruct (multipleValuesDefined nodeProperties); [|apply Hadd].
  destruct (getParameterValueByPath _ _ _); try done.
  apply forEach_total. intros found single _. apply Hadd.
Qed.

Lemma mergeIssues_total found more : mergeIssues found (Some more) <> OutOfFuel.
Proof. destruct (mergeIssues_cases found more) as [[-> _]|[-> _]]; done. Qed.

(** *** The properties that are checked *)

Lemma checkedProperties_self p : In p (checkedProperties p).
Proof. destruct p. by left. Qed.

Lemma checkedProperties_option p opts o q :
  type p = "collection" -> options p = Some opts -> In o opts ->
  In q (checkedProperties o) -> In q (checkedProperties p).
Proof.
  destruct p as [n dn t d r topts disp popts vals]. simpl.
  intros -> -> Ho Hq. right. simpl. apply in_flat_map. eauto.
Qed.

Lemma checkedProperties_field p opts g fields f q :
  String.eqb (type p) "collection" = false ->
  type p = "fixedCollection" -> options p = Some opts -> In g opts ->
  values g = Some fields -> In f fields ->
  In q (checkedProperties f) -> In q (checkedProperties p).
Proof.
  destruct p as [n dn t d r topts disp popts vals]. simpl.
  intros Hno -> -> Hg Hfields Hf Hq. right. simpl.
  apply in_flat_map. exists g. split; [done|].
  destruct g. simpl in Hfields. rewrite Hfields. apply in_flat_map. eauto.
Qed.

(** The children of a fixedCollection that get checked are fields of
    its options. *)
Lemma fixedCollectionChildren_fields nodeProperties nodeValues basePath opts children :
  fixedCollectionChildren nodeProperties nodeValues basePath opts = Ok children ->
  forall child, In child children ->
    exists g fields, In g opts /\ values g = Some fields /\ In (snd child) fields.
Proof.
  unfold fixedCollectionChildren. intros Hloop.
  refine (forEach_invariant _
            (fun children =>
               forall child, In child children ->
                 exists g fields, In g opts /\ values g = Some fields
                                  /\ In (snd child) fields)
            opts _ _ _ _ Hloop); [|done].
  intros found g found' Hg Hfound Hturn.
  destruct (isUndefined _); [by injection Hturn as <-|].
  assert (Hadd : forall fields prefix,
            values g = Some fields ->
            forall child,
              In child (found ++ map (fun option : INodeProperties => (prefix, option)) fields) ->
              exists g fields, In g opts /\ values g = Some fields
                               /\ In (snd child) fields).
  { intros fields prefix Hfields child Hchild.
    apply in_app_iff in Hchild as [Hchild|Hchild]; [by apply Hfound|].
    apply in_map_iff in Hchild as (option & <- & Hoption). simpl. eauto. }
  destruct (multipleValuesDefined nodeProperties).
  - destruct (getParameterValueByPath _ _ _) as [| | | | |items| |];
      try (by injection Hturn as <-).
    refine (forEach_invariant _
              (fun children =>
                 forall child, In child children ->
                   exists g fields, In g opts /\ values g = Some fields
                                    /\ In (snd child) fields)
              (seq 0 (length items)) _ _ _ Hfound Hturn).
    intros found1 i found2 _ Hfound1 Hinner.
    destruct (values g) as [fields|] eqn:Hfields; [|done].
    injection Hinner as <-. intros child Hchild.
    apply in_app_iff in Hchild as [Hchild|Hchild]; [by apply Hfound1|].
    apply in_map_iff in Hchild as (option & <- & Hoption). simpl. eauto.
  - destruct (values g) as [fields|] eqn:Hfields; [|done].
    injection Hturn as <-. by apply (Hadd fields _).
Qed.

Lemma fixedCollectionChildren_total nodeProperties nodeValues basePath opts :
  fixedCollectionChildren nodeProperties nodeValues basePath opts <> OutOfFuel.
Proof.
  unfold fixedCollectionChildren. apply forEach_total. intros found g _.
  destruct (isUndefined _); [done|].
  destruct (multipleValuesDefined nodeProperties).
  - destruct (getParameterValueByPath _ _ _); try done.
    apply forEach_total. intros found1 i _. by destruct (values g).
  - by destruct (values g).
Qed.

(** The children that are checked are checked properties of the
    property. *)
Lemma children_checked nodeProperties nodeValues path opts children :
  options nodeProperties = Some opts ->
  (if String.eqb (type nodeProperties) "collection" then
     Ok (Some (map (fun option : INodeProperties =>
                      (if String.eqb path EmptyString then EmptyString else path +:+ ".",
                       option)) opts))
   else if String.eqb (type nodeProperties) "fixedCollection" then
     let* children :=
       fixedCollectionChildren nodeProperties nodeValues
         (if String.eqb (if String.eqb path EmptyString then EmptyString else path +:+ ".")
                        EmptyString
          then name nodeProperties +:+ "."
          else (if String.eqb path EmptyString then EmptyString else path +:+ ".") +:+ ".")
         opts in
     Ok (Some children)
   else Ok None) = Ok (Some children) ->
  forall child, In child children ->
    propertyDepth (snd child) < propertyDepth nodeProperties
    /\ forall q, In q (checkedProperties (snd child)) ->
                 In q (checkedProperties nodeProperties).
Proof.
  intros Hopts Hchildren child Hchild.
  pose proof (schemaDepth_options _ _ Hopts) as Hnested.
  destruct (String.eqb_spec (type nodeProperties) "collection") as [Htype|Htype].
  - injection Hchildren as <-.
    apply in_map_iff in Hchild as (option & <- & Hoption). simpl. split.
    + pose proof (propertyDepth_le _ _ Hoption). lia.
    + intros q. by apply (checkedProperties_option _ opts option).
  - destruct (String.eqb_spec (type nodeProperties) "fixedCollection") as [Hfixed|];
      [|done].
    destruct (fixedCollectionChildren nodeProperties nodeValues _ opts)
      as [found| |] eqn:Hfound; simpl in Hchildren; try done.
    injection Hchildren as <-.
    destruct (fixedCollectionChildren_fields _ _ _ _ _ Hfound child Hchild)
      as (g & fields & Hg & Hfields & Hfield).
    split.
    + pose proof (propertyDepth_le _ _ Hg).
      pose proof (schemaDepth_values _ _ Hfields).
      pose proof (propertyDepth_le _ _ Hfield). lia.
    + intros q. apply (checkedProperties_field _ opts g fields (snd child)); try done.
      by apply String.eqb_neq.
Qed.

Lemma getParameterIssues_unfold fuel nodeProperties nodeValues path :
  getParameterIssues (S fuel) nodeProperties nodeValues path
  = let* foundIssues := requiredIssues nodeProperties nodeValues path in
    match options nodeProperties with
    | None => Ok foundIssues
    | Some opts =>
        let* checkChildNodeProperties :=
          if String.eqb (type nodeProperties) "collection" then
            Ok (Some (map (fun option : INodeProperties =>
                             (if String.eqb path EmptyString then EmptyString
                              else path +:+ ".", option)) opts))
          else if String.eqb (type nodeProperties) "fixedCollection" then
            let* children :=
              fixedCollectionChildren nodeProperties nodeValues
                (if String.eqb (if String.eqb path EmptyString then EmptyString
                                else path +:+ ".") EmptyString
                 then name nodeProperties +:+ "."
                 else (if String.eqb path EmptyString then EmptyString
                       else path +:+ ".") +:+ ".")
                opts in
            Ok (Some children)
          else Ok None in
        match checkChildNodeProperties with
        | None => Ok foundIssues
        | Some children =>
            forEach
              (fun found optionData =>
                 let* propertyIssues :=
                   getParameterIssues fuel (snd optionData) nodeValues (fst optionData) in
                 mergeIssues found (Some propertyIssues))
              children foundIssues
        end
    end.
Proof. reflexivity. Qed.

Lemma getParameterIssues_requiredOnly fuel : forall nodeProperties nodeValues path issues,
  getParameterIssues fuel nodeProperties nodeValues path = Ok issues ->
  requiredOnly (checkedProperties nodeProperties) issues.
Proof.
  induction fuel as [|fuel IH]; intros p nodeValues path issues Hcall; [done|].
  rewrite getParameterIssues_unfold in Hcall.
  destruct (requiredIssues p nodeValues path) as [own| |] eqn:Hown;
    cbn [bind] in Hcall; try done.
  assert (Hself : requiredOnly (checkedProperties p) own).
  { apply (requiredOnly_mono [p]); [|by apply (requiredOnly_required _ _ _ _ Hown)].
    intros q [<-|[]]. apply checkedProperties_self. }
  destruct (options p) as [opts|] eqn:Hopts; [|by injection Hcall as <-].
  destruct (if String.eqb (type p) "collection" then _ else _)
    as [[children|]| |] eqn:Hchildren; cbn [bind] in Hcall; try done;
    [|by injection Hcall as <-].
  refine (forEach_invariant _ (requiredOnly (checkedProperties p)) children _ _ _ _ Hcall);
    [|done].
  intros found child found' Hchild Hfound Hturn.
  destruct (getParameterIssues fuel (snd child) nodeValues (fst child))
    as [more| |] eqn:Hmore; simpl in Hturn; try done.
  apply (requiredOnly_merge _ found more); [done| |done].
  destruct (children_checked _ _ _ _ _ Hopts Hchildren child Hchild) as [_ Hsub].
  apply (requiredOnly_mono (checkedProperties (snd child))); [done|].
  by apply (IH _ _ _ _ Hmore).
Qed.

(** X11: [getParameterIssues] reports messages about required
    parameters and nothing else: it sets neither [execution] nor
    [credentials] nor [typeUnknown]; [parameters], when it is set, is
    not empty, every entry of it has at least one line, and every line
    under a name is "Parameter ... is required." for a required
    property of that name that the call checked: the property itself,
    an option of a collection or a field of an option of a
    fixedCollection, at whatever depth below it. *)
Theorem getParameterIssues_required_only fuel nodeProperties nodeValues path issues :
  getParameterIssues fuel nodeProperties nodeValues path = Ok issues ->
  execution issues = None /\ credentials issues = None /\ typeUnknown issues = None
  /\ match parameters issues with
     | Some messages =>
         messages <> ∅
         /\ forall k lines,
              messages !! k = Some lines ->
              lines <> []
              /\ forall line, In line lines ->
                   exists q, In q (checkedProperties nodeProperties)
                             /\ name q = k /\ required q = true
                             /\ line = isRequiredMessage q
     | None => True
     end.
Proof. apply getParameterIssues_requiredOnly. Qed.

Lemma getParameterIssues_total fuel : forall nodeProperties nodeValues path,
  propertyDepth nodeProperties <= fuel ->
  getParameterIssues fuel nodeProperties nodeValues path <> OutOfFuel.
Proof.
  induction fuel as [|fuel IH]; intros p nodeValues path Hdepth.
  - destruct p. simpl in Hdepth. lia.
  - rewrite getParameterIssues_unfold.
    apply bind_total; [apply requiredIssues_total|]. intros own _.
    destruct (options p) as [opts|] eqn:Hopts; [|done].
    destruct (if String.eqb (type p) "collection" then _ else _)
      as [[children|]| |] eqn:Hchildren; cbn [bind]; try done.
    + apply forEach_total. intros found child Hchild.
      apply bind_total; [|intros more _; apply mergeIssues_total].
      apply IH.
      destruct (children_checked _ _ _ _ _ Hopts Hchildren child Hchild) as [Hless _].
      lia.
    + destruct (String.eqb (type p) "collection"); [done|].
      destruct (String.eqb (type p) "fixedCollection"); [|done].
      destruct (fixedCollectionChildren p nodeValues _ opts) eqn:Hfixed; try done.
      by apply fixedCollectionChildren_total in Hfixed.
Qed.

Lemma fixedCollectionChildren_throws nodeProperties nodeValues basePath opts e :
  fixedCollectionChildren nodeProperties nodeValues basePath opts = Throw e ->
  e = TypeError /\ exists g, In g opts /\ values g = None.
Proof.
  unfold fixedCollectionChildren.
  apply (forEach_throws_with _
           (fun e => e = TypeError /\ exists g, In g opts /\ values g = None)).
  intros found g e' Hg Hturn.
  destruct (isUndefined _); [done|].
  destruct (multipleValuesDefined nodeProperties).
  - destruct (getParameterValueByPath _ _ _) as [| | | | |items| |]; try done.
    revert Hturn.
    apply (forEach_throws_with _
             (fun e => e = TypeError /\ exists g, In g opts /\ values g = None)).
    intros found1 i e3 _ Hinner. destruct (values g) eqn:Hvalues; [done|].
    injection Hinner as <-. eauto.
  - destruct (values g) eqn:Hvalues; [done|]. injection Hturn as <-. eauto.
Qed.

(** The two ways in which a check ends in an exception. *)
Lemma getParameterIssues_throws fuel : forall nodeProperties nodeValues path e,
  getParameterIssues fuel nodeProperties nodeValues path = Throw e ->
  e = TypeError
  /\ ((exists q, In q (checkedProperties nodeProperties)
                 /\ required q = true /\ onObjectPrototype (name q) = true)
      \/ (exists q opts g, In q (checkedProperties nodeProperties)
                           /\ type q = "fixedCollection"
                           /\ options q = Some opts /\ In g opts /\ values g = None)).
Proof.
  induction fuel as [|fuel IH]; intros p nodeValues path e Hcall; [done|].
  rewrite getParameterIssues_unfold in Hcall.
  destruct (requiredIssues p nodeValues path) as [own|e'|] eqn:Hown;
    cbn [bind] in Hcall; try done.
  2: { injection Hcall as <-.
       apply requiredIssues_throws in Hown as (-> & Hrequired & Hproto).
       split; [done|]. left. exists p. split; [apply checkedProperties_self|done]. }
  destruct (options p) as [opts|] eqn:Hopts; [|done].
  destruct (if String.eqb (type p) "collection" then _ else _)
    as [[children|]|e'|] eqn:Hchildren; cbn [bind] in Hcall; try done.
  - revert Hcall.
    apply (forEach_throws_with _
             (fun e =>
                e = TypeError
                /\ ((exists q, In q (checkedProperties p)
                               /\ required q = true /\ onObjectPrototype (name q) = true)
                    \/ (exists q opts g, In q (checkedProperties p)
                                         /\ type q = "fixedCollection"
                                         /\ options q = Some opts /\ In g opts
                                         /\ values g = None)))).
    intros found child e' Hchild Hturn.
    destruct (children_checked _ _ _ _ _ Hopts Hchildren child Hchild) as [_ Hsub].
    destruct (getParameterIssues fuel (snd child) nodeValues (fst child))
      as [more|e''|] eqn:Hmore; cbn [bind] in Hturn; try done.
    + (* the merge throws: a message under an inherited name *)
      pose proof (getParameterIssues_requiredOnly _ _ _ _ _ Hmore)
        as (_ & Hcredentials & _ & Hparameters).
      destruct (mergeIssues_cases found more) as [[Hok _]|[Hthrow [k Hblocked]]];
        [by rewrite Hok in Hturn|].
      rewrite Hthrow in Hturn. injection Hturn as <-. split; [done|]. left.
      destruct Hblocked as [(Hproto & Hholds & _)|(_ & Hholds & _)];
        [|by rewrite Hcredentials in Hholds].
      destruct (parameters more) as [messages|]; [|done].
      apply holds_lookup in Hholds as [lines Hlook].
      destruct Hparameters as [_ Hparameters].
      destruct (Hparameters k lines Hlook) as [Hlines Hall].
      destruct lines as [|line lines]; [done|].
      destruct (Hall line (or_introl eq_refl)) as (q & Hq & <- & Hrequired & _).
      exists q. split; [by apply Hsub|done].
    + injection Hturn as <-.
      destruct (IH _ _ _ _ Hmore) as [-> Hcause]. split; [done|].
      destruct Hcause as [(q & Hq & Hrest)|(q & os & g & Hq & Hrest)].
      * left. exists q. split; [by apply Hsub|done].
      * right. exists q, os, g. split; [by apply Hsub|done].
  - injection Hcall as <-.
    destruct (String.eqb (type p) "collection"); [done|].
    destruct (String.eqb_spec (type p) "fixedCollection") as [Hfixed|]; [|done].
    destruct (fixedCollectionChildren p nodeValues _ opts) as [found|e''|] eqn:Hfound;
      simpl in Hchildren; try done.
    injection Hchildren as <-.
    apply fixedCollectionChildren_throws in Hfound as (-> & g & Hg & Hvalues).
    split; [done|]. right. exists p, opts, g.
    split; [apply checkedProperties_self|done].
Qed.

(** X12: with a budget of turns that covers the depth of the schema,
    [getParameterIssues] returns its issues or ends in a TypeError, and
    in nothing else.  The TypeError has one of two causes among the
    properties that the call checks: a required property named like a
    member of [Object.prototype], whose missing value cannot be
    recorded, or a fixedCollection with an option that has no fields.
    Where there is neither, the call returns. *)
Theorem getParameterIssues_ends fuel nodeProperties nodeValues path :
  propertyDepth nodeProperties <= fuel ->
  (exists issues,
     getParameterIssues fuel nodeProperties nodeValues path = Ok issues)
  \/ (getParameterIssues fuel nodeProperties nodeValues path = Throw TypeError
      /\ ((exists q, In q (checkedProperties nodeProperties)
                     /\ required q = true /\ onObjectPrototype (name q) = true)
          \/ (exists q opts g, In q (checkedProperties nodeProperties)
                               /\ type q = "fixedCollection"
                               /\ options q = Some opts /\ In g opts
                               /\ values g = None))).
Proof.
  intros Hfuel.
  pose proof (getParameterIssues_total fuel nodeProperties nodeValues path Hfuel)
    as Htotal.
  destruct (getParameterIssues _ _ _ _) as [issues|e|] eqn:Hcall; [eauto| |done].
  right. destruct (getParameterIssues_throws _ _ _ _ _ Hcall) as [-> Hcause]. done.
Qed.

(** ** Which values count as missing *)

Lemma isMissing_types nodeProperties value :
  isMissing nodeProperties value = true ->
  type nodeProperties = "string" \/ type nodeProperties = "multiOptions"
  \/ type nodeProperties = "dateTime".
Proof.
  unfold isMissing. intros Hmissing.
  destruct (String.eqb_spec (type nodeProperties) "string"); [by left|].
  destruct (String.eqb_spec (type nodeProperties) "multiOptions"); [right; by left|].
  destruct (String.eqb_spec (type nodeProperties) "dateTime"); [right; by right|].
  done.
Qed.

(** The loop over the elements of an array: one line for each element
    that is missing, unless the first of them cannot be recorded. *)
Lemma addToIssuesIfMissing_fold nodeProperties singles : forall found,
  forEach (fun found single => addToIssuesIfMissing found nodeProperties single)
          singles found
  = if length (List.filter (isMissing nodeProperties) singles) =? 0 then Ok found
    else if unwritable (from_option id ∅ (parameters found)) (name nodeProperties)
    then Throw TypeError
    else Ok (mkNodeIssues (execution found) (credentials found)
               (Some (pushMessages (name nodeProperties)
                        (repeat (isRequiredMessage nodeProperties)
                                (length (List.filter (isMissing nodeProperties) singles)))
                        (from_option id ∅ (parameters found))))
               (typeUnknown found)).
Proof.
  induction singles as [|single singles IH]; intros found; simpl; [done|].
  unfold addToIssuesIfMissing at 1.
  destruct (isMissing nodeProperties single); simpl; [|apply IH].
  destruct (unwritable _ _) eqn:Hblocked; [done|]. cbn [bind].
  rewrite IH. simpl.
  destruct (length (List.filter (isMissing nodeProperties) singles)) as [|count];
    simpl; [done|].
  assert (Hfree : unwritable
            (pushMessages (name nodeProperties) [isRequiredMessage nodeProperties]
               (from_option id ∅ (parameters found))) (name nodeProperties) = false).
  { unfold unwritable, pushMessages. rewrite lookup_insert_eq.
    rewrite bool_decide_eq_true_2 by eauto. apply andb_false_r. }
  rewrite Hfree.
  f_equal. f_equal. f_equal. unfold pushMessages. apply map_eq. intros k.
  destruct (decide (name nodeProperties = k)) as [<-|Hne].
  - rewrite !lookup_insert_eq. simpl. by rewrite <- app_assoc.
  - by rewrite !lookup_insert_ne.
Qed.

(** X13: the required check only knows three types.  A simple property
    of any other type than string, multiOptions and dateTime has no
    issues, whether it is required or not and whatever its value is;
    and a value of a required string that is neither the empty string
    nor undefined, null for one, is not missing. *)
Theorem getParameterIssues_checked_types fuel nodeProperties nodeValues path :
  isComplexType (type nodeProperties) = false ->
  (type nodeProperties <> "string" ->
   type nodeProperties <> "multiOptions" ->
   type nodeProperties <> "dateTime" ->
   getParameterIssues (S fuel) nodeProperties nodeValues path = Ok noIssues)
  /\ (type nodeProperties = "string" ->
      multipleValuesDefined nodeProperties = false ->
      getParameterValueByPath nodeValues (name nodeProperties) path
        <> VStr EmptyString ->
      getParameterValueByPath nodeValues (name nodeProperties) path <> VUndefined ->
      getParameterIssues (S fuel) nodeProperties nodeValues path = Ok noIssues).
Proof.
  clear isEqual.
  intros Hsimple. rewrite getParameterIssues_simple by done.
  unfold requiredIssues. split.
  - intros H1 H2 H3.
    assert (Hnever : forall value, isMissing nodeProperties value = false).
    { intros value. apply not_true_is_false. intros Hmissing.
      apply isMissing_types in Hmissing. tauto. }
    destruct (required nodeProperties); [|done].
    destruct (displayParameterPath _ _ _); [|done].
    destruct (multipleValuesDefined nodeProperties).
    + destruct (getParameterValueByPath _ _ _) as [| | | | |singles| |]; try done.
      rewrite addToIssuesIfMissing_fold.
      rewrite (List.filter_ext _ (fun _ => false)) by done.
      by rewrite filter_nothing.
    + unfold addToIssuesIfMissing. by rewrite Hnever.
  - intros Htype -> Hempty Hundefined.
    destruct (required nodeProperties); [|done].
    destruct (displayParameterPath _ _ _); [|done].
    unfold addToIssuesIfMissing, isMissing. rewrite Htype. simpl.
    destruct (getParameterValueByPath nodeValues (name nodeProperties) path)
      as [| | | |s| | |]; try done.
    simpl. destruct (String.eqb_spec s EmptyString) as [->|_]; done.
Qed.

(** X14: for a required simple property with [typeOptions.multipleValues]
    set, one line is reported for each element of the array that is
    missing, all under the name of the property and all the same;
    unless the property is named like a member of [Object.prototype],
    for then the first missing element ends the check in a TypeError. *)
Theorem getParameterIssues_multiple_values fuel nodeProperties nodeValues path singles :
  isComplexType (type nodeProperties) = false ->
  required nodeProperties = true ->
  multipleValuesDefined nodeProperties = true ->
  displayParameterPath nodeValues nodeProperties path = true ->
  getParameterValueByPath nodeValues (name nodeProperties) path = VArr singles ->
  (onObjectPrototype (name nodeProperties) = false
   \/ List.filter (isMissing nodeProperties) singles = [] ->
   exists issues,
     getParameterIssues (S fuel) nodeProperties nodeValues path = Ok issues
     /\ messagesFor (parameters issues) (name nodeProperties)
        = repeat (isRequiredMessage nodeProperties)
                 (length (List.filter (isMissing nodeProperties) singles))
     /\ forall k, k <> name nodeProperties -> messagesFor (parameters issues) k = [])
  /\ (onObjectPrototype (name nodeProperties) = true ->
      List.filter (isMissing nodeProperties) singles <> [] ->
      getParameterIssues (S fuel) nodeProperties nodeValues path = Throw TypeError).
Proof.
  intros Hsimple Hrequired Hmultiple Hshown Hvalue.
  rewrite getParameterIssues_simple by done.
  unfold requiredIssues. rewrite Hrequired, Hshown, Hmultiple, Hvalue.
  rewrite addToIssuesIfMissing_fold. simpl. rewrite unwritable_empty.
  split.
  - intros Hfree.
    destruct (List.filter (isMissing nodeProperties) singles) as [|missing rest] eqn:Hcount;
      simpl.
    { eexists. split; [done|]. by split. }
    destruct Hfree as [->|?]; [|done].
    eexists. split; [done|]. simpl. unfold pushMessages. split.
    + by rewrite lookup_insert_eq, lookup_empty.
    + intros k Hk. by rewrite lookup_insert_ne, lookup_empty.
  - intros -> Hsome.
    by destruct (List.filter (isMissing nodeProperties) singles).
Qed.

(** ** getNodeParametersIssues *)

Lemma requiredOnly_silent checked issues :
  requiredOnly checked issues ->
  (forall k, messagesFor (parameters issues) k = []) ->
  issues = noIssues.
Proof.
  intros (He & Hc & Ht & Hp) Hsilent. destruct issues as [e c p t]. simpl in *.
  subst. unfold noIssues. f_equal.
  destruct p as [messages|]; [|done]. destruct Hp as [Hsome Hlines].
  destruct Hsome. apply map_eq. intros k. rewrite lookup_empty.
  destruct (messages !! k) as [lines|] eqn:Hlook; [|done].
  destruct (Hlines _ _ Hlook) as [Hne _].
  specialize (Hsilent k). simpl in Hsilent. rewrite Hlook in Hsilent. done.
Qed.

Lemma requiredOnly_loud checked issues messages :
  requiredOnly checked issues ->
  parameters issues = Some messages ->
  exists k, messagesFor (parameters issues) k <> [].
Proof.
  intros (_ & _ & _ & Hp) Hsome. rewrite Hsome in *. destruct Hp as [Hne Hlines].
  destruct (map_choose _ Hne) as (k & lines & Hlook).
  exists k. simpl. rewrite Hlook. simpl. by apply (Hlines _ _ Hlook).
Qed.

Lemma flat_map_nil {A B} (f : A -> list B) (l : list A) :
  flat_map f l = [] -> forall x, In x l -> f x = [].
Proof.
  induction l as [|y l IH]; simpl; [done|].
  intros Happ x [<-|Hx]; apply app_eq_nil in Happ as [Hy Hl]; [done|by apply IH].
Qed.

(** The loop of [getNodeParametersIssues]. *)
Lemma getNodeParametersIssues_loop fuel nodeValues checked nodePropertiesArray :
  (forall p q, In p nodePropertiesArray -> In q (checkedProperties p) -> In q checked) ->
  forall start found,
    requiredOnly checked start ->
    forEach
      (fun foundIssues nodeProperty =>
         let* propertyIssues :=
           getParameterIssues fuel nodeProperty nodeValues EmptyString in
         mergeIssues foundIssues (Some propertyIssues))
      nodePropertiesArray start = Ok found ->
    requiredOnly checked found
    /\ (forall p, In p nodePropertiesArray ->
                  exists issues,
                    getParameterIssues fuel p nodeValues EmptyString = Ok issues)
    /\ forall k,
         messagesFor (parameters found) k
         = messagesFor (parameters start) k
           ++ flat_map
                (fun p =>
                   match getParameterIssues fuel p nodeValues EmptyString with
                   | Ok issues => messagesFor (parameters issues) k
                   | _ => []
                   end)
                nodePropertiesArray.
Proof.
  induction nodePropertiesArray as [|p rest IH]; intros Hsub start found Hstart Hloop;
    cbn [forEach] in Hloop.
  - injection Hloop as <-. split; [done|]. split; [done|].
    intros k. simpl. by rewrite app_nil_r.
  - destruct (getParameterIssues fuel p nodeValues EmptyString) as [issues| |] eqn:Hp;
      cbn [bind] in Hloop; try done.
    destruct (mergeIssues start (Some issues)) as [next| |] eqn:Hmerge;
      cbn [bind] in Hloop; try done.
    assert (Hissues : requiredOnly checked issues).
    { apply (requiredOnly_mono (checkedProperties p)).
      - intros q. apply Hsub. by left.
      - by apply (getParameterIssues_requiredOnly _ _ _ _ _ Hp). }
    destruct (IH (fun p' q Hp' => Hsub p' q (or_intror Hp')) _ _
                (requiredOnly_merge _ _ _ _ Hstart Hissues Hmerge) Hloop)
      as (Hfound & Hall & Hlines).
    split; [done|]. split.
    + intros q [<-|Hq]; [eauto|by apply Hall].
    + intros k. rewrite Hlines. simpl. rewrite Hp.
      apply mergeIssues_Ok in Hmerge as [-> _]. simpl.
      rewrite appended_messagesFor, <- app_assoc. done.
Qed.

(** What a call that returns has found. *)
Lemma getNodeParametersIssues_Ok fuel nodePropertiesArray node result :
  getNodeParametersIssues fuel nodePropertiesArray node = Ok result ->
  match result with
  | None =>
      disabled node = Some true
      \/ forall p, In p nodePropertiesArray ->
           getParameterIssues fuel p (parametersOf node) EmptyString = Ok noIssues
  | Some issues =>
      disabled node <> Some true
      /\ requiredOnly (flat_map checkedProperties nodePropertiesArray) issues
      /\ (exists k, messagesFor (parameters issues) k <> [])
      /\ forall k,
           messagesFor (parameters issues) k
           = flat_map
               (fun p =>
                  match getParameterIssues fuel p (parametersOf node) EmptyString with
                  | Ok found => messagesFor (parameters found) k
                  | _ => []
                  end)
               nodePropertiesArray
  end.
Proof.
  unfold getNodeParametersIssues. intros Hcall.
  assert (Hsub : forall p q, In p nodePropertiesArray -> In q (checkedProperties p) ->
                             In q (flat_map checkedProperties nodePropertiesArray)).
  { intros p q Hp Hq. apply in_flat_map. eauto. }
  assert (Henabled :
            forall found,
              forEach
                (fun foundIssues nodeProperty =>
                   let* propertyIssues :=
                     getParameterIssues fuel nodeProperty (parametersOf node) EmptyString in
                   mergeIssues foundIssues (Some propertyIssues))
                nodePropertiesArray noIssues = Ok found ->
              (if hasNoKeys found then Ok None else Ok (Some found)) = Ok result ->
              match result with
              | None =>
                  forall p, In p nodePropertiesArray ->
                    getParameterIssues fuel p (parametersOf node) EmptyString = Ok noIssues
              | Some issues =>
                  requiredOnly (flat_map checkedProperties nodePropertiesArray) issues
                  /\ (exists k, messagesFor (parameters issues) k <> [])
                  /\ forall k,
                       messagesFor (parameters issues) k
                       = flat_map
                           (fun p =>
                              match getParameterIssues fuel p (parametersOf node)
                                      EmptyString with
                              | Ok found => messagesFor (parameters found) k
                              | _ => []
                              end)
                           nodePropertiesArray
              end).
  { intros found Hloop Hresult.
    destruct (getNodeParametersIssues_loop _ _ _ _ Hsub _ _ (requiredOnly_none _) Hloop)
      as (Hfound & Hall & Hlines).
    destruct (hasNoKeys found) eqn:Hkeys; injection Hresult as <-.
    - intros p Hp. destruct (Hall p Hp) as [issues Hissues]. rewrite Hissues. f_equal.
      eapply requiredOnly_silent;
        [by apply (getParameterIssues_requiredOnly _ _ _ _ _ Hissues)|].
      intros k.
      assert (Hnone : parameters found = None).
      { unfold hasNoKeys in Hkeys.
        by destruct (execution found), (credentials found), (parameters found),
             (typeUnknown found). }
      specialize (Hlines k). rewrite Hnone in Hlines. simpl in Hlines.
      symmetry in Hlines.
      pose proof (flat_map_nil _ _ Hlines p Hp) as Hnil. simpl in Hnil.
      by rewrite Hissues in Hnil.
    - split; [done|]. split; [|done].
      pose proof Hfound as (He & Hc & Ht & _).
      destruct (parameters found) as [messages|] eqn:Hsome.
      + destruct (requiredOnly_loud _ found messages Hfound Hsome) as [k Hk].
        exists k. by rewrite Hsome in Hk.
      + unfold hasNoKeys in Hkeys. by rewrite He, Hc, Ht, Hsome in Hkeys. }
  destruct (disabled node) as [[|]|] eqn:Hdisabled.
  - injection Hcall as <-. by left.
  - destruct (forEach _ nodePropertiesArray noIssues) as [found| |] eqn:Hloop;
      simpl in Hcall; try done.
    specialize (Henabled found eq_refl Hcall).
    destruct result; [by split|by right].
  - destruct (forEach _ nodePropertiesArray noIssues) as [found| |] eqn:Hloop;
      simpl in Hcall; try done.
    specialize (Henabled found eq_refl Hcall).
    destruct result; [by split|by right].
Qed.


(** ** nodeIssuesToString *)

Lemma issueLines_In keysOf messages line :
  (forall (m : IssueMessages) k, In k (keysOf m) <-> is_Some (m !! k)) ->
  In line (issueLines keysOf messages)
  <-> exists k, In line (messagesFor messages k).
Proof.
  intros Hkeys. unfold issueLines, messagesFor.
  destruct messages as [m|]; [|by split; [|intros [_ []]]].
  rewrite in_flat_map. split.
  - intros (k & _ & Hline). eauto.
  - intros (k & Hline). exists k. split; [|done].
    apply Hkeys. destruct (m !! k); [eauto|done].
Qed.

Lemma nodeIssuesToString_In keysOf issues node line :
  (forall (m : IssueMessages) k, In k (keysOf m) <-> is_Some (m !! k)) ->
  In line (nodeIssuesToString keysOf issues node)
  <-> (execution issues <> None /\ line = "Execution Error.")
      \/ (exists k, In line (messagesFor (parameters issues) k))
      \/ (exists k, In line (messagesFor (credentials issues) k))
      \/ (typeUnknown issues <> None
          /\ line = match node with
                    | Some node =>
                        "Node Type " +:+ quote +:+ nodeType node +:+ quote
                          +:+ " is not known."
                    | None => "Node Type is not known."
                    end).
Proof.
  intros Hkeys. unfold nodeIssuesToString. simpl.
  rewrite <- !(issueLines_In keysOf) by done.
  destruct (execution issues) as [e|], (typeUnknown issues) as [t|];
    try destruct node as [n|]; rewrite ?in_app_iff; simpl;
    intuition congruence.
Qed.

(** X16: the lines of [nodeIssuesToString] are "Execution Error." when
    [execution] is set, to true or to false; every message recorded for
    a parameter and every message recorded for a credential; and, when
    [typeUnknown] is set, the line about the node type, with the type
    when the node is given.  There are no other lines. *)
Theorem nodeIssuesToString_lines keysOf issues node line :
  (forall (m : IssueMessages) k, In k (keysOf m) <-> is_Some (m !! k)) ->
  In line (nodeIssuesToString keysOf issues node)
  <-> (execution issues <> None /\ line = "Execution Error.")
      \/ (exists k, In line (messagesFor (parameters issues) k))
      \/ (exists k, In line (messagesFor (credentials issues) k))
      \/ (typeUnknown issues <> None
          /\ line = match node with
                    | Some node =>
                        "Node Type " +:+ quote +:+ nodeType node +:+ quote
                          +:+ " is not known."
                    | None => "Node Type is not known."
                    end).
Proof. apply nodeIssuesToString_In. Qed.

(** X17: the lines that [nodeIssuesToString] makes of the issues that
    [getNodeParametersIssues] returns are messages "Parameter ... is
    required." of required properties that were checked, each for a
    property of the list or for an option or field below one; and there
    is at least one line. *)
Theorem getNodeParametersIssues_lines keysOf fuel nodePropertiesArray node issues other :
  (forall (m : IssueMessages) k, In k (keysOf m) <-> is_Some (m !! k)) ->
  getNodeParametersIssues fuel nodePropertiesArray node = Ok (Some issues) ->
  nodeIssuesToString keysOf issues other <> []
  /\ forall line,
       In line (nodeIssuesToString keysOf issues other) ->
       exists p q,
         In p nodePropertiesArray /\ In q (checkedProperties p)
         /\ required q = true /\ line = isRequiredMessage q.
Proof.
  intros Hkeys Hcall.
  apply getNodeParametersIssues_Ok in Hcall as (_ & Honly & [k Hk] & _).
  split.
  - intros Hnil.
    destruct (messagesFor (parameters issues) k) as [|line lines] eqn:Hlines; [done|].
    assert (Hin : In line (nodeIssuesToString keysOf issues other)).
    { apply nodeIssuesToString_In; [done|]. right. left. exists k.
      rewrite Hlines. by left. }
    by rewrite Hnil in Hin.
  - intros line Hline. apply nodeIssuesToString_In in Hline; [|done].
    destruct Honly as (He & Hc & Ht & Hp).
    destruct Hline as [[Hex _]|[(k' & Hline)|[(k' & Hline)|[Hty _]]]];
      [done| |by rewrite Hc in Hline|done].
    destruct (parameters issues) as [messages|]; [|done]. simpl in Hline.
    destruct (messages !! k') as [lines|] eqn:Hlook; [|done].
    destruct Hp as [_ Hp]. destruct (Hp _ _ Hlook) as [_ Hall].
    destruct (Hall line Hline) as (q & Hq & _ & Hrequired & ->).
    apply in_flat_map in Hq as (p & Hp' & Hq). exists p, q. done.
Qed.

(** ** Where the options of a collection are checked *)

Lemma string_append_assoc (a b c : string) : (a +:+ b) +:+ c = a +:+ (b +:+ c).
Proof.
  induction a as [|x a IH]; [done|].
  change (String x ((a +:+ b) +:+ c) = String x (a +:+ (b +:+ c))). by f_equal.
Qed.

Lemma append_dot_nonempty (a : string) : String.eqb (a +:+ ".") EmptyString = false.
Proof. by destruct a. Qed.

(** The required-check of a property that is not named like a member
    of [Object.prototype] returns. *)
Lemma requiredIssues_returns nodeProperties nodeValues path :
  onObjectPrototype (name nodeProperties) = false ->
  exists found, requiredIssues nodeProperties nodeValues path = Ok found.
Proof.
  intros Hname.
  destruct (requiredIssues nodeProperties nodeValues path) as [found|e|] eqn:Hcall;
    [eauto| |by apply requiredIssues_total in Hcall].
  apply requiredIssues_throws in Hcall as (_ & _ & Hproto). congruence.
Qed.

Lemma blocked_free found more :
  (forall k, holds (parameters more) k = true -> onObjectPrototype k = false) ->
  credentials more = None ->
  free found more.
Proof.
  intros Hkeys Hcredentials k. split; intros (Hproto & Hholds & _).
  - apply Hkeys in Hholds. congruence.
  - by rewrite Hcredentials in Hholds.
Qed.

(** What a required-check reports is under the name of the property. *)
Lemma requiredIssues_own nodeProperties nodeValues path found k :
  requiredIssues nodeProperties nodeValues path = Ok found ->
  holds (parameters found) k = true -> k = name nodeProperties.
Proof.
  intros Hcall Hholds.
  apply requiredOnly_required in Hcall as (_ & _ & _ & Hp).
  destruct (parameters found) as [messages|]; [|done].
  apply holds_lookup in Hholds as [lines Hlook].
  destruct Hp as [_ Hp]. destruct (Hp k lines Hlook) as [Hlines Hall].
  destruct lines as [|line lines]; [done|].
  destruct (Hall line (or_introl eq_refl)) as (q & [<-|[]] & <- & _). done.
Qed.

Lemma getParameterIssues_options fuel nodeValues basePath opts :
  (forall o, In o opts -> isComplexType (type o) = false) ->
  (forall o, In o opts -> onObjectPrototype (name o) = false) ->
  forall start,
    exists found,
      forEach
        (fun found (optionData : string * INodeProperties) =>
           let* propertyIssues :=
             getParameterIssues (S fuel) (snd optionData) nodeValues (fst optionData) in
           mergeIssues found (Some propertyIssues))
        (map (fun option : INodeProperties => (basePath, option)) opts) start
      = Ok found
      /\ forall k,
           messagesFor (parameters found) k
           = messagesFor (parameters start) k
             ++ flat_map
                  (fun o =>
                     match requiredIssues o nodeValues basePath with
                     | Ok issues => messagesFor (parameters issues) k
                     | _ => []
                     end)
                  opts.
Proof.
  induction opts as [|o opts IH]; intros Hsimple Hnames start.
  { exists start. split; [done|]. intros k. simpl. by rewrite app_nil_r. }
  cbn [map forEach fst snd flat_map].
  rewrite getParameterIssues_simple by (apply Hsimple; by left).
  destruct (requiredIssues_returns o nodeValues basePath (Hnames o (or_introl eq_refl)))
    as [own Hown].
  rewrite Hown. cbn [bind].
  assert (Hfree : free start own).
  { apply blocked_free.
    - intros k Hk. rewrite (requiredIssues_own _ _ _ _ _ Hown Hk).
      apply Hnames. by left.
    - by apply requiredOnly_required in Hown as (_ & ? & _). }
  rewrite (mergeIssues_free _ _ Hfree). cbn [bind].
  destruct (IH (fun q Hq => Hsimple q (or_intror Hq))
               (fun q Hq => Hnames q (or_intror Hq)) (merged start own))
    as (found & Hloop & Hlines).
  exists found. split; [done|]. intros k. rewrite Hlines. simpl.
  by rewrite appended_messagesFor, <- app_assoc.
Qed.

(** X18: the simple options of a collection are checked like properties
    next to the collection, not inside it: the value that is tested for
    an option is read at the path of the collection followed by the
    name of the option, without the name of the collection.  At the top
    level that is the name of the option alone; below it the path has
    two dots in a row.  When no option is named like a member of
    [Object.prototype], the check returns, and the lines reported are
    those of the collection itself, followed by those of its options in
    their order. *)
Theorem getParameterIssues_collection_options fuel nodeProperties nodeValues path opts :
  type nodeProperties = "collection" ->
  options nodeProperties = Some opts ->
  (forall o, In o opts -> isComplexType (type o) = false) ->
  ((forall o, In o opts -> onObjectPrototype (name o) = false) ->
   exists own issues,
     requiredIssues nodeProperties nodeValues path = Ok own
     /\ getParameterIssues (S (S fuel)) nodeProperties nodeValues path = Ok issues
     /\ (forall o, In o opts ->
           exists found,
             requiredIssues o nodeValues
               (if String.eqb path EmptyString then EmptyString else path +:+ ".")
             = Ok found)
     /\ forall k,
          messagesFor (parameters issues) k
          = messagesFor (parameters own) k
            ++ flat_map
                 (fun o =>
                    match requiredIssues o nodeValues
                            (if String.eqb path EmptyString then EmptyString
                             else path +:+ ".") with
                    | Ok found => messagesFor (parameters found) k
                    | _ => []
                    end)
                 opts)
  /\ forall o,
       getParameterValueByPath nodeValues (name o)
         (if String.eqb path EmptyString then EmptyString else path +:+ ".")
       = get nodeValues
           (if String.eqb path EmptyString then name o
            else path +:+ ".." +:+ name o).
Proof.
  clear isEqual.
  intros Htype Hopts Hsimple. split.
  - intros Hnames.
    assert (Hown : exists own, requiredIssues nodeProperties nodeValues path = Ok own).
    { unfold requiredIssues, addToIssuesIfMissing, isMissing. rewrite Htype. simpl.
      destruct (required nodeProperties); [|eauto].
      destruct (displayParameterPath _ _ _); [|eauto].
      destruct (multipleValuesDefined nodeProperties); [|eauto].
      destruct (getParameterValueByPath _ _ _) as [| | | | |singles| |]; eauto.
      induction singles as [|single singles IH]; simpl; eauto. }
    destruct Hown as [own Hown]. exists own.
    rewrite getParameterIssues_unfold, Hown, Hopts, Htype, String.eqb_refl.
    cbn [bind].
    destruct (getParameterIssues_options fuel nodeValues
                (if String.eqb path EmptyString then EmptyString else path +:+ ".")
                opts Hsimple Hnames own) as (issues & Hcall & Hlines).
    exists issues. split; [done|]. split; [done|]. split; [|done].
    intros o Ho. apply requiredIssues_returns. by apply Hnames.
  - intros o. unfold getParameterValueByPath.
    destruct (String.eqb path EmptyString) eqn:Hpath; [done|].
    rewrite append_dot_nonempty. f_equal. by rewrite string_append_assoc.
Qed.

End NodeHelpers.

(** ** Examples

    The examples run with [plainRuntime], with [lodashGet] for lodash
    [get] and with [valueEqb] for lodash [isEqual]. *)
#[global] Existing Instance plainRuntime.

Lemma displayParameter_expression_hidden :
  displayOptions twoKeyField
  = Some [("show", [("A", [VStr "x"]); ("B", [VStr "y"])])]
  /\ existsb isExpression (resolveValues lodashGet twoKeyValues twoKeyValues "B") = true
  /\ includes [VStr "y"] (VStr "=expr()") = false
  /\ displayParameter lodashGet twoKeyValues twoKeyField VUndefined = false.
Proof. repeat split. Qed.

Lemma displayParameter_expression_visible_witness :
  displayParameter lodashGet (VObj [("A", VStr "=expr()")]) exprField VUndefined = true.
Proof.
  apply (displayParameter_expression_visible lodashGet
           (VObj [("A", VStr "=expr()")]) exprField VUndefined
           [("show", [("A", [VStr "x"])])] [] "A" [VStr "x"] []);
    reflexivity.
Defined.




Lemma getParamterResolveOrder_repeats_index_witness :
  getParamterDependencies dependentPair = Ok [("A", ["B"]); ("B", [])]
  /\ getParamterResolveOrder dependentPair [("A", ["B"]); ("B", [])] = Ok [0; 1; 0].
Proof.
  split; [reflexivity|].
  apply (getParamterResolveOrder_repeats_index
           (plainField "A" (Some [("show", [("B", [VStr "x"])])]))
           (plainField "B" None)
           [("A", ["B"]); ("B", [])]);
    [discriminate | reflexivity | reflexivity | reflexivity].
Defined.

Lemma getParamterResolveOrder_accepts_cycle_witness :
  getParamterDependencies cyclicPair = Ok [("A", ["B"]); ("B", ["A"])]
  /\ getParamterResolveOrder cyclicPair [("A", ["B"]); ("B", ["A"])] = Ok [0; 1; 0].
Proof.
  split; [reflexivity|].
  apply (getParamterResolveOrder_accepts_cycle
           (plainField "A" (Some [("show", [("B", [VStr "x"])])]))
           (plainField "B" (Some [("show", [("A", [VStr "y"])])]))
           [("A", ["B"]); ("B", ["A"])]);
    [discriminate | reflexivity | reflexivity | reflexivity].
Defined.

(** Without [multipleValues] an unknown alternative is dropped in
    silence, and with it an empty array under an unknown name is kept. *)
Lemma getNodeParameters_unknown_option_accepted :
  findOption [knownGroup] "unknown" = None
  /\ getNodeParameters lodashGet valueEqb 4 [fixedCollectionField None] unknownSingle
       true true false false VUndefined None None
     = Ok (VObj [("fc", VObj [])])
  /\ getNodeParameters lodashGet valueEqb 4 [fixedCollectionField None] unknownSingle
       false true false false VUndefined None None
     = Ok (VObj [])
  /\ getNodeParameters lodashGet valueEqb 4 [fixedCollectionField multipleOn] unknownEmpty
       true true false false VUndefined None None
     = Ok unknownEmpty.
Proof. repeat split. Qed.

Lemma getNodeParameters_unknown_option_witness :
  (exists e,
     getNodeParameters lodashGet valueEqb 4 [fixedCollectionField multipleOn] unknownFilled
       true true false false VUndefined None None
     = Throw e)
  /\ resolveSingle (fun _ _ _ _ => Ok (VObj [])) VUndefined
       (fixedCollectionField None) (VObj [("unknown", VArr [VNull])]) "unknown" []
     = Ok [].
Proof.
  split.
  - apply (proj1 (getNodeParameters_unknown_option lodashGet valueEqb 4
                    [fixedCollectionField multipleOn] unknownFilled
                    true true false VUndefined None None
                    0 (fixedCollectionField multipleOn) [knownGroup]
                    [("unknown", VArr [VObj [("a", VNum 1)]])] "unknown"
                    (VObj [("a", VNum 1)]) []
                    eq_refl eq_refl eq_refl eq_refl eq_refl eq_refl
                    (or_introl eq_refl) (le_n 4))).
    reflexivity.
  - apply (proj2 (getNodeParameters_unknown_option lodashGet valueEqb 4
                    [fixedCollectionField None]
                    (VObj [("fc", VObj [("unknown", VArr [VNull])])])
                    true true false VUndefined None None
                    0 (fixedCollectionField None) [knownGroup]
                    [("unknown", VArr [VNull])] "unknown" VNull []
                    eq_refl eq_refl eq_refl eq_refl eq_refl eq_refl
                    (or_introl eq_refl) (le_n 4))).
    reflexivity.
Defined.




(** None of these resolutions is settled. *)
Lemma settled_excludes :
  settled lodashGet valueEqb 3 filledDefault (VObj []) VUndefined None = false
  /\ settled lodashGet valueEqb 3 sharedNames (VObj []) VUndefined None = false
  /\ settled lodashGet valueEqb 4 undefinedDefault
       (VObj [("c", VObj [("x", VStr EmptyString)])]) VUndefined None = false
  /\ settled lodashGet valueEqb 3 noOptions (VObj []) VUndefined None = false
  /\ settled lodashGet valueEqb 4 unorderedOptions (VObj []) VUndefined None = false.
Proof. repeat split. Qed.


(** ** Properties of the webhook paths *)

Lemma sliceButLast_endsWith s :
  endsWith s "/" = true -> s = sliceButLast s +:+ "/".
Proof.
  induction s as [|c s IH]; [done|].
  destruct s as [|c' s'].
  - simpl. intros Hc. apply Ascii.eqb_eq in Hc. by subst.
  - intros Hends. change (String c (String c' s') = String c (sliceButLast (String c' s') +:+ "/")).
    f_equal. by apply IH.
Qed.

Lemma append_empty_r s : s +:+ EmptyString = s.
Proof. induction s as [|c s IH]; [done|]. change (String c (s +:+ EmptyString) = String c s). by f_equal. Qed.

Lemma trimTail_spec s :
  s = (if endsWith s "/" then sliceButLast s else s)
        +:+ (if endsWith s "/" then "/" else EmptyString).
Proof.
  destruct (endsWith s "/") eqn:Hends.
  - by apply sliceButLast_endsWith.
  - by rewrite append_empty_r.
Qed.

(** What [trimSlashes] removes is at most one slash in front and at
    most one slash behind. *)
Lemma trimSlashes_spec raw :
  raw = (if startsWith raw "/" then "/" else EmptyString)
          +:+ trimSlashes raw
          +:+ (if endsWith (if startsWith raw "/" then sliceFrom1 raw else raw) "/"
               then "/" else EmptyString).
Proof.
  unfold trimSlashes.
  destruct (startsWith raw "/") eqn:Hstart.
  - destruct raw as [|c rest]; [done|].
    apply Ascii.eqb_eq in Hstart as ->.
    change (sliceFrom1 (String "/" rest)) with rest.
    change (String "/" rest = String "/" ((if endsWith rest "/" then sliceButLast rest else rest)
              +:+ (if endsWith rest "/" then "/" else EmptyString))).
    f_equal. apply trimTail_spec.
  - apply trimTail_spec.
Qed.

(** *** Lower-casing and URL-encoding, character by character *)

Lemma isUnreserved_reference c : isUnreserved c = inString c uriUnreserved.
Proof. destruct c as [[] [] [] [] [] [] [] []]; reflexivity. Qed.

Lemma lowerAscii_reference c :
  nat_of_ascii c < 128 -> lowerAscii c = lowerReference c.
Proof. destruct c as [[] [] [] [] [] [] [] []]; intros H; try reflexivity; vm_compute in H; lia. Qed.

Lemma escape_decodes c :
  isUnreserved c = false ->
  hexValue (hexDigit (nat_of_ascii c / 16)) = Some (nat_of_ascii c / 16)
  /\ hexValue (hexDigit (nat_of_ascii c mod 16)) = Some (nat_of_ascii c mod 16)
  /\ ascii_of_nat (16 * (nat_of_ascii c / 16) + nat_of_ascii c mod 16) = c
  /\ inString (hexDigit (nat_of_ascii c / 16)) uriUnreserved = true
  /\ inString (hexDigit (nat_of_ascii c mod 16)) uriUnreserved = true.
Proof.
  destruct c as [[] [] [] [] [] [] [] []]; intros H; try discriminate H;
    vm_compute; repeat split.
Qed.

Lemma unreserved_kept c : isUnreserved c = true -> Ascii.eqb c "%" = false.
Proof. destruct c as [[] [] [] [] [] [] [] []]; intros H; try discriminate H; reflexivity. Qed.

Lemma encodeURIComponent_decodes s : percentDecode (encodeURIComponent s) = Some s.
Proof.
  induction s as [|c s IH]; [done|].
  cbn [encodeURIComponent].
  destruct (isUnreserved c) eqn:Hc.
  - cbn [percentDecode]. rewrite (unreserved_kept c Hc), IH. done.
  - destruct (escape_decodes c Hc) as (Hhigh & Hlow & Hcode & _).
    cbn [percentDecode]. change (Ascii.eqb "%" "%") with true. cbv iota.
    rewrite Hhigh, Hlow, IH, Hcode. done.
Qed.

Lemma encodeURIComponent_characters s c :
  In c (list_ascii_of_string (encodeURIComponent s)) ->
  c = "%"%char \/ inString c uriUnreserved = true.
Proof.
  induction s as [|d s IH]; [done|].
  cbn [encodeURIComponent].
  destruct (isUnreserved d) eqn:Hd.
  - intros [<-|Hc]; [|by apply IH]. right. by rewrite <- isUnreserved_reference.
  - destruct (escape_decodes d Hd) as (_ & _ & _ & Hhigh & Hlow).
    intros [<-|[<-|[<-|Hc]]]; [by left|by right|by right|by apply IH].
Qed.

Lemma encodeURIComponent_unreserved s :
  (forall c, In c (list_ascii_of_string s) -> inString c uriUnreserved = true) ->
  encodeURIComponent s = s.
Proof.
  induction s as [|d s IH]; [done|]. intros Hall.
  cbn [encodeURIComponent].
  rewrite isUnreserved_reference, (Hall d (or_introl eq_refl)).
  f_equal. apply IH. intros c Hc. apply Hall. by right.
Qed.

Lemma encodeURIComponent_length s :
  String.length (encodeURIComponent s)
  = String.length s
    + 2 * length (List.filter (fun c => negb (inString c uriUnreserved))
                    (list_ascii_of_string s)).
Proof.
  induction s as [|d s IH]; [done|].
  cbn [encodeURIComponent list_ascii_of_string List.filter].
  rewrite <- isUnreserved_reference.
  destruct (isUnreserved d); simpl; rewrite IH; lia.
Qed.

Lemma isAscii_spec s :
  isAscii s = true <-> forall c, In c (list_ascii_of_string s) -> nat_of_ascii c < 128.
Proof.
  induction s as [|d s IH]; simpl; [by split|].
  rewrite andb_true_iff, IH, Nat.ltb_lt. split.
  - intros [Hd Hs] c [<-|Hc]; auto.
  - intros Hall. split; [apply Hall; by left|]. intros c Hc. apply Hall. by right.
Qed.

Lemma lowerLetters_reference s :
  isAscii s = true -> lowerLetters s = mapString lowerReference s.
Proof.
  induction s as [|d s IH]; [done|]. simpl.
  intros [Hd Hs]%andb_prop. apply Nat.ltb_lt in Hd.
  by rewrite lowerAscii_reference, IH.
Qed.

Section WebhookPaths.

Context `{runtime : Runtime}.

(** C9: the path recorded for a webhook is the raw path without one
    leading and one trailing slash, taken as it is for a restart
    webhook; otherwise, on a node with a webhookId, taken as it is for a
    full path and prefixed with the webhookId if not; otherwise prefixed
    with the workflow id and the URL-encoded lower-cased node name.
    Lower-casing turns the letters A to Z of a name made of ASCII
    characters into a to z and leaves its other characters; the
    lower-casing of any other name is the runtime's.  URL-encoding
    keeps letters, digits and [- _ . ! ~ * ' ( )], replaces every other
    byte by a percent sign and its two upper-case hexadecimal digits,
    and is undone by decoding the escapes.  The three examples of the
    specification come out as stated. *)
Theorem webhookPath_composition workflowId node raw isFullPath restartWebhook :
  webhookPath workflowId node raw isFullPath restartWebhook
  = (let path := trimSlashes raw in
     match restartWebhook, webhookId node, isFullPath with
     | Some true, _, _ => path
     | _, Some id, Some true => path
     | _, Some id, _ => id +:+ "/" +:+ path
     | _, None, _ =>
         workflowId +:+ "/" +:+ encodeURIComponent (toLowerCase (nodeName node))
           +:+ "/" +:+ path
     end)
  /\ raw = (if startsWith raw "/" then "/" else EmptyString)
             +:+ trimSlashes raw
             +:+ (if endsWith (if startsWith raw "/" then sliceFrom1 raw else raw) "/"
                  then "/" else EmptyString)
  /\ ((forall c, In c (list_ascii_of_string (nodeName node)) -> nat_of_ascii c < 128) ->
      toLowerCase (nodeName node) = mapString lowerReference (nodeName node))
  /\ (~ (forall c, In c (list_ascii_of_string (nodeName node)) -> nat_of_ascii c < 128) ->
      toLowerCase (nodeName node) = unicodeLower (nodeName node))
  /\ (forall s, percentDecode (encodeURIComponent s) = Some s)
  /\ (forall s c, In c (list_ascii_of_string (encodeURIComponent s)) ->
                  c = "%"%char \/ inString c uriUnreserved = true)
  /\ (forall s,
        String.length (encodeURIComponent s)
        = String.length s
          + 2 * length (List.filter (fun c => negb (inString c uriUnreserved))
                          (list_ascii_of_string s)))
  /\ (forall s,
        (forall c, In c (list_ascii_of_string s) -> inString c uriUnreserved = true) ->
        encodeURIComponent s = s)
  /\ webhookPath "wf1" myNode "/hook/" None None = "wf1/my%20node/hook"
  /\ webhookPath "wf1" myNodeWithId "/hook/" (Some false) None = "abc/hook"
  /\ webhookPath "wf1" myNode "/hook/" None (Some true) = "hook"
  /\ webhookPath "wf1" myNodeWithId "/hook/" (Some false) (Some true) = "hook"
  /\ (unicodeLower cafeUpper = cafeLower ->
      webhookPath "wf1" (mkNode cafeUpper None) "p" None None = "wf1/caf%C3%A9/p").
Proof.
  split.
  { unfold webhookPath, getNodeWebhookPath. simpl.
    destruct restartWebhook as [[]|], (webhookId node), isFullPath as [[]|]; reflexivity. }
  split; [apply trimSlashes_spec|].
  split.
  { intros Hascii. apply isAscii_spec in Hascii. unfold toLowerCase. rewrite Hascii.
    by apply lowerLetters_reference. }
  split.
  { intros Hother. unfold toLowerCase.
    destruct (isAscii (nodeName node)) eqn:Hascii; [|done].
    destruct Hother. by apply isAscii_spec. }
  split; [apply encodeURIComponent_decodes|].
  split; [apply encodeURIComponent_characters|].
  split; [apply encodeURIComponent_length|].
  split; [apply encodeURIComponent_unreserved|].
  do 4 (split; [by vm_compute|]).
  intros Hlower. unfold webhookPath, getNodeWebhookPath, toLowerCase. simpl.
  change (String "C" (String "A" (String "F" (String (ascii_of_nat 195)
            (String (ascii_of_nat 137) EmptyString))))) with cafeUpper.
  rewrite Hlower. by vm_compute.
Qed.

End WebhookPaths.

(** ** mergeNodeProperties *)

(** One turn of the loop, as a recursion over the array. *)
Lemma mergeProperty_cons element rest property :
  mergeProperty (element :: rest) property
  = if String.eqb (name element) (name property)
    then property :: rest
    else element :: mergeProperty rest property.
Proof.
  unfold mergeProperty. simpl.
  destruct (String.eqb (name element) (name property)); [done|].
  by destruct (findIndex _ rest).
Qed.

Lemma mergeProperty_names mainProperties property :
  map name (mergeProperty mainProperties property)
  = if existsb (String.eqb (name property)) (map name mainProperties)
    then map name mainProperties
    else map name mainProperties ++ [name property].
Proof.
  induction mainProperties as [|element rest IH]; [done|].
  rewrite mergeProperty_cons. simpl.
  rewrite (String.eqb_sym (name property)).
  destruct (String.eqb_spec (name element) (name property)) as [Heq|_]; simpl.
  - by rewrite Heq.
  - rewrite IH. by destruct (existsb _ _).
Qed.

Lemma existsb_eqb_names k (names : list string) :
  existsb (String.eqb k) names = true <-> In k names.
Proof.
  rewrite existsb_exists. split.
  - intros (x & Hx & Heq). apply String.eqb_eq in Heq. by subst.
  - intros Hin. exists k. by rewrite String.eqb_refl.
Qed.

Lemma mergeProperty_unique mainProperties property :
  NoDup (map name mainProperties) ->
  NoDup (map name (mergeProperty mainProperties property)).
Proof.
  intros Hnodup. rewrite mergeProperty_names.
  destruct (existsb _ _) eqn:Hhas; [done|].
  apply NoDup_app. split; [done|]. split; [|apply NoDup_singleton].
  intros k Hk Hp. apply list_elem_of_singleton in Hp as ->.
  apply list_elem_of_In, existsb_eqb_names in Hk. congruence.
Qed.

Lemma mergeNodeProperties_unique mainProperties addProperties :
  NoDup (map name mainProperties) ->
  NoDup (map name (mergeNodeProperties mainProperties addProperties)).
Proof.
  unfold mergeNodeProperties. revert mainProperties.
  induction addProperties as [|property rest IH]; intros mainProperties Hnodup; [done|].
  simpl. by apply IH, mergeProperty_unique.
Qed.

(** X19: merging keeps the properties of [mainProperties] in their
    places, name by name, and adds behind them every name of
    [addProperties] that [mainProperties] does not have, once.  So when
    no two properties of [mainProperties] share a name, no two
    properties of the merged array do. *)
Theorem mergeNodeProperties_names mainProperties addProperties :
  (exists added,
     map name (mergeNodeProperties mainProperties addProperties)
     = map name mainProperties ++ added
     /\ NoDup added
     /\ forall parameterName,
          In parameterName added
          <-> In parameterName (map name addProperties)
              /\ ~ In parameterName (map name mainProperties))
  /\ (NoDup (map name mainProperties) ->
      NoDup (map name (mergeNodeProperties mainProperties addProperties))).
Proof.
  split; [|apply mergeNodeProperties_unique].
  unfold mergeNodeProperties.
  revert mainProperties.
  induction addProperties as [|property rest IH]; intros mainProperties; simpl.
  - exists []. rewrite app_nil_r. split; [done|]. split; [constructor|].
    intros k. simpl. tauto.
  - destruct (IH (mergeProperty mainProperties property)) as (added & Hnames & Hnodup & Hin).
    rewrite mergeProperty_names in Hnames, Hin.
    destruct (existsb (String.eqb (name property)) (map name mainProperties)) eqn:Hhas.
    + apply existsb_eqb_names in Hhas.
      exists added. split; [done|]. split; [done|].
      intros k. rewrite Hin. intuition congruence.
    + assert (Hnot : ~ In (name property) (map name mainProperties)).
      { intros Hp. apply existsb_eqb_names in Hp. congruence. }
      exists (name property :: added). split; [by rewrite Hnames, <- app_assoc|].
      split.
      * apply NoDup_cons. split; [|done].
        intros Hp. apply list_elem_of_In, Hin in Hp as [_ Hp].
        apply Hp, in_or_app. right. by left.
      * intros k. simpl. rewrite Hin, in_app_iff. simpl.
        destruct (String.eqb_spec (name property) k) as [<-|Hne]; intuition congruence.
Qed.

Lemma mergeProperty_find mainProperties property parameterName :
  findOption (mergeProperty mainProperties property) parameterName
  = if String.eqb (name property) parameterName then Some property
    else findOption mainProperties parameterName.
Proof.
  unfold findOption.
  induction mainProperties as [|element rest IH].
  - done.
  - rewrite mergeProperty_cons.
    destruct (String.eqb_spec (name element) (name property)) as [Heq|Hne]; simpl.
    + rewrite Heq. by destruct (String.eqb (name property) parameterName).
    + rewrite IH.
      destruct (String.eqb_spec (name element) parameterName) as [Hx|_]; [|done].
      destruct (String.eqb_spec (name property) parameterName) as [Hp|_]; [|done].
      congruence.
Qed.

Lemma find_snoc {A} (f : A -> bool) (l : list A) x :
  List.find f (l ++ [x])
  = match List.find f l with
    | Some y => Some y
    | None => if f x then Some x else None
    end.
Proof.
  induction l as [|y l IH]; simpl; [done|]. by destruct (f y).
Qed.

Lemma lastNamed_cons property rest parameterName :
  lastNamed (property :: rest) parameterName
  = match lastNamed rest parameterName with
    | Some found => Some found
    | None => if String.eqb (name property) parameterName then Some property else None
    end.
Proof.
  unfold lastNamed. simpl.
  apply (find_snoc (fun o => String.eqb (name o) parameterName)).
Qed.

Lemma mergeNodeProperties_find mainProperties addProperties parameterName :
  findOption (mergeNodeProperties mainProperties addProperties) parameterName
  = match lastNamed addProperties parameterName with
    | Some property => Some property
    | None => findOption mainProperties parameterName
    end.
Proof.
  unfold mergeNodeProperties. revert mainProperties.
  induction addProperties as [|property rest IH]; intros mainProperties; [done|].
  simpl. rewrite IH, lastNamed_cons, mergeProperty_find.
  destruct (lastNamed rest parameterName); [done|].
  by destruct (String.eqb (name property) parameterName).
Qed.

(** X20: looked up by name (with [find], which takes the first match),
    the merged array gives the last property of [addProperties] that has
    the name, and what [mainProperties] gave when there is none. *)
Theorem mergeNodeProperties_last_wins mainProperties addProperties parameterName :
  findOption (mergeNodeProperties mainProperties addProperties) parameterName
  = match lastNamed addProperties parameterName with
    | Some property => Some property
    | None => findOption mainProperties parameterName
    end.
Proof. apply mergeNodeProperties_find. Qed.

Lemma lastNamed_snoc addProperties property parameterName :
  lastNamed (addProperties ++ [property]) parameterName
  = if String.eqb (name property) parameterName then Some property
    else lastNamed addProperties parameterName.
Proof. unfold lastNamed. by rewrite rev_unit. Qed.

Lemma lastNamed_name addProperties parameterName property :
  lastNamed addProperties parameterName = Some property ->
  name property = parameterName.
Proof.
  unfold lastNamed. intros Hfind. apply find_some in Hfind as [_ Heq].
  by apply String.eqb_eq.
Qed.

Lemma overridden_nil mainProperties : overridden [] mainProperties = mainProperties.
Proof. induction mainProperties as [|x rest IH]; simpl; by rewrite ?IH. Qed.

Lemma overridden_names addProperties mainProperties :
  map name (overridden addProperties mainProperties) = map name mainProperties.
Proof.
  revert addProperties.
  induction mainProperties as [|x rest IH]; intros addProperties; simpl; [done|].
  rewrite IH. f_equal.
  destruct (lastNamed addProperties (name x)) as [p|] eqn:Hlast; [|done].
  by apply lastNamed_name in Hlast.
Qed.

(** On an array that has the name of [property], a turn of the loop
    changes which property overrides that name, nothing else. *)
Lemma mergeProperty_overridden mainProperties : forall addProperties property,
  In (name property) (map name mainProperties) ->
  mergeProperty (overridden addProperties mainProperties) property
  = overridden (addProperties ++ [property]) mainProperties.
Proof.
  induction mainProperties as [|x rest IH]; intros addProperties property Hin; [done|].
  simpl. rewrite mergeProperty_cons, lastNamed_snoc, List.filter_app. simpl.
  assert (Hhead : name (match lastNamed addProperties (name x) with
                        | Some p => p
                        | None => x
                        end) = name x).
  { destruct (lastNamed addProperties (name x)) as [p|] eqn:Hlast; [|done].
    by apply lastNamed_name in Hlast. }
  rewrite Hhead. rewrite (String.eqb_sym (name property) (name x)).
  destruct (String.eqb_spec (name x) (name property)) as [Heq|Hne]; simpl.
  - by rewrite app_nil_r.
  - f_equal. apply IH. destruct Hin as [Hin|Hin]; [congruence|done].
Qed.

Lemma mergeNodeProperties_overridden addProperties : forall merged mainProperties,
  (forall property, In property addProperties -> In (name property) (map name mainProperties)) ->
  fold_left mergeProperty addProperties (overridden merged mainProperties)
  = overridden (merged ++ addProperties) mainProperties.
Proof.
  induction addProperties as [|property rest IH]; intros merged mainProperties Hnames; simpl.
  - by rewrite app_nil_r.
  - rewrite mergeProperty_overridden by (apply Hnames; by left).
    rewrite IH by (intros q Hq; apply Hnames; by right).
    by rewrite <- app_assoc.
Qed.

Lemma mergeNodeProperties_has_names addProperties : forall mainProperties parameterName,
  In parameterName (map name mainProperties) \/ In parameterName (map name addProperties) ->
  In parameterName (map name (mergeNodeProperties mainProperties addProperties)).
Proof.
  unfold mergeNodeProperties.
  induction addProperties as [|property rest IH]; intros mainProperties k Hin; simpl.
  - destruct Hin as [Hin|[]]. done.
  - apply IH. rewrite mergeProperty_names.
    destruct (existsb (String.eqb (name property)) (map name mainProperties)) eqn:Hhas.
    + apply existsb_eqb_names in Hhas.
      destruct Hin as [Hin|[<-|Hin]]; auto.
    + rewrite in_app_iff. simpl. destruct Hin as [Hin|[<-|Hin]]; auto.
Qed.

Lemma find_filter_same {A} (f g : A -> bool) (l : list A) :
  (forall x, f x = true -> g x = true) ->
  List.find f (List.filter g l) = List.find f l.
Proof.
  intros Himp. induction l as [|x l IH]; simpl; [done|].
  destruct (g x) eqn:Hg; simpl.
  - by rewrite IH.
  - destruct (f x) eqn:Hf; [|done]. apply Himp in Hf. congruence.
Qed.

Lemma filter_rev_list {A} (g : A -> bool) (l : list A) :
  List.filter g (rev l) = rev (List.filter g l).
Proof.
  induction l as [|x l IH]; simpl; [done|].
  rewrite List.filter_app, IH. simpl. destruct (g x); simpl; [done|].
  by rewrite app_nil_r.
Qed.

Lemma lastNamed_filter addProperties skipped parameterName property :
  lastNamed (List.filter (fun o => negb (String.eqb (name o) skipped)) addProperties)
            parameterName = Some property ->
  lastNamed addProperties parameterName = Some property /\ parameterName <> skipped.
Proof.
  unfold lastNamed. rewrite <- filter_rev_list. intros Hfind.
  pose proof (find_some _ _ Hfind) as [Hin Hname].
  apply filter_In in Hin as [_ Hkept].
  apply String.eqb_eq in Hname. apply negb_true_iff, String.eqb_neq in Hkept.
  split; [|congruence].
  rewrite find_filter_same in Hfind; [done|].
  intros o Ho. apply String.eqb_eq in Ho.
  apply negb_true_iff, String.eqb_neq. congruence.
Qed.

Lemma overridden_same mainProperties : forall addProperties,
  (forall parameterName property,
     lastNamed addProperties parameterName = Some property ->
     findOption mainProperties parameterName = Some property) ->
  overridden addProperties mainProperties = mainProperties.
Proof.
  induction mainProperties as [|x rest IH]; intros addProperties Hlast; [done|].
  simpl. f_equal.
  - destruct (lastNamed addProperties (name x)) as [p|] eqn:Hp; [|done].
    apply Hlast in Hp. unfold findOption in Hp. simpl in Hp.
    rewrite String.eqb_refl in Hp. congruence.
  - apply IH. intros k p Hp.
    apply lastNamed_filter in Hp as [Hp Hne].
    apply Hlast in Hp. unfold findOption in *. simpl in Hp.
    destruct (String.eqb_spec (name x) k) as [Heq|_]; [congruence|done].
Qed.

(** X21: merging the same [addProperties] a second time changes nothing. *)
Theorem mergeNodeProperties_idempotent mainProperties addProperties :
  mergeNodeProperties (mergeNodeProperties mainProperties addProperties) addProperties
  = mergeNodeProperties mainProperties addProperties.
Proof.
  set (merged := mergeNodeProperties mainProperties addProperties).
  unfold mergeNodeProperties at 1.
  rewrite <- (overridden_nil merged) at 1.
  rewrite mergeNodeProperties_overridden.
  - apply overridden_same. intros k p Hp.
    unfold merged. rewrite mergeNodeProperties_find. simpl in Hp. by rewrite Hp.
  - intros p Hp. apply mergeNodeProperties_has_names. right. by apply in_map.
Qed.

(** ** getContext *)

Lemma contextKey_Ok type node key :
  contextKey type node = Ok key ->
  (type = "flow" /\ key = "flow")
  \/ (type = "node" /\ exists n, node = Some n /\ key = "node:" +:+ nodeName n).
Proof.
  unfold contextKey.
  destruct (String.eqb_spec type "flow") as [->|_].
  - intros [= <-]. by left.
  - destruct (String.eqb_spec type "node") as [->|_]; [|done].
    destruct node as [n|]; [|done]. intros [= <-]. right. eauto.
Qed.

(** What a call that returns has done: the context it returns is kept
    under the key, and it is not undefined. *)
Lemma getContext_Ok runExecutionData type node context after :
  getContext runExecutionData type node = Ok (context, after) ->
  exists data key,
    executionData runExecutionData = Some data
    /\ contextKey type node = Ok key
    /\ lookupProp key (contextData data)
       = (if isUndefined (match lookupProp key (contextData data) with
                          | Some v => v
                          | None => VUndefined
                          end)
          then lookupProp key (contextData data) else Some context)
    /\ after
       = mkRunExecutionData
           (Some (mkExecutionData
                    (if isUndefined (match lookupProp key (contextData data) with
                                     | Some v => v
                                     | None => VUndefined
                                     end)
                     then setProp key (VObj []) (contextData data)
                     else contextData data)))
    /\ (if isUndefined (match lookupProp key (contextData data) with
                        | Some v => v
                        | None => VUndefined
                        end)
        then context = VObj [] else isUndefined context = false).
Proof.
  unfold getContext.
  destruct (executionData runExecutionData) as [data|]; [|done].
  destruct (contextKey type node) as [key| |]; simpl; try done.
  intros Hcall. exists data, key. do 2 (split; [done|]).
  destruct (lookupProp key (contextData data)) as [v|] eqn:Hlook.
  - destruct v; simpl in *;
      rewrite ?lookupProp_setProp_eq, ?Hlook in Hcall; by injection Hcall as <- <-.
  - simpl in *. rewrite lookupProp_setProp_eq in Hcall. by injection Hcall as <- <-.
Qed.

(** X22: the context that [getContext] returns is the object kept under
    its key in [contextData]; asking for it again returns the same
    context and leaves the execution data as the first call left it. *)
Theorem getContext_again runExecutionData type node context after :
  getContext runExecutionData type node = Ok (context, after) ->
  (exists data key,
     executionData after = Some data
     /\ contextKey type node = Ok key
     /\ lookupProp key (contextData data) = Some context)
  /\ getContext after type node = Ok (context, after).
Proof.
  intros Hcall.
  destruct (getContext_Ok _ _ _ _ _ Hcall) as (data & key & Hdata & Hkey & Hlook & -> & Hcontext).
  destruct (isUndefined _) eqn:Hundefined.
  - subst context. split.
    + eexists _, key. simpl. split; [done|]. split; [done|].
      apply lookupProp_setProp_eq.
    + unfold getContext. simpl. rewrite Hkey. simpl.
      by rewrite !lookupProp_setProp_eq.
  - assert (Hstored : lookupProp key (contextData data) = Some context) by done.
    split.
    + eexists _, key. simpl. by repeat split.
    + unfold getContext. simpl. rewrite Hkey. simpl. rewrite Hstored.
      destruct context; try done; by rewrite Hstored.
Qed.

Lemma getContext_again_witness :
  getContext (mkRunExecutionData (Some (mkExecutionData [("flow", VObj [("n", VNum 1)])])))
    "node" (Some myNode)
  = Ok (VObj [],
        mkRunExecutionData
          (Some (mkExecutionData [("flow", VObj [("n", VNum 1)]);
                                  ("node:My Node", VObj [])])))
  /\ getContext
       (mkRunExecutionData
          (Some (mkExecutionData [("flow", VObj [("n", VNum 1)]);
                                  ("node:My Node", VObj [])])))
       "node" (Some myNode)
     = Ok (VObj [],
           mkRunExecutionData
             (Some (mkExecutionData [("flow", VObj [("n", VNum 1)]);
                                     ("node:My Node", VObj [])]))).
Proof.
  split; [reflexivity|].
  apply (getContext_again
           (mkRunExecutionData (Some (mkExecutionData [("flow", VObj [("n", VNum 1)])])))
           "node" (Some myNode)).
  reflexivity.
Defined.

Lemma append_inj_r (prefix a b : string) :
  prefix +:+ a = prefix +:+ b -> a = b.
Proof.
  induction prefix as [|c prefix IH]; simpl; [done|].
  intros [= Heq]. by apply IH.
Qed.

(** Two keys are the same only for the same type and, for the type
    "node", the same node name. *)
Lemma contextKey_inj type node type' node' key :
  contextKey type node = Ok key ->
  contextKey type' node' = Ok key ->
  type = type'
  /\ (type = "node" ->
      exists n n', node = Some n /\ node' = Some n' /\ nodeName n = nodeName n').
Proof.
  intros H1 H2.
  apply contextKey_Ok in H1 as [[-> ->]|(-> & n & -> & ->)];
    apply contextKey_Ok in H2 as [[-> H2]|(-> & n' & -> & H2)]; try done.
  split; [done|]. intros _. exists n, n'. do 2 (split; [done|]).
  by apply (append_inj_r "node:").
Qed.

(** X23: the flow context and the contexts of the nodes are kept apart.
    A call for one of them does not change what a call for the other
    type, or a call for a node of another name, returns. *)
Theorem getContext_separate runExecutionData type node context after type' node' :
  getContext runExecutionData type node = Ok (context, after) ->
  type <> type'
  \/ (type = "node"
      /\ exists n n', node = Some n /\ node' = Some n' /\ nodeName n <> nodeName n') ->
  (let* other := getContext after type' node' in Ok (fst other))
  = (let* other := getContext runExecutionData type' node' in Ok (fst other)).
Proof.
  intros Hcall Hother.
  destruct (getContext_Ok _ _ _ _ _ Hcall) as (data & key & Hdata & Hkey & _ & -> & _).
  unfold getContext. rewrite Hdata. simpl.
  destruct (contextKey type' node') as [key'| |] eqn:Hkey'; simpl; try done.
  assert (Hne : key <> key').
  { intros <-. destruct (contextKey_inj _ _ _ _ _ Hkey Hkey') as [Htype Hnode].
    destruct Hother as [Hother|(-> & n & n' & -> & -> & Hother)]; [done|].
    destruct (Hnode eq_refl) as (a & b & [= <-] & [= <-] & Hab). done. }
  assert (Hsame : lookupProp key'
                    (if isUndefined (match lookupProp key (contextData data) with
                                     | Some v => v
                                     | None => VUndefined
                                     end)
                     then setProp key (VObj []) (contextData data)
                     else contextData data)
                  = lookupProp key' (contextData data)).
  { destruct (isUndefined _); [|done]. by apply lookupProp_setProp_ne. }
  rewrite Hsame.
  destruct (lookupProp key' (contextData data)) as [v|] eqn:Hlook.
  - destruct v; simpl; rewrite ?lookupProp_setProp_eq, ?Hsame, ?Hlook; done.
  - simpl. by rewrite !lookupProp_setProp_eq.
Qed.

Lemma getContext_separate_witness :
  (let* other :=
     getContext
       (mkRunExecutionData
          (Some (mkExecutionData [("flow", VObj [("n", VNum 1)]);
                                  ("node:My Node", VObj [])])))
       "flow" None in
   Ok (fst other))
  = Ok (VObj [("n", VNum 1)]).
Proof.
  rewrite (getContext_separate
             (mkRunExecutionData (Some (mkExecutionData [("flow", VObj [("n", VNum 1)])])))
             "node" (Some myNode) (VObj [])
             (mkRunExecutionData
                (Some (mkExecutionData [("flow", VObj [("n", VNum 1)]);
                                        ("node:My Node", VObj [])])))
             "flow" None eq_refl).
  - reflexivity.
  - left. discriminate.
Defined.

(** X24: [getContext] returns exactly when the execution data is
    initialised and the type is "flow", or "node" with a node given;
    in every other case it throws, and it never returns undefined. *)
Theorem getContext_defined runExecutionData type node :
  ((exists context after, getContext runExecutionData type node = Ok (context, after))
   <-> executionData runExecutionData <> None
       /\ (type = "flow" \/ (type = "node" /\ node <> None)))
  /\ (forall context after,
        getContext runExecutionData type node = Ok (context, after) ->
        isUndefined context = false)
  /\ ((exists result, getContext runExecutionData type node = Ok result)
      \/ (exists message, getContext runExecutionData type node
                           = Throw (JsError message))).
Proof.
  split; [|split].
  - split.
    + intros (context & after & Hcall).
      destruct (getContext_Ok _ _ _ _ _ Hcall) as (data & key & Hdata & Hkey & _).
      split; [by rewrite Hdata|].
      apply contextKey_Ok in Hkey as [[-> _]|(-> & n & -> & _)]; [by left|by right].
    + intros [Hdata Htype]. unfold getContext.
      destruct (executionData runExecutionData) as [data|]; [|done].
      assert (Hkey : exists key, contextKey type node = Ok key).
      { unfold contextKey.
        destruct Htype as [->|[-> Hnode]]; simpl; [eauto|].
        destruct node; [eauto|done]. }
      destruct Hkey as [key ->]. simpl. eauto.
  - intros context after Hcall.
    destruct (getContext_Ok _ _ _ _ _ Hcall) as (data & key & _ & _ & _ & _ & Hcontext).
    destruct (isUndefined (match _ with Some v => v | None => VUndefined end));
      [by subst|done].
  - unfold getContext, contextKey.
    destruct (executionData runExecutionData) as [data|]; [|eauto].
    destruct (String.eqb type "flow"); simpl; [eauto|].
    destruct (String.eqb type "node"); simpl; [|eauto].
    destruct node; simpl; eauto.
Qed.

(** ** prepareOutputData *)

Lemma emptyOutputs_fold {A B} (turns : list B) (returnData : list (list A)) :
  fold_left (fun returnData _ => returnData ++ [[]]) turns returnData
  = returnData ++ repeat [] (length turns).
Proof.
  revert returnData. induction turns as [|t turns IH]; intros returnData; simpl.
  - by rewrite app_nil_r.
  - rewrite IH, <- app_assoc. done.
Qed.

(** X25: [prepareOutputData] puts the data at position [outputIndex],
    after that many empty outputs and with nothing behind it; an index
    that is left out, zero or negative puts it at position 0. *)
Theorem prepareOutputData_position {A} (outputData : list A) (outputIndex : option Z) :
  let position :=
    Z.to_nat (match outputIndex with Some i => i | None => 0%Z end) in
  length (prepareOutputData outputData outputIndex) = S position
  /\ nth_error (prepareOutputData outputData outputIndex) position = Some outputData
  /\ forall i, i < position ->
       nth_error (prepareOutputData outputData outputIndex) i = Some [].
Proof.
  intros position. unfold prepareOutputData.
  rewrite emptyOutputs_fold, length_seq. fold position. simpl.
  split; [|split].
  - rewrite length_app, repeat_length. simpl. lia.
  - rewrite nth_error_app2 by (rewrite repeat_length; lia).
    rewrite repeat_length, Nat.sub_diag. done.
  - intros i Hi. rewrite nth_error_app1 by (rewrite repeat_length; lia).
    by apply nth_error_repeat.
Qed.

(** ** getNodeWebhookUrl *)

Section WebhookUrls.

Context `{runtime : Runtime}.

(** X26: for a path with a parameter (it starts with a colon, or has a
    segment that does) on a node that has a webhook id, the URL is the
    base URL, the webhook id and the path without its leading slash,
    whether a full path was asked for or not.  For any other path that
    does not end in a slash, the URL is the base URL followed by the
    path under which [getNodeWebhooks] registers a webhook that is no
    restart webhook. *)
Theorem getNodeWebhookUrl_paths baseUrl workflowId node path isFullPath :
  (isDynamicWebhook node path = true ->
   exists id,
     webhookId node = Some id
     /\ id <> EmptyString
     /\ getNodeWebhookUrl baseUrl workflowId node path isFullPath
        = baseUrl +:+ "/" +:+ id +:+ "/"
            +:+ (if startsWith path "/" then sliceFrom1 path else path))
  /\ (isDynamicWebhook node path = false ->
      endsWith (if startsWith path "/" then sliceFrom1 path else path) "/" = false ->
      getNodeWebhookUrl baseUrl workflowId node path isFullPath
      = baseUrl +:+ "/" +:+ webhookPath workflowId node path isFullPath None).
Proof.
  split.
  - unfold getNodeWebhookUrl. intros Hdynamic. rewrite Hdynamic.
    unfold isDynamicWebhook in Hdynamic.
    apply andb_prop in Hdynamic as [Hpath Hid].
    unfold getNodeWebhookPath.
    destruct (webhookId node) as [id|]; [|done].
    exists id. split; [done|].
    apply negb_true_iff in Hid. split; [|done]. by apply String.eqb_neq.
  - intros Hstatic Hend.
    unfold getNodeWebhookUrl, webhookPath, trimSlashes.
    by rewrite Hstatic, Hend.
Qed.

(** ** The segments of a webhook path *)

Lemma hexDigit_unreserved n : n < 16 -> isUnreserved (hexDigit n) = true.
Proof.
  intros Hn. do 16 (destruct n as [|n]; [reflexivity|]). lia.
Qed.

Lemma encodeURIComponent_chars s c :
  In c (list_ascii_of_string (encodeURIComponent s)) ->
  isUnreserved c = true \/ c = "%"%char.
Proof.
  revert c. induction s as [|a s IH]; intros c; [done|].
  cbn -[Nat.div Nat.modulo hexDigit isUnreserved].
  destruct (isUnreserved a) eqn:Ha; cbn -[Nat.div Nat.modulo hexDigit isUnreserved].
  - intros [<-|Hc]; [by left|by apply IH].
  - intros [<-|[<-|[<-|Hc]]]; [by right| | |by apply IH]; left;
      apply hexDigit_unreserved.
    + apply Nat.Div0.div_lt_upper_bound. pose proof (nat_ascii_bounded a). lia.
    + apply Nat.mod_upper_bound. lia.
Qed.

(** X27: on a node without a webhook id, the path of a webhook that is
    no restart webhook is the workflow id, a segment made of the node
    name and the path given, with slashes between them; whatever the
    node is called, its segment is made of letters, digits, the marks
    [- _ . ! ~ * ' ( )] and the per cent sign, so it has no slash and
    no upper-case letter outside its escapes. *)
Theorem getNodeWebhookPath_segments workflowId node path isFullPath restartWebhook :
  webhookId node = None ->
  restartWebhook <> Some true ->
  exists segment,
    getNodeWebhookPath workflowId node path isFullPath restartWebhook
    = workflowId +:+ "/" +:+ segment +:+ "/" +:+ path
    /\ forall c, In c (list_ascii_of_string segment) ->
         (isUnreserved c = true \/ c = "%"%char) /\ c <> "/"%char.
Proof.
  intros Hid Hrestart. exists (encodeURIComponent (toLowerCase (nodeName node))).
  split.
  - unfold getNodeWebhookPath. rewrite Hid. by destruct restartWebhook as [[|]|].
  - intros c Hc. apply encodeURIComponent_chars in Hc. split; [done|].
    intros ->. by destruct Hc.
Qed.

End WebhookUrls.

Lemma getNodeWebhookPath_segments_witness :
  exists segment,
    getNodeWebhookPath "42" (mkNode "A/B c" None) "hook" None None
    = "42" +:+ "/" +:+ segment +:+ "/" +:+ "hook"
    /\ forall c, In c (list_ascii_of_string segment) ->
         (isUnreserved c = true \/ c = "%"%char) /\ c <> "/"%char.
Proof.
  apply (getNodeWebhookPath_segments "42" (mkNode "A/B c" None) "hook" None None).
  - reflexivity.
  - discriminate.
Defined.

(** ** getNodeWebhooks and getNodeWebhooksBasic *)

Lemma strictEq_true v : strictEq v (VBool true) = true <-> v = VBool true.
Proof.
  destruct v as [| |[|]| | | | |]; simpl; split; intros H; congruence.
Qed.

Section WebhookTurns.

Context `{runtime : Runtime}.
Variable toString : Value -> Result string.
Variable workflow : Workflow.t.
Variable node : INodeData.

Let evaluate parameterValue defaultValue :=
  Workflow.getSimpleParameterValue workflow node parameterValue "internal" (VObj [])
    defaultValue.

(** A turn of the loop of [getNodeWebhooks] that does not throw skips
    the description, writes an error, or adds one webhook. *)
Lemma addNodeWebhook_Ok additionalData ignoreRestartWehbooks workflowId st d st' :
  addNodeWebhook toString workflow node additionalData ignoreRestartWehbooks workflowId
    st d = Ok st' ->
  (st' = st /\ ignoreRestartWehbooks = true
   /\ IWebhookDescription.restartWebhook d = VBool true)
  \/ (exists line, st' = (fst st, snd st ++ [line]))
  \/ (exists pathValue raw full restart methodValue method,
        evaluate (IWebhookDescription.path d) None = Ok pathValue
        /\ isUndefined pathValue = false
        /\ toString pathValue = Ok raw
        /\ evaluate (IWebhookDescription.isFullPath d) (Some (VBool false)) = Ok full
        /\ evaluate (IWebhookDescription.restartWebhook d) (Some (VBool false))
           = Ok restart
        /\ evaluate (IWebhookDescription.httpMethod d) (Some (VStr "GET"))
           = Ok methodValue
        /\ isUndefined methodValue = false
        /\ toString methodValue = Ok method
        /\ (ignoreRestartWehbooks = true ->
            IWebhookDescription.restartWebhook d <> VBool true)
        /\ st' = (fst st ++
                    [IWebhookData.mk method (nodeName (inode node))
                       (webhookPath workflowId (inode node) raw
                          (flagOf full) (flagOf restart))
                       d workflowId (Some additionalData)
                       (if isDynamicWebhook (inode node)
                             (webhookPath workflowId (inode node) raw
                                (flagOf full) (flagOf restart))
                        then webhookId (inode node) else None)],
                  snd st)).
Proof.
  unfold addNodeWebhook. fold (evaluate (IWebhookDescription.path d) None).
  fold (evaluate (IWebhookDescription.isFullPath d) (Some (VBool false))).
  fold (evaluate (IWebhookDescription.restartWebhook d) (Some (VBool false))).
  fold (evaluate (IWebhookDescription.httpMethod d) (Some (VStr "GET"))).
  destruct (evaluate (IWebhookDescription.path d) None) as [pathValue| |];
    simpl; try done.
  destruct (isUndefined pathValue) eqn:Hpath.
  { intros [= <-]. right. left. eauto. }
  destruct (toString pathValue) as [raw| |] eqn:Hraw; simpl; try done.
  destruct (evaluate (IWebhookDescription.isFullPath d) (Some (VBool false)))
    as [full| |]; simpl; try done.
  destruct (evaluate (IWebhookDescription.restartWebhook d) (Some (VBool false)))
    as [restart| |]; simpl; try done.
  destruct (ignoreRestartWehbooks
            && strictEq (IWebhookDescription.restartWebhook d) (VBool true)) eqn:Hskip.
  { intros [= <-]. left. apply andb_prop in Hskip as [-> Hrestart].
    by apply strictEq_true in Hrestart. }
  destruct (evaluate (IWebhookDescription.httpMethod d) (Some (VStr "GET")))
    as [methodValue| |]; simpl; try done.
  destruct (isUndefined methodValue) eqn:Hmethod.
  { intros [= <-]. right. left. eauto. }
  destruct (toString methodValue) as [method| |] eqn:Hto; simpl; try done.
  intros [= <-]. right. right.
  exists pathValue, raw, full, restart, methodValue, method.
  do 8 (split; [done|]). split; [|done].
  intros -> Hrestart. apply strictEq_true in Hrestart. by rewrite Hrestart in Hskip.
Qed.

Let entryOf additionalData (ignoreRestartWehbooks : bool)
    (descriptions : list IWebhookDescription.t) (w : IWebhookData.t) : Prop :=
  exists pathValue raw full restart methodValue,
    In (IWebhookData.webhookDescription w) descriptions
    /\ evaluate (IWebhookDescription.path (IWebhookData.webhookDescription w)) None
       = Ok pathValue
    /\ toString pathValue = Ok raw
    /\ evaluate (IWebhookDescription.isFullPath (IWebhookData.webhookDescription w))
         (Some (VBool false)) = Ok full
    /\ evaluate (IWebhookDescription.restartWebhook (IWebhookData.webhookDescription w))
         (Some (VBool false)) = Ok restart
    /\ evaluate (IWebhookDescription.httpMethod (IWebhookData.webhookDescription w))
         (Some (VStr "GET")) = Ok methodValue
    /\ toString methodValue = Ok (IWebhookData.httpMethod w)
    /\ IWebhookData.path w
       = webhookPath (workflowIdOf workflow) (inode node) raw (flagOf full) (flagOf restart)
    /\ IWebhookData.node w = nodeName (inode node)
    /\ IWebhookData.workflowId w = workflowIdOf workflow
    /\ IWebhookData.workflowExecuteAdditionalData w = Some additionalData
    /\ IWebhookData.webhookId w
       = (if isDynamicWebhook (inode node) (IWebhookData.path w)
          then webhookId (inode node) else None)
    /\ (ignoreRestartWehbooks = true ->
        IWebhookDescription.restartWebhook (IWebhookData.webhookDescription w)
        <> VBool true).

Lemma addNodeWebhook_entries additionalData ignoreRestartWehbooks descriptions st st' :
  forEach (addNodeWebhook toString workflow node additionalData ignoreRestartWehbooks
             (workflowIdOf workflow)) descriptions st = Ok st' ->
  (forall w, In w (fst st) ->
             entryOf additionalData ignoreRestartWehbooks descriptions w) ->
  forall w, In w (fst st') ->
            entryOf additionalData ignoreRestartWehbooks descriptions w.
Proof.
  intros Hloop Hstart.
  refine (forEach_invariant _
            (fun st : WebhookState =>
               forall w, In w (fst st) ->
                         entryOf additionalData ignoreRestartWehbooks descriptions w)
            descriptions _ st st' Hstart Hloop).
  intros s d s' Hd Hs Hturn w Hw.
  apply addNodeWebhook_Ok in Hturn
    as [(-> & _)|[(line & ->)|(pv & raw & full & restart & mv & method & H1 & H2
                               & H3 & H4 & H5 & H6 & H7 & H8 & H9 & ->)]];
    [by apply Hs|by apply Hs|].
  simpl in Hw. apply in_app_or in Hw as [Hw|[<-|[]]]; [by apply Hs|].
  exists pv, raw, full, restart, mv. simpl.
  by repeat (split; [done|]).
Qed.

(** X28: every webhook that [getNodeWebhooks] returns belongs to one of
    the descriptions of the node type: its path is the path of C9 for
    what the three expressions of the description evaluate to, its
    method is what the method expression evaluates to, it names the
    node and the workflow, and it carries the webhook id of the node
    exactly when its path has a parameter.  When restart webhooks are
    to be ignored, none of the webhooks returned has a description
    marked as restart webhook. *)
Theorem getNodeWebhooks_entries additionalData ignoreRestartWehbooks returnData lines w :
  getNodeWebhooks toString workflow node additionalData ignoreRestartWehbooks
  = Ok (returnData, lines) ->
  In w returnData ->
  exists declaration descriptions pathValue raw full restart methodValue,
    Workflow.getByName workflow (nodeType node) = Some declaration
    /\ webhooks declaration = Some descriptions
    /\ In (IWebhookData.webhookDescription w) descriptions
    /\ evaluate (IWebhookDescription.path (IWebhookData.webhookDescription w)) None
       = Ok pathValue
    /\ toString pathValue = Ok raw
    /\ evaluate (IWebhookDescription.isFullPath (IWebhookData.webhookDescription w))
         (Some (VBool false)) = Ok full
    /\ evaluate (IWebhookDescription.restartWebhook (IWebhookData.webhookDescription w))
         (Some (VBool false)) = Ok restart
    /\ evaluate (IWebhookDescription.httpMethod (IWebhookData.webhookDescription w))
         (Some (VStr "GET")) = Ok methodValue
    /\ toString methodValue = Ok (IWebhookData.httpMethod w)
    /\ IWebhookData.path w
       = webhookPath (workflowIdOf workflow) (inode node) raw (flagOf full) (flagOf restart)
    /\ IWebhookData.node w = nodeName (inode node)
    /\ IWebhookData.workflowId w = workflowIdOf workflow
    /\ IWebhookData.workflowExecuteAdditionalData w = Some additionalData
    /\ IWebhookData.webhookId w
       = (if isDynamicWebhook (inode node) (IWebhookData.path w)
          then webhookId (inode node) else None)
    /\ (ignoreRestartWehbooks = true ->
        IWebhookDescription.restartWebhook (IWebhookData.webhookDescription w)
        <> VBool true).
Proof.
  unfold getNodeWebhooks. intros Hcall Hw.
  destruct (disabled node) as [[|]|] eqn:Hdisabled;
    try (injection Hcall as <- <-; done).
  all: destruct (Workflow.getByName workflow (nodeType node)) as [nt|] eqn:Htype;
    [|done].
  all: destruct (webhooks nt) as [descriptions|] eqn:Hwebhooks;
    [|injection Hcall as <- <-; done].
  all: exists nt, descriptions.
  all: destruct (addNodeWebhook_entries _ _ _ _ _ Hcall (fun w (H : In w []) => match H with end) w Hw)
         as (pv & raw & full & restart & mv & H).
  all: exists pv, raw, full, restart, mv.
  all: by repeat (split; [done|]).
Qed.

Lemma addNodeWebhook_accounts additionalData ignoreRestartWehbooks descriptions :
  forall st st',
    forEach (addNodeWebhook toString workflow node additionalData ignoreRestartWehbooks
               (workflowIdOf workflow)) descriptions st = Ok st' ->
    exists added lines,
      fst st' = fst st ++ added
      /\ snd st' = snd st ++ lines
      /\ sublist (map IWebhookData.webhookDescription added) descriptions
      /\ length added + length lines <= length descriptions
      /\ (ignoreRestartWehbooks = false ->
          length added + length lines = length descriptions).
Proof.
  induction descriptions as [|d descriptions IH]; intros st st' Hloop; simpl in Hloop.
  - injection Hloop as <-. exists [], []. rewrite !app_nil_r. simpl.
    repeat split; try done; try apply sublist_nil_l.
  - destruct (addNodeWebhook _ _ _ _ _ _ st d) as [s1| |] eqn:Hturn;
      simpl in Hloop; try done.
    destruct (IH s1 st' Hloop) as (added & lines & Hfst & Hsnd & Hsub & Hle & Heq).
    apply addNodeWebhook_Ok in Hturn
      as [(-> & Hignore & _)|[(line & ->)|(pv & raw & full & restart & mv & method & _
                                           & _ & _ & _ & _ & _ & _ & _ & _ & ->)]].
    + exists added, lines. do 2 (split; [done|]).
      split; [by apply sublist_cons|]. simpl. split; [lia|]. congruence.
    + exists added, (line :: lines). simpl in *.
      split; [done|]. split; [by rewrite Hsnd, <- app_assoc|].
      split; [by apply sublist_cons|]. split; [lia|]. intros H. specialize (Heq H). lia.
    + eexists (_ :: added), lines. simpl in *.
      split; [by rewrite Hfst, <- app_assoc|]. split; [done|].
      split; [by apply sublist_skip|]. split; [lia|]. intros H. specialize (Heq H). lia.
Qed.

(** X29: the webhooks that [getNodeWebhooks] returns follow the
    descriptions of the node type in their order, at most one for each.
    A description without a webhook has been reported with
    [console.error] or, when restart webhooks are ignored, passed over;
    when they are not ignored, every description has its webhook or its
    line of error.  A disabled node has neither webhooks nor lines. *)
Theorem getNodeWebhooks_accounts additionalData ignoreRestartWehbooks
    declaration descriptions returnData lines :
  Workflow.getByName workflow (nodeType node) = Some declaration ->
  webhooks declaration = Some descriptions ->
  getNodeWebhooks toString workflow node additionalData ignoreRestartWehbooks
  = Ok (returnData, lines) ->
  (disabled node = Some true -> returnData = [] /\ lines = [])
  /\ sublist (map IWebhookData.webhookDescription returnData) descriptions
  /\ length returnData + length lines <= length descriptions
  /\ (disabled node <> Some true -> ignoreRestartWehbooks = false ->
      length returnData + length lines = length descriptions).
Proof.
  unfold getNodeWebhooks. intros -> -> Hcall.
  destruct (disabled node) as [[|]|] eqn:Hdisabled.
  { injection Hcall as <- <-. simpl. repeat split; try done; try lia.
    apply sublist_nil_l. }
  all: destruct (addNodeWebhook_accounts _ _ _ _ _ Hcall)
         as (added & logged & Hfst & Hsnd & Hsub & Hle & Heq).
  all: simpl in Hfst, Hsnd; subst added logged.
  all: split; [done|]; split; [done|]; split; [done|]; intros _; exact Heq.
Qed.

(** A turn of the loop of [getNodeWebhooksBasic] that does not throw
    writes an error or adds one webhook. *)
Lemma addNodeWebhookBasic_Ok workflowId st d st' :
  addNodeWebhookBasic toString workflow node workflowId st d = Ok st' ->
  (exists line, st' = (fst st, snd st ++ [line]))
  \/ (exists pathValue raw full methodValue method,
        evaluate (IWebhookDescription.path d) None = Ok pathValue
        /\ toString pathValue = Ok raw
        /\ evaluate (IWebhookDescription.isFullPath d) (Some (VBool false)) = Ok full
        /\ evaluate (IWebhookDescription.httpMethod d) None = Ok methodValue
        /\ toString methodValue = Ok method
        /\ st' = (fst st ++
                    [IWebhookData.mk method (nodeName (inode node))
                       (webhookPath workflowId (inode node) raw (flagOf full) None)
                       d workflowId None None],
                  snd st)).
Proof.
  unfold addNodeWebhookBasic. fold (evaluate (IWebhookDescription.path d) None).
  fold (evaluate (IWebhookDescription.isFullPath d) (Some (VBool false))).
  fold (evaluate (IWebhookDescription.httpMethod d) None).
  destruct (evaluate (IWebhookDescription.path d) None) as [pathValue| |];
    simpl; try done.
  destruct (isUndefined pathValue) eqn:Hpath.
  { intros [= <-]. left. eauto. }
  destruct (toString pathValue) as [raw| |] eqn:Hraw; simpl; try done.
  destruct (evaluate (IWebhookDescription.isFullPath d) (Some (VBool false)))
    as [full| |]; simpl; try done.
  destruct (evaluate (IWebhookDescription.httpMethod d) None)
    as [methodValue| |]; simpl; try done.
  destruct (isUndefined methodValue) eqn:Hmethod.
  { intros [= <-]. left. eauto. }
  destruct (toString methodValue) as [method| |] eqn:Hto; simpl; try done.
  intros [= <-]. right.
  exists pathValue, raw, full, methodValue, method. done.
Qed.

Lemma addNodeWebhookBasic_accounts descriptions :
  forall st st',
    forEach (addNodeWebhookBasic toString workflow node (workflowIdOf workflow))
            descriptions st = Ok st' ->
    exists added lines,
      fst st' = fst st ++ added
      /\ snd st' = snd st ++ lines
      /\ sublist (map IWebhookData.webhookDescription added) descriptions
      /\ length added + length lines = length descriptions
      /\ forall w, In w added ->
           IWebhookData.webhookId w = None
           /\ IWebhookData.workflowExecuteAdditionalData w = None
           /\ exists pathValue raw full,
                evaluate (IWebhookDescription.path (IWebhookData.webhookDescription w))
                  None = Ok pathValue
                /\ toString pathValue = Ok raw
                /\ evaluate (IWebhookDescription.isFullPath
                               (IWebhookData.webhookDescription w))
                     (Some (VBool false)) = Ok full
                /\ IWebhookData.path w
                   = webhookPath (workflowIdOf workflow) (inode node) raw
                       (flagOf full) None.
Proof.
  induction descriptions as [|d descriptions IH]; intros st st' Hloop; simpl in Hloop.
  - injection Hloop as <-. exists [], []. rewrite !app_nil_r. simpl.
    repeat split; try done; try apply sublist_nil_l.
  - destruct (addNodeWebhookBasic _ _ _ _ st d) as [s1| |] eqn:Hturn;
      simpl in Hloop; try done.
    destruct (IH s1 st' Hloop) as (added & lines & Hfst & Hsnd & Hsub & Heq & Hall).
    apply addNodeWebhookBasic_Ok in Hturn
      as [(line & ->)|(pv & raw & full & mv & method & H1 & H2 & H3 & _ & _ & ->)].
    + exists added, (line :: lines). simpl in *.
      split; [done|]. split; [by rewrite Hsnd, <- app_assoc|].
      split; [by apply sublist_cons|]. split; [lia|done].
    + eexists (_ :: added), lines. simpl in *.
      split; [by rewrite Hfst, <- app_assoc|]. split; [done|].
      split; [by apply sublist_skip|]. split; [lia|].
      intros w [<-|Hw]; [|by apply Hall]. simpl.
      do 2 (split; [done|]). exists pv, raw, full. done.
Qed.

(** X30: [getNodeWebhooksBasic] gives every description of a node that
    is not disabled its webhook or its line of error, in the order of
    the descriptions.  The path of a webhook is the one of a webhook
    that is no restart webhook, whatever the description says about
    restarting, and the webhook carries neither a webhook id nor the
    additional data. *)
Theorem getNodeWebhooksBasic_entries declaration descriptions returnData lines :
  Workflow.getByName workflow (nodeType node) = Some declaration ->
  webhooks declaration = Some descriptions ->
  getNodeWebhooksBasic toString workflow node = Ok (returnData, lines) ->
  sublist (map IWebhookData.webhookDescription returnData) descriptions
  /\ (disabled node <> Some true ->
      length returnData + length lines = length descriptions)
  /\ forall w, In w returnData ->
       IWebhookData.webhookId w = None
       /\ IWebhookData.workflowExecuteAdditionalData w = None
       /\ exists pathValue raw full,
            evaluate (IWebhookDescription.path (IWebhookData.webhookDescription w))
              None = Ok pathValue
            /\ toString pathValue = Ok raw
            /\ evaluate (IWebhookDescription.isFullPath
                           (IWebhookData.webhookDescription w))
                 (Some (VBool false)) = Ok full
            /\ IWebhookData.path w
               = webhookPath (workflowIdOf workflow) (inode node) raw (flagOf full) None.
Proof.
  unfold getNodeWebhooksBasic. intros -> -> Hcall.
  destruct (disabled node) as [[|]|] eqn:Hdisabled.
  { injection Hcall as <- <-. simpl. repeat split; try done.
    apply sublist_nil_l. }
  all: destruct (addNodeWebhookBasic_accounts _ _ _ Hcall)
         as (added & logged & Hfst & Hsnd & Hsub & Heq & Hall).
  all: simpl in Hfst, Hsnd; subst added logged.
  all: split; [done|]; split; [done|]; exact Hall.
Qed.

End WebhookTurns.

Lemma getNodeWebhooks_entries_witness :
  getNodeWebhooks stringToString plainWorkflow webhookNode (VObj []) true
  = Ok ([hookEntry],
        ["No webhook path could be found for node " +:+ quote +:+ "My Node" +:+ quote
           +:+ " in workflow " +:+ quote +:+ "42" +:+ quote +:+ "."])
  /\ IWebhookData.webhookId hookEntry
     = (if isDynamicWebhook myNodeWithId (IWebhookData.path hookEntry)
        then Some "abc" else None).
Proof.
  split; [reflexivity|].
  destruct (getNodeWebhooks_entries stringToString plainWorkflow webhookNode (VObj []) true
              [hookEntry] _ hookEntry eq_refl (or_introl eq_refl))
    as (_ & _ & _ & _ & _ & _ & _ & _ & _ & _ & _ & _ & _ & _ & _ & _ & _ & _ & _ & _ & H & _).
  exact H.
Defined.

Lemma getNodeWebhooks_accounts_witness :
  getNodeWebhooks stringToString plainWorkflow webhookNode (VObj []) true
  = Ok ([hookEntry], [noPathMessage webhookNode "42"])
  /\ sublist (map IWebhookData.webhookDescription [hookEntry])
             [hookDescription; restartDescription; pathlessDescription]
  /\ length [hookEntry] + length [noPathMessage webhookNode "42"] <= 3.
Proof.
  split; [reflexivity|].
  destruct (getNodeWebhooks_accounts stringToString plainWorkflow webhookNode (VObj []) true
              (mkNodeType (Some [hookDescription; restartDescription;
                                 pathlessDescription]))
              [hookDescription; restartDescription; pathlessDescription]
              [hookEntry] [noPathMessage webhookNode "42"]
              eq_refl eq_refl eq_refl)
    as (_ & Hsub & Hle & _).
  split; [exact Hsub|exact Hle].
Defined.

Lemma getNodeWebhooksBasic_entries_witness :
  getNodeWebhooksBasic stringToString plainWorkflow webhookNode
  = Ok ([IWebhookData.mk "POST" "My Node" "abc/hook" hookDescription "42" None None],
        [noMethodMessage webhookNode "42" "abc/:id"; noPathMessage webhookNode "42"])
  /\ length [IWebhookData.mk "POST" "My Node" "abc/hook" hookDescription "42" None None]
     + length [noMethodMessage webhookNode "42" "abc/:id"; noPathMessage webhookNode "42"]
     = length [hookDescription; restartDescription; pathlessDescription].
Proof.
  split; [reflexivity|].
  destruct (getNodeWebhooksBasic_entries stringToString plainWorkflow webhookNode
              (mkNodeType (Some [hookDescription; restartDescription;
                                 pathlessDescription]))
              [hookDescription; restartDescription; pathlessDescription]
              [IWebhookData.mk "POST" "My Node" "abc/hook" hookDescription "42" None None]
              [noMethodMessage webhookNode "42" "abc/:id"; noPathMessage webhookNode "42"]
              eq_refl eq_refl eq_refl)
    as (_ & H & _).
  apply H. discriminate.
Defined.

Lemma displayParameter_rules_witness :
  displayParameter lodashGet (VObj [("A", VStr "x"); ("B", VArr [])]) twoKeyField VUndefined
  = false.
Proof.
  rewrite (displayParameter_rules lodashGet
             (VObj [("A", VStr "x"); ("B", VArr [])]) twoKeyField VUndefined eq_refl).
  reflexivity.
Defined.

Lemma getParamterResolveOrder_in_order_witness :
  getParamterDependencies sortedPair = Ok [("B", []); ("A", ["B"])]
  /\ getParamterResolveOrder sortedPair [("B", []); ("A", ["B"])] = Ok [0; 1].
Proof.
  split; [reflexivity|].
  apply (getParamterResolveOrder_in_order sortedPair [("B", []); ("A", ["B"])]).
  intros [|[|i]] p Hnth; simpl in Hnth.
  - injection Hnth as <-. exists []. split; [reflexivity|]. intros d [].
  - injection Hnth as <-. exists ["B"]. split; [reflexivity|].
    intros d [<-|[]]. right. exists 0, (plainField "B" None).
    split; [lia|]. split; reflexivity.
  - destruct i; discriminate.
Defined.

Lemma getParamterResolveOrder_unknown_dependency_witness :
  getParamterDependencies [ghostField] = Ok [("x", ["ghost"])]
  /\ exists e, getParamterResolveOrder [ghostField] [("x", ["ghost"])] = Throw e.
Proof.
  split; [reflexivity|].
  apply (getParamterResolveOrder_unknown_dependency [ghostField]
           [("x", ["ghost"])] ghostField ["ghost"] "ghost").
  - left. reflexivity.
  - reflexivity.
  - left. reflexivity.
  - reflexivity.
  - intros q [<-|[]]. discriminate.
Defined.

Lemma getNodeParameters_unknown_dependency_witness :
  match getNodeParameters lodashGet valueEqb 2 [ghostField] (VObj [("x", VStr "v")])
          false false false false VUndefined None None with
  | Throw e =>
      e = maxItterations
      \/ (e = TypeError
          /\ exists q, In q [ghostField] /\ onObjectPrototype (name q) = true)
  | _ => False
  end.
Proof.
  apply (getNodeParameters_unknown_dependency lodashGet valueEqb 0 [ghostField]
           (VObj [("x", VStr "v")]) false false false false VUndefined None
           ghostField "ghost").
  - left. reflexivity.
  - left. reflexivity.
  - reflexivity.
  - intros q [<-|[]]. discriminate.
Defined.

Lemma getNodeParameters_declared_names_witness :
  exists props,
    VObj [("active", VBool true); ("limit", VNum 7); ("host", VStr "localhost")]
    = VObj props
    /\ NoDup (map fst props)
    /\ forall k, In k (map fst props) -> In k (map name scalarFields).
Proof.
  apply (getNodeParameters_declared_names lodashGet valueEqb 3 scalarFields
           (VObj [("limit", VNum 7); ("junk", VStr "z")])
           true true false false VUndefined None None).
  reflexivity.
Defined.

Lemma getNodeParameters_given_values_witness :
  exists value,
    getProp (VObj [("limit", VNum 7); ("host", VStr "localhost"); ("junk", VStr "z")])
            "limit" = Ok value
    /\ isUndefined value = false
    /\ ((forall q, In q scalarFields -> name q = "limit" ->
                   isComplexType (type q) = false) ->
        VNum 7 = value).
Proof.
  apply (getNodeParameters_given_values lodashGet valueEqb 3 scalarFields
           (VObj [("limit", VNum 7); ("host", VStr "localhost"); ("junk", VStr "z")])
           true false false VUndefined None None [("limit", VNum 7)] "limit" (VNum 7));
    reflexivity.
Defined.

Lemma getNodeParameters_every_name_witness :
  (exists v,
     lookupProp "host"
       [("active", VBool true); ("limit", VNum 7); ("host", VStr "localhost")]
     = Some v)
  /\ lookupProp "__proto__" [] = (None : option Value).
Proof.
  split.
  - apply (proj1 (getNodeParameters_every_name lodashGet valueEqb 3 scalarFields
                    (VObj [("limit", VNum 7)]) false VUndefined None None
                    [("active", VBool true); ("limit", VNum 7);
                     ("host", VStr "localhost")]
                    (mkNodeProperties "host" "Host" "string" (VStr "localhost") false
                       None None None None)
                    eq_refl eq_refl (or_intror (or_intror (or_introl eq_refl)))
                    eq_refl)).
    discriminate.
  - apply (proj2 (getNodeParameters_every_name lodashGet valueEqb 2 [protoFlag]
                    (VObj [("__proto__", VBool false)]) false VUndefined None
                    (Some [("__proto__", [])]) [] protoFlag
                    eq_refl eq_refl (or_introl eq_refl) eq_refl)).
    reflexivity.
Defined.

Lemma getNodeParameters_hidden_left_out_witness :
  lookupProp "A" [("B", VStr "y")] = None.
Proof.
  destruct (getNodeParameters_hidden_left_out lodashGet valueEqb 2 dependentPair
              (VObj [("A", VStr "a"); ("B", VStr "y")]) false false VUndefined None None
              [("B", VStr "y")] eq_refl)
    as (dependencies & full & Hdependencies & Hfull & Hhidden).
  apply Hhidden. vm_compute in Hdependencies. injection Hdependencies as <-.
  vm_compute in Hfull. injection Hfull as <-.
  intros q [<-|[<-|[]]] Hname; [reflexivity|discriminate].
Defined.

Lemma getParameterIssues_required_only_witness :
  execution (mkNodeIssues None None
               (Some {[ "url" := [isRequiredMessage requiredString] ]}) None) = None.
Proof.
  exact (proj1 (getParameterIssues_required_only lodashGet 1 requiredString
                  (VObj []) EmptyString _ eq_refl)).
Defined.

Lemma getParameterIssues_ends_witness :
  getParameterIssues lodashGet 1 requiredConstructor
    (VObj [("constructor", VStr EmptyString)]) EmptyString = Throw TypeError
  /\ ((exists q, In q (checkedProperties requiredConstructor)
                 /\ required q = true /\ onObjectPrototype (name q) = true)
      \/ (exists q opts g, In q (checkedProperties requiredConstructor)
                           /\ type q = "fixedCollection"
                           /\ options q = Some opts /\ In g opts
                           /\ values g = None)).
Proof.
  destruct (getParameterIssues_ends lodashGet 1 requiredConstructor
              (VObj [("constructor", VStr EmptyString)]) EmptyString)
    as [[issues Hcall]|Hthrow].
  - vm_compute. lia.
  - vm_compute in Hcall. discriminate.
  - exact Hthrow.
Defined.

Lemma getParameterIssues_checked_types_witness :
  getParameterIssues lodashGet 1 requiredNumber (VObj []) EmptyString = Ok noIssues
  /\ getParameterIssues lodashGet 1 requiredString (VObj [("url", VNull)]) EmptyString
     = Ok noIssues.
Proof.
  split.
  - apply (proj1 (getParameterIssues_checked_types lodashGet 0 requiredNumber
                    (VObj []) EmptyString eq_refl)); discriminate.
  - apply (proj2 (getParameterIssues_checked_types lodashGet 0 requiredString
                    (VObj [("url", VNull)]) EmptyString eq_refl));
      [reflexivity | reflexivity | discriminate | discriminate].
Defined.

Lemma getParameterIssues_multiple_values_witness :
  exists issues,
    getParameterIssues lodashGet 1 requiredStrings (parametersOf httpNode) EmptyString
    = Ok issues
    /\ messagesFor (parameters issues) "tags"
       = [isRequiredMessage requiredStrings; isRequiredMessage requiredStrings]
    /\ forall k, k <> "tags" -> messagesFor (parameters issues) k = [].
Proof.
  apply (proj1 (getParameterIssues_multiple_values lodashGet 0 requiredStrings
                  (parametersOf httpNode) EmptyString
                  [VStr EmptyString; VStr "a"; VStr EmptyString]
                  eq_refl eq_refl eq_refl eq_refl eq_refl)).
  left. reflexivity.
Defined.


Lemma keysInOrder_keys (m : gmap string (list string)) k :
  In k (keysInOrder m) <-> is_Some (m !! k).
Proof.
  unfold keysInOrder. rewrite in_map_iff. split.
  - intros ([k' lines] & <- & Hin). simpl.
    apply list_elem_of_In, elem_of_map_to_list in Hin. eauto.
  - intros [lines Hlook]. exists (k, lines). split; [done|].
    by apply list_elem_of_In, elem_of_map_to_list.
Qed.

Lemma nodeIssuesToString_lines_witness :
  In "Execution Error."
     (nodeIssuesToString keysInOrder (mkNodeIssues (Some false) None None None) None).
Proof.
  apply (nodeIssuesToString_lines keysInOrder (mkNodeIssues (Some false) None None None)
           None "Execution Error." keysInOrder_keys).
  left. split; [discriminate|reflexivity].
Defined.

Lemma getNodeParametersIssues_lines_witness :
  getNodeParametersIssues lodashGet 1 [requiredString] httpNode
  = Ok (Some (mkNodeIssues None None
                (Some {[ "url" := [isRequiredMessage requiredString] ]}) None))
  /\ exists p q,
       In p [requiredString] /\ In q (checkedProperties p)
       /\ required q = true
       /\ isRequiredMessage requiredString = isRequiredMessage q.
Proof.
  split; [vm_compute; reflexivity|].
  destruct (getNodeParametersIssues_lines lodashGet keysInOrder 1 [requiredString]
              httpNode
              (mkNodeIssues None None
                 (Some {[ "url" := [isRequiredMessage requiredString] ]}) None)
              (Some httpNode) keysInOrder_keys) as [_ Hlines].
  - vm_compute. reflexivity.
  - apply Hlines. vm_compute. left. reflexivity.
Defined.

Lemma getParameterIssues_collection_options_witness :
  messagesFor
    (parameters
       (mkNodeIssues None None
          (Some {[ "timeout" := [isRequiredMessage timeoutOption] ]}) None))
    "timeout"
  = messagesFor (parameters noIssues) "timeout"
    ++ flat_map
         (fun o =>
            match requiredIssues lodashGet o
                    (VObj [("options", VObj [("timeout", VStr "5")])]) EmptyString with
            | Ok found => messagesFor (parameters found) "timeout"
            | _ => []
            end)
         [timeoutOption].
Proof.
  destruct (getParameterIssues_collection_options lodashGet 0 timeoutCollection
              (VObj [("options", VObj [("timeout", VStr "5")])]) EmptyString
              [timeoutOption] eq_refl eq_refl)
    as [Hreturns _].
  - intros o [<-|[]]. reflexivity.
  - destruct Hreturns as (own & issues & Hown & Hcall & _ & Hlines).
    + intros o [<-|[]]. reflexivity.
    + vm_compute in Hown. injection Hown as <-.
      vm_compute in Hcall. injection Hcall as <-. exact (Hlines "timeout").
Defined.
